(** * The enhanced generator connector: payload generators, record
    generator, obfuscator and burst limiter.

    A shallow embedding of [internal/generator.go] and of the obfuscator
    package, with a model of the burst limiter of the source.  Go strings and byte slices are [string]s (sequences of 8-bit
    characters), Go's [int] is a [Z] with its 64-bit wrap-around written
    out, Go maps are [gmap]s, panics and returned errors are explicit
    results, and everything the code reads from its surroundings (the
    shared random source, the clock, the file system) is threaded through
    a [World]. *)

From Stdlib Require Import ZArith List Ascii String Lia QArith Qround.
From stdpp Require Import base option list strings gmap pretty.

Local Open Scope string_scope.
Local Open Scope Z_scope.

(** ** Strings *)

Module GoString.

(** [len(s)] *)
Definition len (s : string) : Z := Z.of_nat (String.length s).

Fixpoint drop (n : nat) (s : string) : string :=
  match n, s with
  | O, _ => s
  | S n', String _ s' => drop n' s'
  | S _, EmptyString => EmptyString
  end.

Fixpoint take (n : nat) (s : string) : string :=
  match n, s with
  | S n', String c s' => String c (take n' s')
  | _, _ => EmptyString
  end.

(** [strings.Repeat(String c, n)] for a one-character string *)
Fixpoint repeat (c : ascii) (n : nat) : string :=
  match n with
  | O => EmptyString
  | S n' => String c (repeat c n')
  end.

(** [strings.Split(s, sep)] for a one-character separator: the pieces
    between the separators, one more than there are separators. *)
Fixpoint Split (s : string) (sep : ascii) : list string :=
  match s with
  | EmptyString => [EmptyString]
  | String c s' =>
      if Ascii.eqb c sep then EmptyString :: Split s' sep
      else match Split s' sep with
           | p :: ps => String c p :: ps
           | [] => [String c EmptyString]
           end
  end.

Fixpoint all (p : ascii -> bool) (s : string) : bool :=
  match s with
  | EmptyString => true
  | String c s' => p c && all p s'
  end.

End GoString.

(** ** Results of a call *)

(** A call either returns or panics. *)
Inductive exec (A : Type) : Type :=
  | Done (a : A)
  | Panic (reason : string).
Arguments Done {A} a.
Arguments Panic {A} reason.

(** Go's [(T, error)] result pair. *)
Inductive result (A : Type) : Type :=
  | Ok (a : A)
  | Err (msg : string).
Arguments Ok {A} a.
Arguments Err {A} msg.

(** [s[i:]]: the run-time check of a slice expression on a string. *)
Definition slice_from (s : string) (i : Z) : exec string :=
  if (0 <=? i) && (i <=? GoString.len s)
  then Done (GoString.drop (Z.to_nat i) s)
  else Panic "slice bounds out of range".

(** ** Obfuscator *)

Module Obfuscator.

Definition ObfuscateSSN (ssn : string) : exec string :=
  let parts := GoString.Split ssn "-" in
  if negb (length parts =? 3)%nat then
    match slice_from ssn (GoString.len ssn - 4) with
    | Done tail => Done ("XXX-XX-" +:+ tail)
    | Panic r => Panic r
    end
  else
    match parts !! 2%nat with
    | Some p => Done ("XXX-XX-" +:+ p)
    | None => Panic "index out of range"
    end.

Definition ObfuscateCreditCard (number : string) : exec string :=
  if GoString.len number <? 4 then
    Done (GoString.repeat "X" (String.length number))
  else
    match slice_from number (GoString.len number - 4) with
    | Done tail =>
        Done (GoString.repeat "X" (Z.to_nat (GoString.len number - 4)) +:+ tail)
    | Panic r => Panic r
    end.

End Obfuscator.

(** ** Regular expressions

    The shapes of the generated values are stated as the regular
    expressions the package's tests use, matched by derivatives.  A
    pattern written between [^] and [$] has to match the whole string. *)

Module Regexp.

Inductive regexp : Type :=
  | Void
  | Eps
  | Class (p : ascii -> bool)
  | Cat (r1 r2 : regexp)
  | Alt (r1 r2 : regexp)
  | Star (r : regexp).

Fixpoint nullable (r : regexp) : bool :=
  match r with
  | Void => false
  | Eps => true
  | Class _ => false
  | Cat r1 r2 => nullable r1 && nullable r2
  | Alt r1 r2 => nullable r1 || nullable r2
  | Star _ => true
  end.

Fixpoint deriv (c : ascii) (r : regexp) : regexp :=
  match r with
  | Void => Void
  | Eps => Void
  | Class p => if p c then Eps else Void
  | Cat r1 r2 =>
      if nullable r1 then Alt (Cat (deriv c r1) r2) (deriv c r2)
      else Cat (deriv c r1) r2
  | Alt r1 r2 => Alt (deriv c r1) (deriv c r2)
  | Star r1 => Cat (deriv c r1) (Star r1)
  end.

Fixpoint matches (r : regexp) (s : string) : bool :=
  match s with
  | EmptyString => nullable r
  | String c s' => matches (deriv c r) s'
  end.

(** The language of an expression. *)
Inductive Lang : regexp -> string -> Prop :=
  | L_Eps : Lang Eps EmptyString
  | L_Class p c : p c = true -> Lang (Class p) (String c EmptyString)
  | L_Cat r1 r2 s1 s2 :
      Lang r1 s1 -> Lang r2 s2 -> Lang (Cat r1 r2) (s1 +:+ s2)
  | L_AltL r1 r2 s : Lang r1 s -> Lang (Alt r1 r2) s
  | L_AltR r1 r2 s : Lang r2 s -> Lang (Alt r1 r2) s
  | L_Star0 r : Lang (Star r) EmptyString
  | L_StarS r s1 s2 :
      Lang r s1 -> Lang (Star r) s2 -> Lang (Star r) (s1 +:+ s2).

(** A literal character, a literal word, [r{n}] and [r{n,}]. *)
Definition chr (c : ascii) : regexp := Class (Ascii.eqb c).

Fixpoint lit (s : string) : regexp :=
  match s with
  | EmptyString => Eps
  | String c s' => Cat (chr c) (lit s')
  end.

Fixpoint times (n : nat) (r : regexp) : regexp :=
  match n with
  | O => Eps
  | S n' => Cat r (times n' r)
  end.

Definition at_least (n : nat) (r : regexp) : regexp :=
  Cat (times n r) (Star r).

Definition between (lo hi c : ascii) : bool :=
  (nat_of_ascii lo <=? nat_of_ascii c)%nat
  && (nat_of_ascii c <=? nat_of_ascii hi)%nat.

(** [\d] *)
Definition is_digit (c : ascii) : bool := between "0" "9" c.
Definition digit : regexp := Class is_digit.

(** [[a-f0-9-]] *)
Definition is_uuid_char (c : ascii) : bool :=
  between "a" "f" c || between "0" "9" c || Ascii.eqb c "-".

(** [^EMP\d{4}$] *)
Definition re_employeeid : regexp := Cat (lit "EMP") (times 4 digit).
(** [^XXX-XX-\d{4}$] *)
Definition re_ssn : regexp := Cat (lit "XXX-XX-") (times 4 digit).
(** [^X{12,}\d{4}$] *)
Definition re_creditcard : regexp := Cat (at_least 12 (chr "X")) (times 4 digit).
(** [^ORD-[a-f0-9-]{36}$] *)
Definition re_ordernumber : regexp :=
  Cat (lit "ORD-") (times 36 (Class is_uuid_char)).

End Regexp.

(** ** Integers and their formatting *)

(** Go's [int] on the platforms the connector is built for. *)
Definition max_int : Z := 2 ^ 63 - 1.
Definition min_int : Z := - 2 ^ 63.
Definition wrap_int (z : Z) : Z := (z + 2 ^ 63) mod 2 ^ 64 - 2 ^ 63.

(** [strconv.Itoa], [strconv.FormatInt(_, 10)] and the verb [%d]. *)
Definition Itoa (n : Z) : string := pretty n.

(** The verbs [%02d] and [%04d]: zeros between the sign and the digits up
    to the width. *)
Definition pad0 (width : nat) (n : Z) : string :=
  if n <? 0 then
    "-" +:+ GoString.repeat "0" (width - 1 - String.length (Itoa (- n)))
        +:+ Itoa (- n)
  else GoString.repeat "0" (width - String.length (Itoa n)) +:+ Itoa n.

Definition newline : string := String (ascii_of_nat 10) EmptyString.

(** [10^k] *)
Fixpoint pow10 (k : nat) : N :=
  match k with
  | O => 1%N
  | S k' => (10 * pow10 k')%N
  end.

(** [time.Second], in nanoseconds *)
Definition time_Second : Z := 1000000000.

(** ** The surroundings of a call *)

(** A pseudo-random source: the outputs it is going to give, and how many
    were taken. *)
Record Rand : Type := mkRand {
  outputs : nat -> Z;
  consumed : nat
}.

Definition Rand_next (r : Rand) : Z * Rand :=
  (outputs r (consumed r), mkRand (outputs r) (S (consumed r))).

(** [r.Int()]: a non-negative [int]. *)
Definition Rand_Int (r : Rand) : Z * Rand :=
  let '(x, r') := Rand_next r in (x mod 2 ^ 63, r').

(** [r.Intn(n)]: a number of [[0,n)]; panics unless [0 < n]. *)
Definition Rand_Intn (n : Z) (r : Rand) : exec (Z * Rand) :=
  if n <=? 0 then Panic "invalid argument to Intn"
  else let '(x, r') := Rand_next r in Done (x mod n, r').

Record World : Type := mkWorld {
  (** the source behind [math/rand]'s top-level functions *)
  global_rand : Rand;
  (** the source behind gofakeit's top-level functions *)
  faker_rand : Rand;
  (** the readings [time.Now()] is going to give, in nanoseconds since
      the epoch, and how many were taken *)
  clock : nat -> Z;
  clock_reads : nat;
  (** the files [os.ReadFile] can read, and the paths read so far *)
  files : gmap string string;
  file_reads : list string
}.

(** A call that reads and changes the surroundings, and may panic. *)
Definition M (A : Type) : Type := World -> exec (A * World).

Global Instance M_ret : MRet M := fun A a w => Done (a, w).
Global Instance M_bind : MBind M := fun A B f m w =>
  match m w with
  | Done (a, w') => f a w'
  | Panic r => Panic r
  end.

Definition panic {A : Type} (reason : string) : M A := fun _ => Panic reason.

Definition set_global_rand (r : Rand) (w : World) : World :=
  mkWorld r (faker_rand w) (clock w) (clock_reads w) (files w) (file_reads w).
Definition set_faker_rand (r : Rand) (w : World) : World :=
  mkWorld (global_rand w) r (clock w) (clock_reads w) (files w) (file_reads w).

(** [rand.Int()] *)
Definition rand_Int : M Z := fun w =>
  let '(x, r) := Rand_Int (global_rand w) in Done (x, set_global_rand r w).

(** [rand.Intn(n)] *)
Definition rand_Intn (n : Z) : M Z := fun w =>
  match Rand_Intn n (global_rand w) with
  | Done (x, r) => Done (x, set_global_rand r w)
  | Panic m => Panic m
  end.

(** One output of gofakeit's source. *)
Definition faker_next : M Z := fun w =>
  let '(x, r) := Rand_next (faker_rand w) in Done (x, set_faker_rand r w).

(** [time.Now()] *)
Definition time_Now : M Z := fun w =>
  Done (clock w (clock_reads w),
        mkWorld (global_rand w) (faker_rand w) (clock w) (S (clock_reads w))
                (files w) (file_reads w)).

(** [os.ReadFile(path)] *)
Definition os_ReadFile (path : string) : M (result string) := fun w =>
  let w' := mkWorld (global_rand w) (faker_rand w) (clock w) (clock_reads w)
                    (files w) (file_reads w ++ [path]) in
  match files w !! path with
  | Some content => Done (Ok content, w')
  | None => Done (Err ("open " +:+ path +:+ ": no such file or directory"), w')
  end.

(** ** Records and payloads *)

Inductive Value : Type :=
  | VInt (n : Z)
  | VString (s : string)
  | VTime (t : Z)
  | VDuration (d : Z)
  | VBool (b : bool).

(** [opencdc.Data]: raw bytes or a structured mapping. *)
Inductive Data : Type :=
  | RawData (b : string)
  | StructuredData (m : gmap string Value).

Inductive Operation : Type :=
  | OperationCreate
  | OperationUpdate
  | OperationDelete
  | OperationSnapshot.

(** [opencdc.Change]: a slot that was not assigned holds [nil]. *)
Record Change : Type := mkChange {
  Before : option Data;
  After : option Data
}.

Record Record_ : Type := mkRecord {
  Position : string;
  Operation_ : Operation;
  Metadata : gmap string string;
  Key : Data;
  Payload : Change
}.

(** [Metadata.SetCreatedAt] *)
Definition SetCreatedAt (t : Z) (m : gmap string string) : gmap string string :=
  <["opencdc.createdAt" := Itoa t]> m.

(** ** Documents of the patient generators *)

Record FHIRName : Type := mkFHIRName {
  fhir_Family : list string;
  fhir_Given : list string
}.

Record FHIRAddress : Type := mkFHIRAddress {
  fhir_Line : list string;
  fhir_City : string;
  fhir_State : string;
  fhir_PostalCode : string;
  fhir_Country : string
}.

Record FHIRPatient : Type := mkFHIRPatient {
  fhir_ID : string;
  fhir_Name : list FHIRName;
  fhir_BirthDate : string;
  fhir_Gender : string;
  fhir_Address : list FHIRAddress
}.

Record MSHSegment : Type := mkMSH {
  SendingApplication : string;
  SendingFacility : string;
  ReceivingApplication : string;
  ReceivingFacility : string;
  DateTime : Z;
  MessageType : string;
  MessageControlID : string;
  ProcessingID : string;
  Version : string
}.

Record PIDSegment : Type := mkPID {
  SetID : string;
  PatientID : string;
  PatientName : string;
  DateOfBirth : string;
  pid_Gender : string;
  pid_Address : string
}.

Record HL7v3Name : Type := mkHL7v3Name {
  v3_Given : list string;
  v3_Family : string
}.

Record HL7v3Address : Type := mkHL7v3Address {
  v3_Street : list string;
  v3_City : string;
  v3_State : string;
  v3_ZipCode : string
}.

Record HL7v3Patient : Type := mkHL7v3Patient {
  v3_ID : Z;
  v3_Name : list HL7v3Name;
  v3_Gender : string;
  v3_BirthTime : string;
  v3_Address : list HL7v3Address
}.

(** What [json.Unmarshal] stores into a [map[string]any]. *)
#[warnings="-register-all"]
Inductive JSONValue : Type :=
  | JNull
  | JBool (b : bool)
  | JNumber (literal : string)
  | JString (s : string)
  | JArray (items : list JSONValue)
  | JObject (members : list (string * JSONValue)).

(** ** Code outside the repository

    The libraries the generators call, and [randomWord], which package
    [internal] declares in a file of its own.  Each of gofakeit's words is
    a function of one output of its source. *)
Class Externals : Type := {
  (** the outputs of [rand.NewSource(seed)] *)
  rand_NewSource : Z -> nat -> Z;
  (** [randomWord()], from one output of the shared source *)
  randomWord_of : Z -> string;
  gofakeit_Name_of : Z -> string;
  gofakeit_Email_of : Z -> string;
  gofakeit_FirstName_of : Z -> string;
  gofakeit_LastName_of : Z -> string;
  gofakeit_Street_of : Z -> string;
  gofakeit_City_of : Z -> string;
  gofakeit_State_of : Z -> string;
  gofakeit_Zip_of : Z -> string;
  (** [t.Format("20060102150405")] in the process's time zone *)
  time_Format_stamp : Z -> string;
  (** [json.Marshal] of a payload and of a patient *)
  json_Marshal : Data -> option string;
  json_Marshal_patient : FHIRPatient -> option string;
  (** [json.Unmarshal] into a [map[string]any] *)
  json_Unmarshal : string -> option (gmap string JSONValue);
  (** [xml.MarshalIndent(patient, "", "  ")] *)
  xml_MarshalIndent : HL7v3Patient -> option string
}.

(** What the generators rely on from the JSON library: an object is read
    back with the member names it was written with. *)
Definition reads_back_names (ext : Externals) : Prop :=
  forall (m : gmap string Value) (b : string),
    json_Marshal (StructuredData m) = Some b ->
    exists j, json_Unmarshal b = Some j /\ dom j = dom m.

(** The record generator.  [generateData] is a closure; [C] is the type of
    what it captured, [captured] its current value. *)
Record baseRecordGenerator (C : Type) : Type := mkBase {
  collection : string;
  operations : list Operation;
  generateData : C -> M (Data * C);
  captured : C;
  count : Z
}.
Arguments mkBase {C} _ _ _ _ _.
Arguments collection {C} _.
Arguments operations {C} _.
Arguments generateData {C} _.
Arguments captured {C} _.
Arguments count {C} _.

(** ** internal/generator.go *)

Section Generator.

Context `{ext : Externals}.

Definition TypeName : string := "name".
Definition TypeEmail : string := "email".
Definition TypeEmployeeID : string := "employeeid".
Definition TypeSSN : string := "ssn".
Definition TypeCreditCard : string := "creditcard".
Definition TypeOrderNum : string := "ordernumber".

Definition KnownTypes : list string :=
  ["int"; "string"; "time"; "bool"; "duration";
   TypeName; TypeEmail; TypeEmployeeID; TypeSSN; TypeCreditCard; TypeOrderNum].

(** *** What the code takes from the libraries *)

Definition randomWord : M string :=
  x ← rand_Int; mret (randomWord_of x).

Definition gofakeit_Name : M string := x ← faker_next; mret (gofakeit_Name_of x).
Definition gofakeit_Email : M string := x ← faker_next; mret (gofakeit_Email_of x).
Definition gofakeit_FirstName : M string :=
  x ← faker_next; mret (gofakeit_FirstName_of x).
Definition gofakeit_LastName : M string :=
  x ← faker_next; mret (gofakeit_LastName_of x).
Definition gofakeit_Street : M string := x ← faker_next; mret (gofakeit_Street_of x).
Definition gofakeit_City : M string := x ← faker_next; mret (gofakeit_City_of x).
Definition gofakeit_State : M string := x ← faker_next; mret (gofakeit_State_of x).
Definition gofakeit_Zip : M string := x ← faker_next; mret (gofakeit_Zip_of x).

(** [gofakeit.Number(min, max)]: the number itself when the bounds are
    equal, else a number between the bounds, swapped when they come in the
    wrong order. *)
Definition gofakeit_Number (min max : Z) : M Z :=
  if min =? max then mret min
  else
    let lo := Z.min min max in
    let hi := Z.max min max in
    x ← faker_next; mret (lo + x mod (hi - lo + 1)).

Definition hex_digit (n : Z) : ascii :=
  if n <? 10 then ascii_of_nat (Z.to_nat (48 + n))
  else ascii_of_nat (Z.to_nat (87 + n)).

(** [hex.Encode] of bytes *)
Fixpoint hex_encode (bs : list Z) : string :=
  match bs with
  | [] => EmptyString
  | b :: bs' =>
      String (hex_digit (Z.shiftr b 4)) (String (hex_digit (Z.land b 15)) (hex_encode bs'))
  end.

Fixpoint faker_bytes (n : nat) : M (list Z) :=
  match n with
  | O => mret []
  | S n' => x ← faker_next; bs ← faker_bytes n'; mret (x mod 256 :: bs)
  end.

(** [gofakeit.UUID()]: sixteen bytes of the source, the version and the
    variant set, in the canonical form of five groups. *)
Definition gofakeit_UUID : M string :=
  bs ← faker_bytes 16;
  let bs := alter (fun b => Z.lor (Z.land b 15) 64) 6%nat bs in
  let bs := alter (fun b => Z.lor (Z.land b 191) 128) 8%nat bs in
  mret (hex_encode (take 4 bs) +:+ "-"
        +:+ hex_encode (take 2 (drop 4 bs)) +:+ "-"
        +:+ hex_encode (take 2 (drop 6 bs)) +:+ "-"
        +:+ hex_encode (take 2 (drop 8 bs)) +:+ "-"
        +:+ hex_encode (drop 10 bs)).

(** [time.Date(year, month, day, 0, 0, 0, 0, time.UTC).Format(layout)] for
    the two layouts in use; the code draws the month from [[1,12]] and the
    day from [[1,28]], which [time.Date] leaves as they are. *)
Definition format_date (year month day : Z) : string :=
  pad0 4 year +:+ "-" +:+ pad0 2 month +:+ "-" +:+ pad0 2 day.
Definition format_stamp_midnight (year month day : Z) : string :=
  pad0 4 year +:+ pad0 2 month +:+ pad0 2 day +:+ "000000".

(** *** Payloads from a field specification *)

(** One turn of the loop of [randomStructuredData]: the value for a
    field of type [typ]. *)
Definition fieldValue (field typ : string) : M Value :=
  if String.eqb typ "int" then x ← rand_Int; mret (VInt x)
  else if String.eqb typ "string" then s ← randomWord; mret (VString s)
  else if String.eqb typ "time" then t ← time_Now; mret (VTime t)
  else if String.eqb typ "duration" then
    x ← rand_Intn 1000; mret (VDuration (x * time_Second))
  else if String.eqb typ "bool" then x ← rand_Int; mret (VBool (x mod 2 =? 0))
  else if String.eqb typ TypeName then s ← gofakeit_Name; mret (VString s)
  else if String.eqb typ TypeEmail then s ← gofakeit_Email; mret (VString s)
  else if String.eqb typ TypeEmployeeID then
    n ← gofakeit_Number 1000 9999; mret (VString ("EMP" +:+ Itoa n))
  else if String.eqb typ TypeSSN then
    n ← gofakeit_Number 0 9999;
    let lastFour := pad0 4 n in
    mret (VString ("XXX-XX-" +:+ lastFour))
  else if String.eqb typ TypeCreditCard then
    n ← gofakeit_Number 0 9999;
    let lastFour := pad0 4 n in
    mret (VString ("XXXXXXXXXXXX" +:+ lastFour))
  else if String.eqb typ TypeOrderNum then
    u ← gofakeit_UUID; mret (VString ("ORD-" +:+ u))
  else panic ("field " +:+ field +:+ " contains invalid type: " +:+ typ).

(** The loop over the fields, in the order the map gives them. *)
Fixpoint rangeFields (kvs : list (string * string)) (data : gmap string Value)
  : M (gmap string Value) :=
  match kvs with
  | [] => mret data
  | (field, typ) :: rest =>
      v ← fieldValue field typ;
      rangeFields rest (<[field := v]> data)
  end.

Definition randomStructuredData (fields : gmap string string) : M Data :=
  data ← rangeFields (map_to_list fields) ∅;
  mret (StructuredData data).

Definition randomRawData (fields : gmap string string) : M Data :=
  data ← randomStructuredData fields;
  match json_Marshal data with
  | Some bytes => mret (RawData bytes)
  | None => panic "couldn't serialize data"
  end.

(** *** The patient generators *)

Record Generator : Type := mkGenerator {
  rand : Rand;
  patientIDCounter : Z
}.

Definition NewGenerator (seed : Z) : Generator :=
  mkGenerator (mkRand (rand_NewSource seed) 0) 0.

(** [g.rand.Intn(n)], for the bounds the generators use *)
Definition g_Intn (n : Z) (g : Generator) : M (Z * Generator) := fun w =>
  match Rand_Intn n (rand g) with
  | Done (x, r) => Done ((x, mkGenerator r (patientIDCounter g)), w)
  | Panic m => Panic m
  end.

Definition gender (g : Generator) : M (string * Generator) :=
  '(i, g) ← g_Intn 2 g;
  mret (if i =? 0 then "male" else "female", g).

(** The helper methods of the generator *)
Definition firstName : M string := gofakeit_FirstName.
Definition lastName : M string := gofakeit_LastName.
Definition streetAddress : M string := gofakeit_Street.
Definition city : M string := gofakeit_City.
Definition state : M string := gofakeit_State.
Definition zipCode : M string := gofakeit_Zip.

Definition GenerateFHIRPatient (g : Generator) : M (FHIRPatient * Generator) :=
  let g := mkGenerator (rand g) (wrap_int (patientIDCounter g + 1)) in
  let id := Itoa (patientIDCounter g) in
  family ← lastName;
  given ← firstName;
  '(gen, g) ← gender g;
  line ← streetAddress;
  city ← city;
  state ← state;
  zip ← zipCode;
  '(y, g) ← g_Intn 100 g;
  '(m, g) ← g_Intn 12 g;
  '(d, g) ← g_Intn 28 g;
  let year := y + 1920 in
  let month := m + 1 in
  let day := d + 1 in
  mret (mkFHIRPatient id [mkFHIRName [family] [given]]
          (pad0 4 year +:+ "-" +:+ pad0 2 month +:+ "-" +:+ pad0 2 day)
          gen
          [mkFHIRAddress [line] city state zip "USA"],
        g).

Definition GenerateHL7Message (g : Generator) : M (string * PIDSegment * Generator) :=
  now ← time_Now;
  let g := mkGenerator (rand g) (wrap_int (patientIDCounter g + 1)) in
  let msh := mkMSH "FHIR_CONVERTER" "FACILITY" "HL7_PARSER" "FACILITY" now
               "ADT^A01" (time_Format_stamp now) "P" "2.5" in
  let id := Itoa (patientIDCounter g) in
  last ← lastName;
  first ← firstName;
  '(y, g) ← g_Intn 100 g;
  '(m, g) ← g_Intn 12 g;
  '(d, g) ← g_Intn 28 g;
  '(gen, g) ← gender g;
  street ← streetAddress;
  city ← city;
  state ← state;
  zip ← zipCode;
  let pid := mkPID "1" id (last +:+ "^" +:+ first)
               (format_date (1920 + y) (1 + m) (1 + d)) gen
               (street +:+ "^" +:+ city +:+ "^" +:+ state +:+ "^" +:+ zip +:+ "^USA") in
  let message :=
    "MSH|^~\&|" +:+ SendingApplication msh +:+ "|" +:+ SendingFacility msh
      +:+ "|" +:+ ReceivingApplication msh +:+ "|" +:+ ReceivingFacility msh
      +:+ "|" +:+ time_Format_stamp (DateTime msh) +:+ "||" +:+ MessageType msh
      +:+ "|" +:+ MessageControlID msh +:+ "|" +:+ ProcessingID msh
      +:+ "|" +:+ Version msh +:+ "|" +:+ newline
      +:+ "PID|" +:+ SetID pid +:+ "||" +:+ PatientID pid +:+ "||" +:+ PatientName pid
      +:+ "||" +:+ DateOfBirth pid +:+ "|" +:+ pid_Gender pid +:+ "|||" +:+ pid_Address pid
      +:+ "||||||" +:+ PatientID pid in
  mret (message, pid, g).

(** The patient [GenerateHL7v3Message] builds before it marshals it. *)
Definition HL7v3Patient_next (g : Generator) : M (HL7v3Patient * Generator) :=
  let g := mkGenerator (rand g) (wrap_int (patientIDCounter g + 1)) in
  let id := patientIDCounter g in
  '(gen, g) ← gender g;
  let code := if String.eqb gen "male" then "M" else "F" in
  '(y, g) ← g_Intn 50 g;
  '(m, g) ← g_Intn 12 g;
  '(d, g) ← g_Intn 28 g;
  let birth := format_stamp_midnight (1950 + y) (1 + m) (1 + d) in
  given ← firstName;
  family ← lastName;
  street ← streetAddress;
  city ← city;
  state ← state;
  zip ← zipCode;
  mret (mkHL7v3Patient id ([] ++ [mkHL7v3Name [given] family]) code birth
          ([] ++ [mkHL7v3Address [street] city state zip]),
        g).

Definition xml_prolog : string :=
  "<?xml version=" +:+ String (ascii_of_nat 34) "1.0"
    +:+ String (ascii_of_nat 34) " encoding="
    +:+ String (ascii_of_nat 34) "UTF-8"
    +:+ String (ascii_of_nat 34) "?>".

Definition GenerateHL7v3Message (g : Generator)
  : M (result string * HL7v3Patient * Generator) :=
  '(patient, g) ← HL7v3Patient_next g;
  match xml_MarshalIndent patient with
  | None => mret (Err "failed to marshal HL7 v3 XML", patient, g)
  | Some xmlData => mret (Ok (xml_prolog +:+ xmlData), patient, g)
  end.

(** *** The record generator *)

Definition Next {C : Type} (g : baseRecordGenerator C)
  : M (Record_ * baseRecordGenerator C) :=
  let count' := wrap_int (count g + 1) in
  now ← time_Now;
  let metadata := SetCreatedAt now ∅ in
  let metadata :=
    if String.eqb (collection g) "" then metadata
    else <["collection" := collection g]> metadata in
  let position := Itoa count' in
  i ← rand_Intn (Z.of_nat (length (operations g)));
  match operations g !! Z.to_nat i with
  | None => panic "index out of range"
  | Some op =>
      word ← randomWord;
      let rec := fun payload => mkRecord position op metadata (RawData word) payload in
      let upd := fun c => mkBase (collection g) (operations g) (generateData g) c count' in
      match op with
      | OperationSnapshot | OperationCreate =>
          '(after, c) ← generateData g (captured g);
          mret (rec (mkChange None (Some after)), upd c)
      | OperationUpdate =>
          '(before, c) ← generateData g (captured g);
          '(after, c) ← generateData g c;
          mret (rec (mkChange (Some before) (Some after)), upd c)
      | OperationDelete =>
          '(before, c) ← generateData g (captured g);
          mret (rec (mkChange (Some before) None), upd c)
      end
  end.

(** [n] calls of [Next], one after the other, and the records they
    returned. *)
Fixpoint Next_n {C : Type} (n : nat) (g : baseRecordGenerator C)
  : M (list Record_ * baseRecordGenerator C) :=
  match n with
  | O => mret ([], g)
  | S n' =>
      '(r, g) ← Next g;
      '(rs, g) ← Next_n n' g;
      mret (r :: rs, g)
  end.

Definition NewFileRecordGenerator (collection : string)
    (operations : list Operation) (path : string)
  : M (result (baseRecordGenerator string)) :=
  read ← os_ReadFile path;
  match read with
  | Err e => mret (Err ("failed to read file: " +:+ e))
  | Ok bytes =>
      mret (Ok (mkBase collection operations
                  (fun bytes => mret (RawData bytes, bytes)) bytes 0))
  end.

Definition NewStructuredRecordGenerator (collection : string)
    (operations : list Operation) (fields : gmap string string)
  : result (baseRecordGenerator (gmap string string)) :=
  Ok (mkBase collection operations
        (fun fields => d ← randomStructuredData fields; mret (d, fields))
        fields 0).

Definition NewRawRecordGenerator (collection : string)
    (operations : list Operation) (fields : gmap string string)
  : result (baseRecordGenerator (gmap string string)) :=
  Ok (mkBase collection operations
        (fun fields => d ← randomRawData fields; mret (d, fields))
        fields 0).

Definition NewFHIRPatientRecordGenerator (collection : string)
    (operations : list Operation)
  : M (result (baseRecordGenerator Generator)) :=
  seed ← time_Now;
  mret (Ok (mkBase collection operations
              (fun generator =>
                 '(patient, generator) ← GenerateFHIRPatient generator;
                 match json_Marshal_patient patient with
                 | None => panic "failed to marshal FHIR patient"
                 | Some bytes => mret (RawData bytes, generator)
                 end)
              (NewGenerator seed) 0)).

Definition NewHL7RecordGenerator (collection : string)
    (operations : list Operation)
  : M (result (baseRecordGenerator Generator)) :=
  seed ← time_Now;
  mret (Ok (mkBase collection operations
              (fun generator =>
                 '(message, _, generator) ← GenerateHL7Message generator;
                 mret (RawData message, generator))
              (NewGenerator seed) 0)).

Definition NewHL7v3RecordGenerator (collection : string)
    (operations : list Operation)
  : M (result (baseRecordGenerator Generator)) :=
  seed ← time_Now;
  mret (Ok (mkBase collection operations
              (fun generator =>
                 '(message, _, generator) ← GenerateHL7v3Message generator;
                 match message with
                 | Err _ => panic "failed to generate HL7 v3 message"
                 | Ok message => mret (RawData message, generator)
                 end)
              (NewGenerator seed) 0)).

(** *** Documents of one generator *)

Inductive DocKind : Type := KFHIR | KHL7 | KHL7v3.

Inductive Document : Type :=
  | DocFHIR (p : FHIRPatient)
  | DocHL7 (message : string) (pid : PIDSegment)
  | DocHL7v3 (bytes : result string) (p : HL7v3Patient).

Definition Generate (k : DocKind) (g : Generator) : M (Document * Generator) :=
  match k with
  | KFHIR => '(p, g) ← GenerateFHIRPatient g; mret (DocFHIR p, g)
  | KHL7 => '(m, pid, g) ← GenerateHL7Message g; mret (DocHL7 m pid, g)
  | KHL7v3 => '(b, p, g) ← GenerateHL7v3Message g; mret (DocHL7v3 b p, g)
  end.

(** The calls [ks] on one generator, one after the other. *)
Fixpoint Generate_all (ks : list DocKind) (g : Generator)
  : M (list Document * Generator) :=
  match ks with
  | [] => mret ([], g)
  | k :: ks' =>
      '(d, g) ← Generate k g;
      '(ds, g) ← Generate_all ks' g;
      mret (d :: ds, g)
  end.

(** The identity a document carries: a string in the resource and in
    the message, a number in the XML document. *)
Inductive Identity : Type :=
  | IdText (s : string)
  | IdNumber (n : Z).

Definition identity (d : Document) : Identity :=
  match d with
  | DocFHIR p => IdText (fhir_ID p)
  | DocHL7 _ pid => IdText (PatientID pid)
  | DocHL7v3 _ p => IdNumber (v3_ID p)
  end.

(** The number an identity stands for. *)
Definition is_identity (n : Z) (i : Identity) : Prop :=
  match i with
  | IdText s => s = Itoa n
  | IdNumber m => m = n
  end.

(** The kind of a document. *)
Definition kind_of (d : Document) : DocKind :=
  match d with
  | DocFHIR _ => KFHIR
  | DocHL7 _ _ => KHL7
  | DocHL7v3 _ _ => KHL7v3
  end.

End Generator.

(** ** What the properties speak of *)

(** The payload slots an operation asks for. *)
Definition slots_match (r : Record_) : Prop :=
  match Operation_ r with
  | OperationSnapshot | OperationCreate =>
      Before (Payload r) = None /\ is_Some (After (Payload r))
  | OperationUpdate =>
      is_Some (Before (Payload r)) /\ is_Some (After (Payload r))
  | OperationDelete =>
      is_Some (Before (Payload r)) /\ After (Payload r) = None
  end.

(** The payload function of the file-backed generator. *)
Definition cached : string -> M (Data * string) :=
  fun bytes => mret (RawData bytes, bytes).

(** The record carries the payload [d] in every slot its operation asks
    for, and nothing in the other. *)
Definition carries (d : Data) (r : Record_) : Prop :=
  match Operation_ r with
  | OperationSnapshot | OperationCreate => Payload r = mkChange None (Some d)
  | OperationUpdate => Payload r = mkChange (Some d) (Some d)
  | OperationDelete => Payload r = mkChange (Some d) None
  end.

(** Four decimal digits, and a number that fits a byte. *)
Definition four_digits (s : string) : bool :=
  (String.length s =? 4)%nat && GoString.all Regexp.is_digit s.

Definition in_byte (b : Z) : bool := (0 <=? b) && (b <? 256).

(** The shape a value of a declared type has.  The patterns are the ones
    of the package's tests; what gofakeit gives for a name and for an
    e-mail address is a string. *)
Definition shape_ok (typ : string) (v : Value) : bool :=
  if String.eqb typ "int" then
    match v with VInt n => (0 <=? n) && (n <=? max_int) | _ => false end
  else if String.eqb typ "string" then
    match v with VString _ => true | _ => false end
  else if String.eqb typ "time" then
    match v with VTime _ => true | _ => false end
  else if String.eqb typ "duration" then
    match v with
    | VDuration d =>
        (0 <=? d) && (d <? 1000 * time_Second) && (d mod time_Second =? 0)
    | _ => false
    end
  else if String.eqb typ "bool" then
    match v with VBool _ => true | _ => false end
  else if String.eqb typ TypeName then
    match v with VString _ => true | _ => false end
  else if String.eqb typ TypeEmail then
    match v with VString _ => true | _ => false end
  else if String.eqb typ TypeEmployeeID then
    match v with VString s => Regexp.matches Regexp.re_employeeid s | _ => false end
  else if String.eqb typ TypeSSN then
    match v with VString s => Regexp.matches Regexp.re_ssn s | _ => false end
  else if String.eqb typ TypeCreditCard then
    match v with
    | VString s =>
        Regexp.matches Regexp.re_creditcard s
        && Regexp.matches
             (Regexp.Cat (Regexp.times 12 (Regexp.chr "X"))
                         (Regexp.times 4 Regexp.digit)) s
    | _ => false
    end
  else if String.eqb typ TypeOrderNum then
    match v with VString s => Regexp.matches Regexp.re_ordernumber s | _ => false end
  else false.

(** ** The burst rate limiter *)

Module BurstLimiter.

Definition millisecond : Z := 1000000.

Inductive Phase : Type := Bursting | Sleeping.

(** Modelled from the spec: the generator cycle state of the burst rate
    limiter, whose source file is not among the sources.  Instants and
    durations are in nanoseconds; [rate] is in records per second, and
    zero stands for no steady-rate cap. *)
Record Limiter : Type := mkLimiter {
  burstDuration : Z;
  sleepDuration : Z;
  rate : Q;
  phase : Phase;
  phaseStart : Z;
  lastEmission : option Z
}.

(** Modelled from the spec: the limiter starts in the bursting phase,
    the phase beginning at the instant of construction. *)
Definition New (burst sleep : Z) (rate : Q) (now : Z) : Limiter :=
  mkLimiter burst sleep rate Bursting now None.

Definition enter (p : Phase) (now : Z) (l : Limiter) : Limiter :=
  mkLimiter (burstDuration l) (sleepDuration l) (rate l) p now (lastEmission l).

Definition emitted (at_ : Z) (l : Limiter) : Limiter :=
  mkLimiter (burstDuration l) (sleepDuration l) (rate l) (phase l)
            (phaseStart l) (Some at_).

(** [1/rate] seconds, in nanoseconds *)
Definition gap (l : Limiter) : Z :=
  Qceiling (inject_Z time_Second / rate l).

Definition remaining_sleep (l : Limiter) (now : Z) : Z :=
  phaseStart l + sleepDuration l - now.

(** Modelled from the spec: case 3 of the wait computation, the
    steady-rate cap while bursting. *)
Definition steady (l : Limiter) (now : Z) : Z * Limiter :=
  let wait :=
    match lastEmission l with
    | Some last =>
        if Qlt_le_dec 0 (rate l) then Z.max 0 (last + gap l - now) else 0
    | None => 0
    end in
  (wait, emitted (now + wait) l).

(** Modelled from the spec: case 1 of the wait computation.  While sleep
    time remains, the wait is exactly that; the attempt that finds the
    sleep window elapsed moves to the bursting phase, which begins at
    that instant. *)
Definition sleeping (l : Limiter) (now : Z) : Z * Limiter :=
  if 0 <? remaining_sleep l now then (remaining_sleep l now, l)
  else steady (enter Bursting now l) now.

Definition burst_over (l : Limiter) (now : Z) : bool :=
  (phaseStart l + burstDuration l <=? now) && negb (sleepDuration l =? 0).

(** Modelled from the spec: the wait computation of an emission attempt
    at the instant [now].  The result is the wait the caller has to
    honour and the state the attempt leaves.  An attempt that lands past
    the burst window is redirected into the sleep window, which begins
    where the burst window ended: the wait is the sleep duration less the
    time by which the attempt overran the burst window, as the scenario
    of the rate limiter has it, and as [testSourceRateLimit] measures it
    (a read half a sleep duration after the end of the burst window is
    delayed by the other half). *)
Definition Wait (l : Limiter) (now : Z) : Z * Limiter :=
  match phase l with
  | Sleeping => sleeping l now
  | Bursting =>
      if burst_over l now
      then sleeping (enter Sleeping (phaseStart l + burstDuration l) l) now
      else steady l now
  end.

(** Modelled from the spec: a read of the source.  The caller sleeps for
    the wait it was given and, when that was the rest of a sleep window,
    asks again at the end of it; the delay of the read is the sum. *)
Definition Read (l : Limiter) (now : Z) : Z * Limiter :=
  let '(wait, l1) := Wait l now in
  match phase l1 with
  | Bursting => (wait, l1)
  | Sleeping =>
      let '(again, l2) := Wait l1 (now + wait) in (wait + again, l2)
  end.

(** The delays of reads that follow one another, each after a pause, as
    [testSourceRateLimit] takes them. *)
Fixpoint Reads (pauses : list Z) (l : Limiter) (now : Z) : list Z :=
  match pauses with
  | [] => []
  | pause :: rest =>
      let '(delay, l') := Read l (now + pause) in
      delay :: Reads rest l' (now + pause + delay)
  end.

(** Burst duration 150ms, sleep duration 100ms, no steady-rate cap,
    started at instant 0. *)
Definition limiter0 : Limiter :=
  New (150 * millisecond) (100 * millisecond) 0%Q 0.

(** The configuration of [testSourceRateLimit]: the same durations and a
    rate of 20 records per second. *)
Definition limiter20 : Limiter :=
  New (150 * millisecond) (100 * millisecond) (20 # 1)%Q 0.

End BurstLimiter.

(** ** One instance of the libraries

    A JSON codec for objects whose members are numbers, strings and
    booleans, with every character of a string written as a [\u00XX]
    escape.  It shows that the interface the generators are verified
    against can be met, and gives the examples something to run on. *)

Module SimpleJSON.

Definition quote : ascii := ascii_of_nat 34.

Definition hex_of (n : nat) : ascii :=
  if (n <? 10)%nat then ascii_of_nat (48 + n) else ascii_of_nat (87 + n).

Definition unhex (c : ascii) : option nat :=
  let n := nat_of_ascii c in
  if (48 <=? n)%nat && (n <=? 57)%nat then Some (n - 48)%nat
  else if (97 <=? n)%nat && (n <=? 102)%nat then Some (n - 87)%nat
  else None.

(** The encoders take the text that follows. *)
Fixpoint escape (s : string) (tail : string) : string :=
  match s with
  | EmptyString => tail
  | String c s' =>
      String "\" (String "u" (String "0" (String "0"
        (String (hex_of (nat_of_ascii c / 16))
           (String (hex_of (nat_of_ascii c mod 16)) (escape s' tail))))))
  end.

Definition enc_string (s : string) (tail : string) : string :=
  String quote (escape s (String quote tail)).

Definition enc_value (v : Value) (tail : string) : string :=
  match v with
  | VInt n => Itoa n +:+ tail
  | VString s => enc_string s tail
  | VTime t => enc_string (Itoa t) tail
  | VDuration d => Itoa d +:+ tail
  | VBool true => "true" +:+ tail
  | VBool false => "false" +:+ tail
  end.

Fixpoint enc_members (l : list (string * Value)) (tail : string) : string :=
  match l with
  | [] => tail
  | (k, v) :: rest =>
      enc_string k (String ":" (enc_value v
        match rest with
        | [] => tail
        | _ :: _ => String "," (enc_members rest tail)
        end))
  end.

Definition Marshal (d : Data) : option string :=
  match d with
  | StructuredData m => Some (String "{" (enc_members (map_to_list m) "}"))
  | RawData b => Some (enc_string b EmptyString)
  end.

(** The decoders give what they read and the text that follows. *)
Fixpoint dec_body (s : string) : option (string * string) :=
  match s with
  | EmptyString => None
  | String c0 t0 =>
      if Ascii.eqb c0 quote then Some (EmptyString, t0)
      else
        match t0 with
        | String c1 (String c2 (String c3 (String h (String l rest)))) =>
            if Ascii.eqb c0 "\" && Ascii.eqb c1 "u"
               && Ascii.eqb c2 "0" && Ascii.eqb c3 "0" then
              match unhex h, unhex l, dec_body rest with
              | Some a, Some b, Some (s', r) =>
                  Some (String (ascii_of_nat (16 * a + b)) s', r)
              | _, _, _ => None
              end
            else None
        | _ => None
        end
  end.

Definition is_num_char (c : ascii) : bool :=
  Regexp.is_digit c || Ascii.eqb c "-".

Fixpoint span_num (s : string) : string * string :=
  match s with
  | EmptyString => (EmptyString, EmptyString)
  | String c s' =>
      if is_num_char c then
        let '(a, b) := span_num s' in (String c a, b)
      else (EmptyString, s)
  end.

Definition dec_value (s : string) : option (JSONValue * string) :=
  match s with
  | EmptyString => None
  | String c t =>
      if Ascii.eqb c quote then
        match dec_body t with
        | Some (v, r) => Some (JString v, r)
        | None => None
        end
      else if is_num_char c then
        let '(n, r) := span_num s in Some (JNumber n, r)
      else if String.prefix "true" s then Some (JBool true, GoString.drop 4 s)
      else if String.prefix "false" s then Some (JBool false, GoString.drop 5 s)
      else None
  end.

Fixpoint dec_members (fuel : nat) (s : string)
  : option (list (string * JSONValue) * string) :=
  match fuel with
  | O => None
  | S fuel' =>
      match s with
      | EmptyString => None
      | String c t =>
          if Ascii.eqb c quote then
            match dec_body t with
            | Some (k, String colon r) =>
                if Ascii.eqb colon ":" then
                  match dec_value r with
                  | Some (v, String sep r') =>
                      if Ascii.eqb sep "," then
                        match dec_members fuel' r' with
                        | Some (l, r'') => Some ((k, v) :: l, r'')
                        | None => None
                        end
                      else if Ascii.eqb sep "}" then Some ([(k, v)], r')
                      else None
                  | _ => None
                  end
                else None
            | _ => None
            end
          else None
      end
  end.

Definition Unmarshal (b : string) : option (gmap string JSONValue) :=
  match b with
  | String c t =>
      if Ascii.eqb c "{" then
        if String.eqb t "}" then Some ∅
        else
          match dec_members (String.length t) t with
          | Some (l, EmptyString) => Some (list_to_map l)
          | _ => None
          end
      else None
  | EmptyString => None
  end.

Definition json_of (v : Value) : JSONValue :=
  match v with
  | VInt n => JNumber (Itoa n)
  | VString s => JString s
  | VTime t => JString (Itoa t)
  | VDuration d => JNumber (Itoa d)
  | VBool b => JBool b
  end.

Definition is_sep (c : ascii) : Prop := c = ","%char \/ c = "}"%char.

Definition member_of (kv : string * Value) : string * JSONValue :=
  (kv.1, json_of kv.2).

End SimpleJSON.

Module Example.

Definition pick (table : list string) (x : Z) : string :=
  nth (Z.to_nat (x mod Z.of_nat (length table))) table EmptyString.

Definition q : string := String SimpleJSON.quote EmptyString.

Definition str (s : string) : string := SimpleJSON.enc_string s EmptyString.
Definition member (name value : string) : string := str name +:+ ":" +:+ value.
Definition object (members : list string) : string :=
  "{" +:+ String.concat "," members +:+ "}".
Definition array (items : list string) : string :=
  "[" +:+ String.concat "," items +:+ "]".

Definition json_name (n : FHIRName) : string :=
  object [member "family" (array (str <$> fhir_Family n));
          member "given" (array (str <$> fhir_Given n))].

Definition json_address (a : FHIRAddress) : string :=
  object [member "line" (array (str <$> fhir_Line a));
          member "city" (str (fhir_City a));
          member "state" (str (fhir_State a));
          member "postalCode" (str (fhir_PostalCode a));
          member "country" (str (fhir_Country a))].

Definition json_patient (p : FHIRPatient) : option string :=
  Some (object [member "id" (str (fhir_ID p));
                member "name" (array (json_name <$> fhir_Name p));
                member "birthDate" (str (fhir_BirthDate p));
                member "gender" (str (fhir_Gender p));
                member "address" (array (json_address <$> fhir_Address p))]).

Definition element (indent name body : string) : string :=
  indent +:+ "<" +:+ name +:+ ">" +:+ body +:+ "</" +:+ name +:+ ">" +:+ newline.

Definition xml_name (n : HL7v3Name) : string :=
  "  <name>" +:+ newline
    +:+ String.concat EmptyString (element "    " "given" <$> v3_Given n)
    +:+ element "    " "family" (v3_Family n)
    +:+ "  </name>" +:+ newline.

Definition xml_addr (a : HL7v3Address) : string :=
  "  <addr>" +:+ newline
    +:+ String.concat EmptyString (element "    " "streetAddressLine" <$> v3_Street a)
    +:+ element "    " "city" (v3_City a)
    +:+ element "    " "state" (v3_State a)
    +:+ element "    " "postalCode" (v3_ZipCode a)
    +:+ "  </addr>" +:+ newline.

Definition xml_patient (p : HL7v3Patient) : option string :=
  Some ("<Patient xmlns=" +:+ q +:+ "urn:hl7-org:v3" +:+ q +:+ ">" +:+ newline
    +:+ element "  " "id" (Itoa (v3_ID p))
    +:+ String.concat EmptyString (xml_name <$> v3_Name p)
    +:+ "  <administrativeGenderCode>" +:+ newline
    +:+ element "    " "code" (v3_Gender p)
    +:+ "  </administrativeGenderCode>" +:+ newline
    +:+ "  <birthTime>" +:+ newline
    +:+ element "    " "value" (v3_BirthTime p)
    +:+ "  </birthTime>" +:+ newline
    +:+ String.concat EmptyString (xml_addr <$> v3_Address p)
    +:+ "</Patient>").

Definition externals : Externals := {|
  rand_NewSource := fun seed i => (seed + 2654435761 * Z.of_nat (S i)) mod 2 ^ 63;
  randomWord_of := pick ["anchor"; "breeze"; "candle"; "delta"; "ember"];
  gofakeit_Name_of := pick ["Ada Byron"; "Grace Hopper"; "Alan Turing"];
  gofakeit_Email_of := pick ["ada@example.com"; "grace@example.org"];
  gofakeit_FirstName_of := pick ["Ada"; "Grace"; "Alan"];
  gofakeit_LastName_of := pick ["Byron"; "Hopper"; "Turing"];
  gofakeit_Street_of := pick ["1 Main Street"; "22 Oak Avenue"];
  gofakeit_City_of := pick ["Springfield"; "Riverton"];
  gofakeit_State_of := pick ["Ohio"; "Texas"];
  gofakeit_Zip_of := pick ["43004"; "73301"];
  time_Format_stamp := fun t => pad0 14 (t / 1000000000);
  json_Marshal := SimpleJSON.Marshal;
  json_Marshal_patient := json_patient;
  json_Unmarshal := SimpleJSON.Unmarshal;
  xml_MarshalIndent := xml_patient
|}.

Definition world : World := {|
  global_rand := mkRand (fun i => 7919 * Z.of_nat i + 104729) 0;
  faker_rand := mkRand (fun i => 31337 * Z.of_nat i + 4242) 0;
  clock := fun k => 1700000000000000000 + 1000 * Z.of_nat k;
  clock_reads := 0;
  files := {[ "payload.txt" := "hello, world" ]};
  file_reads := []
|}.

(** A generator over cached bytes, a field specification, and the
    surroundings after the file was overwritten. *)
Definition generator : baseRecordGenerator string :=
  mkBase "users" [OperationUpdate; OperationDelete] cached "hello, world" 0.

Definition fields : gmap string string :=
  {[ "id" := "int"; "ssn" := "ssn"; "card" := "creditcard" ]}.

Definition bad_fields : gmap string string := {[ "id" := "float" ]}.

Definition world_later : World :=
  mkWorld (global_rand Example.world) (faker_rand Example.world)
          (clock Example.world) 7 {[ "payload.txt" := "overwritten" ]}
          ["payload.txt"].

End Example.

(** ** Payload slots, message segments and masks *)

(** The number of payloads an operation asks for. *)
Definition payload_slots (op : Operation) : Z :=
  match op with
  | OperationUpdate => 2
  | _ => 1
  end.

(** The payloads a record carries, [Before] first. *)
Definition payloads (r : Record_) : list Data :=
  (option_list (Before (Payload r)) ++ option_list (After (Payload r)))%list.

(** Every slot the operation of the record asks for holds a payload
    with the property, and the other slot is empty. *)
Definition slots_hold (P : Data -> Prop) (r : Record_) : Prop :=
  match Operation_ r with
  | OperationSnapshot | OperationCreate =>
      exists d, Payload r = mkChange None (Some d) /\ P d
  | OperationUpdate =>
      exists d1 d2, Payload r = mkChange (Some d1) (Some d2) /\ P d1 /\ P d2
  | OperationDelete =>
      exists d, Payload r = mkChange (Some d) None /\ P d
  end.

(** The string holds no occurrence of the character. *)
Definition free_of (c : ascii) (s : string) : bool :=
  GoString.all (fun x => negb (Ascii.eqb x c)) s.

(** The line break that ends the first segment of a message. *)
Definition nl : ascii := ascii_of_nat 10.

(** The fields of a segment of a message, as the tests of the source
    read them: [strings.Split(strings.Split(message, "\n")[i], "|")]. *)
Definition segment_fields (message : string) (i : nat) : exec (list string) :=
  match GoString.Split message nl !! i with
  | Some segment => Done (GoString.Split segment "|")
  | None => Panic "index out of range"
  end.

(** [pidFields[3]], the patient identity of a message. *)
Definition hl7_PatientID (message : string) : exec string :=
  match segment_fields message 1 with
  | Done pidFields =>
      match pidFields !! 3%nat with
      | Some id => Done id
      | None => Panic "index out of range"
      end
  | Panic reason => Panic reason
  end.

(** The fields of the two segments, in the order of the format string of
    [GenerateHL7Message]. *)
Definition msh_fields (stamp : string) : list string :=
  ["MSH"; "^~\&"; "FHIR_CONVERTER"; "FACILITY"; "HL7_PARSER"; "FACILITY";
   stamp; ""; "ADT^A01"; stamp; "P"; "2.5"; ""].

Definition pid_fields (pid : PIDSegment) : list string :=
  ["PID"; SetID pid; ""; PatientID pid; ""; PatientName pid; "";
   DateOfBirth pid; pid_Gender pid; ""; ""; pid_Address pid;
   ""; ""; ""; ""; ""; PatientID pid].

(** A string with no field separator and no line break. *)
Definition clean (s : string) : bool := free_of "|" s && free_of nl s.

(** What the message format relies on from the libraries: a time stamp
    and the words of gofakeit hold no field separator and no line
    break. *)
Definition stamp_clean (ext : Externals) : Prop :=
  forall t, clean (time_Format_stamp t) = true.

Definition words_clean (ext : Externals) : Prop :=
  forall x,
    clean (gofakeit_FirstName_of x) = true
    /\ clean (gofakeit_LastName_of x) = true
    /\ clean (gofakeit_Street_of x) = true
    /\ clean (gofakeit_City_of x) = true
    /\ clean (gofakeit_State_of x) = true
    /\ clean (gofakeit_Zip_of x) = true.

(** [^\d{4}-\d{2}-\d{2}$], the layout of a birth date. *)
Definition re_birthdate : Regexp.regexp :=
  Regexp.Cat (Regexp.times 4 Regexp.digit)
    (Regexp.Cat (Regexp.chr "-")
       (Regexp.Cat (Regexp.times 2 Regexp.digit)
          (Regexp.Cat (Regexp.chr "-") (Regexp.times 2 Regexp.digit)))).

(** [^\d{14}$], the pattern of the tests for a birth time. *)
Definition re_birthtime : Regexp.regexp := Regexp.times 14 Regexp.digit.

Section Payloads.

Context `{ext : Externals}.

(** The payload function [NewHL7RecordGenerator] gives its generator. *)
Definition hl7_payload : Generator -> M (Data * Generator) :=
  fun generator =>
    '(message, _, generator) ← GenerateHL7Message generator;
    mret (RawData message, generator).

End Payloads.

(** What a document says of its patient. *)
Definition gender_of (d : Document) : string :=
  match d with
  | DocFHIR p => fhir_Gender p
  | DocHL7 _ pid => pid_Gender pid
  | DocHL7v3 _ p => v3_Gender p
  end.

Definition birth_of (d : Document) : string :=
  match d with
  | DocFHIR p => fhir_BirthDate p
  | DocHL7 _ pid => DateOfBirth pid
  | DocHL7v3 _ p => v3_BirthTime p
  end.

(** The words a document takes from gofakeit. *)
Definition words_of (d : Document) : list string :=
  match d with
  | DocFHIR p =>
      ((n ← fhir_Name p; fhir_Family n ++ fhir_Given n)
       ++ (a ← fhir_Address p;
           fhir_Line a ++ [fhir_City a; fhir_State a; fhir_PostalCode a]))%list
  | DocHL7 _ pid => [PatientName pid; pid_Address pid]
  | DocHL7v3 _ p =>
      ((n ← v3_Name p; v3_Given n ++ [v3_Family n])
       ++ (a ← v3_Address p;
           v3_Street a ++ [v3_City a; v3_State a; v3_ZipCode a]))%list
  end.

(** A clock that never runs backwards. *)
Definition clock_monotone (w : World) : Prop :=
  forall i j : nat, (i <= j)%nat -> clock w i <= clock w j.

(** The clock after a call: the same readings to come, and no fewer
    taken. *)
Definition clock_after (w w' : World) : Prop :=
  clock w' = clock w /\ (clock_reads w <= clock_reads w')%nat.

Module Edge.

(** Surroundings whose shared random source gives a multiple of 1000
    next. *)
Definition world_round : World :=
  mkWorld (mkRand (fun i => 1000 * Z.of_nat (S i)) 0) (faker_rand Example.world)
          (clock Example.world) 0 ∅ [].

(** A generator that has returned as many records as an [int] counts. *)
Definition generator_at_max : baseRecordGenerator string :=
  mkBase "users" [OperationCreate] cached "hello, world" max_int.

(** A generator with no operation to choose from. *)
Definition generator_idle : baseRecordGenerator string :=
  mkBase "users" [] cached "hello, world" 0.

(** A field specification with a field of type "time". *)
Definition timed_fields : gmap string string :=
  {[ "at" := "time"; "id" := "int" ]}.

End Edge.

(** * Properties *)

(** ** Strings *)

Module GoStringFacts.
Import GoString.

Lemma append_nil_r (s : string) : s +:+ EmptyString = s.
Proof.
  induction s as [|c s IH]; [done|].
  change (String c (s +:+ EmptyString) = String c s). by rewrite IH.
Qed.

Lemma append_assoc (a b c : string) : (a +:+ b) +:+ c = a +:+ (b +:+ c).
Proof.
  induction a as [|x a IH]; [done|].
  change (String x ((a +:+ b) +:+ c) = String x (a +:+ (b +:+ c))). by rewrite IH.
Qed.

Lemma append_nil_inv (a b : string) :
  a +:+ b = EmptyString -> a = EmptyString /\ b = EmptyString.
Proof. destruct a; [done|discriminate]. Qed.

Lemma length_append (a b : string) :
  String.length (a +:+ b) = (String.length a + String.length b)%nat.
Proof.
  induction a as [|c a IH]; [done|].
  change (S (String.length (a +:+ b)) = S (String.length a + String.length b)).
  by rewrite IH.
Qed.

Lemma take_drop (n : nat) (s : string) : take n s +:+ drop n s = s.
Proof.
  revert s. induction n as [|n IH]; intros [|c s]; try done.
  change (String c (take n s +:+ drop n s) = String c s). by rewrite IH.
Qed.

Lemma length_drop (n : nat) (s : string) :
  String.length (drop n s) = (String.length s - n)%nat.
Proof. revert s. induction n as [|n IH]; intros [|c s]; simpl; auto with lia. Qed.

Lemma all_append (p : ascii -> bool) (a b : string) :
  all p (a +:+ b) = all p a && all p b.
Proof.
  induction a as [|c a IH]; [done|].
  change (p c && all p (a +:+ b) = p c && all p a && all p b).
  rewrite IH. by destruct (p c).
Qed.

(** [Split] cuts at the separators and nowhere else: joining the pieces
    with the separator gives the string back, and no piece holds one. *)
Lemma append_cons (c : ascii) (a b : string) :
  String c a +:+ b = String c (a +:+ b).
Proof. reflexivity. Qed.

Lemma concat_cons (sep x y : string) (l : list string) :
  String.concat sep (x :: y :: l) = x +:+ sep +:+ String.concat sep (y :: l).
Proof. reflexivity. Qed.

Lemma Split_cons (s : string) (sep : ascii) :
  exists p ps, Split s sep = p :: ps.
Proof.
  destruct s as [|c s]; [by eexists _, _|]. cbn [Split].
  destruct (Ascii.eqb c sep); [by eexists _, _|].
  destruct (Split s sep); by eexists _, _.
Qed.

Lemma Split_join (s : string) (sep : ascii) :
  String.concat (String sep EmptyString) (Split s sep) = s.
Proof.
  induction s as [|c s IH]; [done|]. cbn [Split].
  destruct (Split_cons s sep) as (p & ps & E). rewrite E in *.
  destruct (Ascii.eqb_spec c sep) as [->|Hne].
  - rewrite concat_cons, IH. reflexivity.
  - destruct ps as [|p' ps].
    + cbn [String.concat] in *. by rewrite IH.
    + rewrite concat_cons in *. rewrite append_cons. by rewrite IH.
Qed.

End GoStringFacts.

(** ** The matcher decides the language *)

Module RegexpFacts.
Import Regexp.

Lemma nullable_Lang (r : regexp) : nullable r = true <-> Lang r EmptyString.
Proof.
  split.
  - induction r; simpl; intros H; try discriminate.
    + constructor.
    + apply andb_true_iff in H as [H1 H2].
      exact (L_Cat _ _ EmptyString EmptyString (IHr1 H1) (IHr2 H2)).
    + apply orb_true_iff in H as [H|H]; [apply L_AltL|apply L_AltR]; auto.
    + constructor.
  - intros H. remember EmptyString as s eqn:E.
    induction H; simpl; subst; try discriminate; auto.
    + apply GoStringFacts.append_nil_inv in E as [-> ->].
      by rewrite IHLang1, IHLang2.
    + by rewrite IHLang.
    + rewrite IHLang by done. apply orb_true_r.
Qed.

Lemma Lang_deriv (r : regexp) (c : ascii) (s : string) :
  Lang (deriv c r) s -> Lang r (String c s).
Proof.
  revert s. induction r as [| |p|r1 IH1 r2 IH2|r1 IH1 r2 IH2|r IH];
    intros s H; simpl in H.
  - inversion H.
  - inversion H.
  - destruct (p c) eqn:Hp; inversion H; subst. by constructor.
  - assert (forall t, Lang (Cat (deriv c r1) r2) t -> Lang (Cat r1 r2) (String c t))
      as Hcat.
    { intros t Ht. inversion Ht as [| |? ? s1 s2 H1 H2| | | |]; subst.
      exact (L_Cat _ _ (String c s1) s2 (IH1 _ H1) H2). }
    destruct (nullable r1) eqn:Hn; [|by apply Hcat].
    inversion H; subst; [by apply Hcat|].
    apply nullable_Lang in Hn.
    exact (L_Cat _ _ EmptyString (String c s) Hn (IH2 _ ltac:(done))).
  - inversion H; subst; [apply L_AltL|apply L_AltR]; auto.
  - inversion H as [| |? ? s1 s2 H1 H2| | | |]; subst.
    exact (L_StarS _ (String c s1) s2 (IH _ H1) H2).
Qed.

Lemma deriv_Lang (r : regexp) (c : ascii) (s : string) :
  Lang r (String c s) -> Lang (deriv c r) s.
Proof.
  intros H. remember (String c s) as t eqn:E. revert s E.
  induction H as [|p c'|r1 r2 s1 s2 H1 IH1 H2 IH2|r1 r2 t H IH|r1 r2 t H IH
                 | |r s1 s2 H1 IH1 H2 IH2]; intros s E; simpl.
  - discriminate.
  - injection E as ? ?; subst. rewrite H. constructor.
  - destruct s1 as [|x s1].
    + change (s2 = String c s) in E. subst s2.
      apply nullable_Lang in H1. rewrite H1. apply L_AltR. by apply IH2.
    + change (String x (s1 +:+ s2) = String c s) in E. injection E as ? ?; subst.
      assert (Lang (Cat (deriv c r1) r2) (s1 +:+ s2)) as Hc
        by (apply L_Cat; [by apply IH1|done]).
      destruct (nullable r1); [by apply L_AltL|done].
  - apply L_AltL. by apply IH.
  - apply L_AltR. by apply IH.
  - discriminate.
  - destruct s1 as [|x s1].
    + change (s2 = String c s) in E. by apply IH2.
    + change (String x (s1 +:+ s2) = String c s) in E. injection E as ? ?; subst.
      apply L_Cat; [by apply IH1|done].
Qed.

Lemma matches_Lang (r : regexp) (s : string) : matches r s = true <-> Lang r s.
Proof.
  revert r. induction s as [|c s IH]; intros r; simpl.
  - apply nullable_Lang.
  - rewrite IH. split; [apply Lang_deriv|apply deriv_Lang].
Qed.

Lemma Lang_lit (s : string) : Lang (lit s) s.
Proof.
  induction s as [|c s IH]; simpl; [constructor|].
  apply (L_Cat (chr c) (lit s) (String c EmptyString) s); [|done].
  constructor. apply Ascii.eqb_refl.
Qed.

Lemma Lang_times (p : ascii -> bool) (s : string) :
  GoString.all p s = true -> Lang (times (String.length s) (Class p)) s.
Proof.
  induction s as [|c s IH]; simpl; intros H; [constructor|].
  apply andb_true_iff in H as [Hc Hs].
  apply (L_Cat (Class p) _ (String c EmptyString) s); [by constructor|auto].
Qed.

Lemma Lang_Star_all (p : ascii -> bool) (s : string) :
  GoString.all p s = true -> Lang (Star (Class p)) s.
Proof.
  induction s as [|c s IH]; simpl; intros H; [constructor|].
  apply andb_true_iff in H as [Hc Hs].
  apply (L_StarS (Class p) (String c EmptyString) s); [by constructor|auto].
Qed.

End RegexpFacts.

(** ** Decimal strings *)

Module ItoaFacts.

Lemma pretty_N_go_all (p : ascii -> bool) :
  (forall d, p (pretty_N_char d) = true) ->
  forall x s, GoString.all p s = true -> GoString.all p (pretty_N_go x s) = true.
Proof.
  intros Hp x. induction (N.lt_wf_0 x) as [x _ IH]. intros s Hs.
  destruct (decide (x = 0)%N) as [->|Hx]; [by rewrite pretty_N_go_0|].
  rewrite pretty_N_go_step by lia.
  apply IH; [apply N.div_lt; lia|].
  simpl. by rewrite Hp, Hs.
Qed.

Lemma pretty_N_go_cons (x : N) (s : string) :
  s <> EmptyString \/ (0 < x)%N -> exists c t, pretty_N_go x s = String c t.
Proof.
  revert s. induction (N.lt_wf_0 x) as [x _ IH]. intros s Hs.
  destruct (decide (x = 0)%N) as [->|Hx].
  - rewrite pretty_N_go_0. destruct s; [destruct Hs; [done|lia]|eauto].
  - rewrite pretty_N_go_step by lia.
    apply IH; [apply N.div_lt; lia|by left].
Qed.

(** A number below [10^k] has at most [k] digits, a number from [10^k] on
    more than [k]. *)
Lemma pretty_N_go_length_le (k : nat) (x : N) (s : string) :
  (x < pow10 k)%N ->
  (String.length (pretty_N_go x s) <= k + String.length s)%nat.
Proof.
  revert x s. induction k as [|k IH]; intros x s Hx.
  - change (x < 1)%N in Hx. replace x with 0%N by lia. rewrite pretty_N_go_0. lia.
  - change (x < 10 * pow10 k)%N in Hx. revert Hx. intros Hx.
    destruct (decide (x = 0)%N) as [->|Hx0]; [rewrite pretty_N_go_0; lia|].
    rewrite pretty_N_go_step by lia.
    etrans; [apply IH; apply N.Div0.div_lt_upper_bound; lia|]. simpl. lia.
Qed.

Lemma pretty_N_go_length_mono (x : N) (s : string) :
  (String.length s <= String.length (pretty_N_go x s))%nat.
Proof.
  revert s. induction (N.lt_wf_0 x) as [x _ IH]. intros s.
  destruct (decide (x = 0)%N) as [->|Hx]; [by rewrite pretty_N_go_0|].
  rewrite pretty_N_go_step by lia.
  etrans; [|apply IH, N.div_lt; lia]. simpl. lia.
Qed.

Lemma pretty_N_go_length_ge (k : nat) (x : N) (s : string) :
  (pow10 k <= x)%N ->
  (S k + String.length s <= String.length (pretty_N_go x s))%nat.
Proof.
  assert (forall j, (0 < pow10 j)%N) as Hpos
    by (intros j; induction j as [|j IHj];
        [done|change (0 < 10 * pow10 j)%N; lia]).
  revert x s. induction k as [|k IH]; intros x s Hx.
  - change (1 <= x)%N in Hx. rewrite pretty_N_go_step by lia.
    etrans; [|apply pretty_N_go_length_mono]. simpl. lia.
  - change (10 * pow10 k <= x)%N in Hx. pose proof (Hpos k).
    rewrite pretty_N_go_step by lia.
    etrans; [|apply IH; apply N.div_le_lower_bound; lia]. simpl. lia.
Qed.

Lemma Itoa_pos (n : Z) : 0 < n -> Itoa n = pretty_N_go (Z.to_N n) EmptyString.
Proof.
  destruct n as [|q|q]; try lia. intros _.
  unfold Itoa, pretty, pretty_Z, pretty, pretty_positive, pretty, pretty_N.
  by case_decide.
Qed.

Lemma pretty_N_char_digit (d : N) : Regexp.is_digit (pretty_N_char d) = true.
Proof. unfold pretty_N_char. by repeat case_match. Qed.

(** The decimal string of a number of [[0, 10^k)] is at most [k] digits
    and nothing else, for positive [k]. *)
Lemma Itoa_digits (k : nat) (n : Z) :
  (0 < k)%nat -> 0 <= n < Z.of_N (pow10 k) ->
  GoString.all Regexp.is_digit (Itoa n) = true
  /\ (String.length (Itoa n) <= k)%nat.
Proof.
  intros Hk Hn. destruct (decide (n = 0)) as [->|Hn0]; [split; [done|simpl; lia]|].
  rewrite Itoa_pos by lia. split.
  - by apply pretty_N_go_all; [apply pretty_N_char_digit|].
  - etrans; [apply (pretty_N_go_length_le k); lia|simpl; lia].
Qed.

Lemma Itoa_length_ge (k : nat) (n : Z) :
  Z.of_N (pow10 k) <= n -> (S k <= String.length (Itoa n))%nat.
Proof.
  intros Hn. assert (0 < Z.of_N (pow10 k))
    by (clear Hn; induction k as [|k IHk];
        [done|change (0 < Z.of_N (10 * pow10 k)); lia]).
  rewrite Itoa_pos by lia.
  etrans; [|apply (pretty_N_go_length_ge k); lia]. lia.
Qed.

Lemma all_repeat (p : ascii -> bool) (c : ascii) (n : nat) :
  p c = true -> GoString.all p (GoString.repeat c n) = true.
Proof. intros Hc. induction n as [|n IH]; [done|]. simpl. by rewrite Hc, IH. Qed.

Lemma length_repeat (c : ascii) (n : nat) :
  String.length (GoString.repeat c n) = n.
Proof. induction n as [|n IH]; [done|]. simpl. by rewrite IH. Qed.

(** [%04d] of a number of [[0,9999]] is four digits. *)
Lemma pad0_4_digits (n : Z) : 0 <= n <= 9999 -> four_digits (pad0 4 n) = true.
Proof.
  intros Hn. destruct (Itoa_digits 4 n) as [Hall Hlen]; [lia|simpl; lia|].
  unfold four_digits, pad0. destruct (n <? 0) eqn:E; [apply Z.ltb_lt in E; lia|].
  rewrite GoStringFacts.length_append, GoStringFacts.all_append, length_repeat,
    all_repeat, Hall by done.
  apply andb_true_iff. split; [apply Nat.eqb_eq; lia|done].
Qed.

(** [%d] of a number of [[1000,9999]] is four digits. *)
Lemma Itoa_4_digits (n : Z) : 1000 <= n <= 9999 -> four_digits (Itoa n) = true.
Proof.
  intros Hn. destruct (Itoa_digits 4 n) as [Hall Hlen]; [lia|simpl; lia|].
  pose proof (Itoa_length_ge 3 n ltac:(simpl; lia)).
  unfold four_digits. rewrite Hall.
  apply andb_true_iff. split; [apply Nat.eqb_eq; lia|done].
Qed.

End ItoaFacts.

(** ** The example codec reads back what it wrote *)

Module SimpleJSONFacts.
Import SimpleJSON.

Lemma unhex_hex_of (c : ascii) :
  unhex (hex_of (nat_of_ascii c / 16)) = Some (nat_of_ascii c / 16)%nat
  /\ unhex (hex_of (nat_of_ascii c mod 16)) = Some (nat_of_ascii c mod 16)%nat
  /\ ascii_of_nat (16 * (nat_of_ascii c / 16) + nat_of_ascii c mod 16) = c.
Proof.
  destruct c as [[] [] [] [] [] [] [] []]; vm_compute; auto.
Qed.

Lemma dec_body_escape (k r : string) :
  dec_body (escape k (String quote r)) = Some (k, r).
Proof.
  induction k as [|c k IH]; [reflexivity|].
  destruct (unhex_hex_of c) as (Hh & Hl & Hc).
  cbn [escape dec_body]. rewrite Hh, Hl, IH, Hc. reflexivity.
Qed.

Lemma span_num_append (a : string) (c : ascii) (r : string) :
  GoString.all is_num_char a = true -> is_num_char c = false ->
  span_num (a +:+ String c r) = (a, String c r).
Proof.
  intros Ha Hc. induction a as [|x a IH]; simpl in *.
  - rewrite Hc. reflexivity.
  - apply andb_true_iff in Ha as [Hx Ha]. rewrite Hx, (IH Ha). reflexivity.
Qed.

Lemma pretty_N_char_num (d : N) : is_num_char (pretty_N_char d) = true.
Proof. unfold pretty_N_char. by repeat case_match. Qed.

Lemma Itoa_num (n : Z) : GoString.all is_num_char (Itoa n) = true.
Proof.
  assert (forall q : positive, GoString.all is_num_char (pretty q) = true) as Hpos.
  { intros q. unfold pretty, pretty_positive, pretty, pretty_N.
    case_decide; [done|]. by apply ItoaFacts.pretty_N_go_all; [apply pretty_N_char_num|]. }
  unfold Itoa, pretty, pretty_Z. destruct n as [|q|q]; [done|apply Hpos|].
  simpl. apply Hpos.
Qed.

Lemma Itoa_cons (n : Z) : exists c t, Itoa n = String c t.
Proof.
  assert (forall q : positive, exists c t, @pretty positive _ q = String c t) as Hpos.
  { intros q. unfold pretty, pretty_positive, pretty, pretty_N.
    case_decide; [lia|]. apply ItoaFacts.pretty_N_go_cons. right. lia. }
  unfold Itoa, pretty, pretty_Z. destruct n as [|q|q]; [by eauto|apply Hpos|].
  simpl. eauto.
Qed.

Lemma dec_value_number (n : Z) (sep : ascii) (r : string) :
  is_sep sep ->
  dec_value (Itoa n +:+ String sep r) = Some (JNumber (Itoa n), String sep r).
Proof.
  intros Hsep.
  assert (is_num_char sep = false) as Hs by (by destruct Hsep as [->| ->]).
  pose proof (Itoa_num n) as Hall.
  pose proof (span_num_append (Itoa n) sep r Hall Hs) as Hspan.
  destruct (Itoa_cons n) as (c & t & Hn). rewrite Hn in *.
  cbn [GoString.all] in Hall. apply andb_true_iff in Hall as [Hc _].
  unfold dec_value.
  change (String c t +:+ String sep r) with (String c (t +:+ String sep r)) in *.
  cbv beta iota.
  destruct (Ascii.eqb_spec c quote) as [->|_]; [done|].
  rewrite Hc, Hspan. reflexivity.
Qed.

Lemma dec_value_enc (v : Value) (sep : ascii) (r : string) :
  is_sep sep ->
  dec_value (enc_value v (String sep r)) = Some (json_of v, String sep r).
Proof.
  intros Hsep. destruct v as [n|s|t|d|[]]; cbn [enc_value json_of].
  - by apply dec_value_number.
  - unfold enc_string. cbn [dec_value]. rewrite Ascii.eqb_refl.
    by rewrite dec_body_escape.
  - unfold enc_string. cbn [dec_value]. rewrite Ascii.eqb_refl.
    by rewrite dec_body_escape.
  - by apply dec_value_number.
  - reflexivity.
  - reflexivity.
Qed.

Lemma dec_members_enc (l : list (string * Value)) (fuel : nat) (r : string) :
  l <> [] -> (length l <= fuel)%nat ->
  dec_members fuel (enc_members l (String "}" r)) = Some (member_of <$> l, r).
Proof.
  revert fuel. induction l as [|[k v] l IH]; intros fuel Hne Hfuel; [done|].
  destruct fuel as [|fuel]; [simpl in Hfuel; lia|].
  cbn [enc_members dec_members]. unfold enc_string at 1.
  rewrite Ascii.eqb_refl, dec_body_escape.
  cbn [Ascii.eqb Bool.eqb]. destruct l as [|kv l].
  - rewrite dec_value_enc by (by right). reflexivity.
  - rewrite dec_value_enc by (by left). cbn [Ascii.eqb Bool.eqb].
    rewrite IH by (simpl in *; first [done | lia]). reflexivity.
Qed.

Lemma enc_members_length (l : list (string * Value)) (tail : string) :
  (length l <= String.length (enc_members l tail))%nat.
Proof.
  induction l as [|[k v] l IH]; [simpl; lia|].
  cbn [enc_members]. unfold enc_string. cbn [String.length length].
  assert (forall s t, String.length t <= String.length (escape s t))%nat as Hesc.
  { intros s t. induction s; simpl; lia. }
  assert (forall t, String.length t <= String.length (enc_value v t))%nat as Hval.
  { intros t. destruct v as [n|s|n|n|[]]; cbn [enc_value]; unfold enc_string;
      rewrite ?GoStringFacts.length_append; simpl;
      try (pose proof (Hesc s (String quote t)); simpl in *; lia);
      try (pose proof (Hesc (Itoa n) (String quote t)); simpl in *; lia); lia. }
  set (X := match l with [] => tail | _ :: _ => String "," (enc_members l tail) end).
  assert (length l <= String.length X)%nat as HX.
  { subst X. destruct l; [simpl; lia|]. cbn [String.length]. lia. }
  pose proof (Hesc k (String quote (String ":" (enc_value v X)))) as H1.
  pose proof (Hval X) as H2.
  cbn [String.length] in H1. lia.
Qed.

Lemma Unmarshal_Marshal : reads_back_names Example.externals.
Proof.
  intros m b.
  change (Marshal (StructuredData m) = Some b ->
          exists j, Unmarshal b = Some j /\ dom j = dom m).
  intros [= <-]. unfold Unmarshal. cbn [Ascii.eqb Bool.eqb].
  destruct (map_to_list m) as [|kv l] eqn:Hl.
  - apply map_to_list_empty_iff in Hl as ->. exists ∅. by rewrite !dom_empty_L.
  - assert (String.eqb (enc_members (kv :: l) "}") "}" = false) as ->.
    { destruct kv as [k v]. reflexivity. }
    rewrite dec_members_enc by (first [done | apply enc_members_length]).
    eexists. split; [done|].
    rewrite dom_list_to_map_L, <- Hl, <- list_fmap_compose.
    apply leibniz_equiv. symmetry. apply dom_alt.
Qed.

End SimpleJSONFacts.

(** ** The obfuscator *)

Module ObfuscatorFacts.
Import GoString Obfuscator.

Lemma slice_from_tail (s : string) :
  (4 <= String.length s)%nat ->
  slice_from s (len s - 4) = Done (drop (String.length s - 4) s).
Proof.
  intros H. unfold slice_from, len.
  replace ((0 <=? Z.of_nat (String.length s) - 4)
           && (Z.of_nat (String.length s) - 4 <=? Z.of_nat (String.length s)))
    with true by (symmetry; apply andb_true_iff; split; apply Z.leb_le; lia).
  do 2 f_equal. lia.
Qed.

Lemma slice_from_short (s : string) :
  (String.length s < 4)%nat ->
  slice_from s (len s - 4) = Panic "slice bounds out of range".
Proof.
  intros H. unfold slice_from, len.
  replace (0 <=? Z.of_nat (String.length s) - 4) with false; [done|].
  symmetry. apply Z.leb_gt. lia.
Qed.

(** C10: [ObfuscateSSN] masks an input of three dash-separated parts by
    keeping the third part, masks every other input of four or more
    characters by keeping its last four, and aborts on every other input
    of fewer than four characters, the empty string among them. *)
Theorem ObfuscateSSN_partial :
  (forall ssn p0 p1 p2 : string,
      Split ssn "-" = [p0; p1; p2] ->
      ObfuscateSSN ssn = Done ("XXX-XX-" +:+ p2))
  /\ (forall ssn : string,
        length (Split ssn "-") <> 3%nat -> (4 <= String.length ssn)%nat ->
        exists front last4,
          ssn = front +:+ last4 /\ String.length last4 = 4%nat
          /\ ObfuscateSSN ssn = Done ("XXX-XX-" +:+ last4))
  /\ (forall ssn : string,
        length (Split ssn "-") <> 3%nat -> (String.length ssn < 4)%nat ->
        ObfuscateSSN ssn = Panic "slice bounds out of range")
  /\ ObfuscateSSN "" = Panic "slice bounds out of range".
Proof.
  repeat split.
  - intros ssn p0 p1 p2 E. unfold ObfuscateSSN. by rewrite E.
  - intros ssn Hparts Hlen. unfold ObfuscateSSN.
    apply Nat.eqb_neq in Hparts. rewrite Hparts. cbn [negb].
    rewrite slice_from_tail by done.
    exists (take (String.length ssn - 4) ssn), (drop (String.length ssn - 4) ssn).
    split; [by rewrite GoStringFacts.take_drop|].
    split; [rewrite GoStringFacts.length_drop; lia|done].
  - intros ssn Hparts Hlen. unfold ObfuscateSSN.
    apply Nat.eqb_neq in Hparts. rewrite Hparts. cbn [negb].
    by rewrite slice_from_short.
Qed.

Lemma ObfuscateSSN_partial_witness :
  ObfuscateSSN "123-45-6789" = Done "XXX-XX-6789"
  /\ (exists front last4,
        "123456789" = front +:+ last4 /\ String.length last4 = 4%nat
        /\ ObfuscateSSN "123456789" = Done ("XXX-XX-" +:+ last4))
  /\ ObfuscateSSN "1-2" = Panic "slice bounds out of range".
Proof.
  destruct ObfuscateSSN_partial as (H3 & Hlong & Hshort & _).
  split; [|split].
  - apply (H3 "123-45-6789" "123" "45" "6789"). reflexivity.
  - apply (Hlong "123456789"); [vm_compute; lia|vm_compute; lia].
  - apply (Hshort "1-2"); [vm_compute; lia|vm_compute; lia].
Defined.

End ObfuscatorFacts.

(** ** Integers *)

Module IntFacts.

Lemma wrap_int_id (z : Z) : min_int <= z <= max_int -> wrap_int z = z.
Proof.
  unfold wrap_int, min_int, max_int. intros H.
  rewrite Z.mod_small by lia. lia.
Qed.

Lemma wrap_int_range (z : Z) : min_int <= wrap_int z <= max_int.
Proof.
  unfold wrap_int, min_int, max_int.
  pose proof (Z.mod_pos_bound (z + 2 ^ 63) (2 ^ 64)). lia.
Qed.

Lemma Itoa_inj (a b : Z) : Itoa a = Itoa b -> a = b.
Proof. apply pretty_Z_inj. Qed.

End IntFacts.

(** ** The record generator *)

Ltac run_M := unfold mbind, M_bind, mret, M_ret, panic in *.

Section RecordGenerator.

Context `{ext : Externals}.

(** What a call of [Next] that returned has done. *)
Lemma Next_inv {C : Type} (g : baseRecordGenerator C) (w w' : World)
    (r : Record_) (g' : baseRecordGenerator C) :
  Next g w = Done ((r, g'), w') ->
  exists (now : Z) (w1 : World) (i : Z) (w2 : World) (word : string) (w3 : World),
    time_Now w = Done (now, w1)
    /\ rand_Intn (Z.of_nat (length (operations g))) w1 = Done (i, w2)
    /\ operations g !! Z.to_nat i = Some (Operation_ r)
    /\ randomWord w2 = Done (word, w3)
    /\ Position r = Itoa (wrap_int (count g + 1))
    /\ Key r = RawData word
    /\ collection g' = collection g
    /\ operations g' = operations g
    /\ generateData g' = generateData g
    /\ count g' = wrap_int (count g + 1)
    /\ match Operation_ r with
       | OperationSnapshot | OperationCreate =>
           exists d,
             generateData g (captured g) w3 = Done ((d, captured g'), w')
             /\ Payload r = mkChange None (Some d)
       | OperationUpdate =>
           exists d1 c1 w4 d2,
             generateData g (captured g) w3 = Done ((d1, c1), w4)
             /\ generateData g c1 w4 = Done ((d2, captured g'), w')
             /\ Payload r = mkChange (Some d1) (Some d2)
       | OperationDelete =>
           exists d,
             generateData g (captured g) w3 = Done ((d, captured g'), w')
             /\ Payload r = mkChange (Some d) None
       end.
Proof.
  intros H. unfold Next in H. run_M.
  destruct (time_Now w) as [[now w1]|] eqn:Enow; [|done].
  destruct (rand_Intn _ w1) as [[i w2]|] eqn:Ei; [|done].
  destruct (operations g !! Z.to_nat i) as [op|] eqn:Eop; [|done].
  destruct (randomWord w2) as [[word w3]|] eqn:Eword; [|done].
  exists now, w1, i, w2, word, w3.
  destruct op; repeat (case_match; simplify_eq/=); repeat split; eauto 10.
Qed.

(** C1: a record that [Next] returned has exactly the payload slots
    of its operation: only [After] for a snapshot or a create, both for
    an update, only [Before] for a delete. *)
Theorem Next_slots_match {C : Type} (g : baseRecordGenerator C) (w w' : World)
    (r : Record_) (g' : baseRecordGenerator C) :
  Next g w = Done ((r, g'), w') -> slots_match r.
Proof.
  intros H. apply Next_inv in H as (now & w1 & i & w2 & word & w3 & H).
  destruct H as (_ & _ & _ & _ & _ & _ & _ & _ & _ & _ & H).
  unfold slots_match.
  destruct (Operation_ r); [destruct H as (d & _ & ->)
                           |destruct H as (d1 & c1 & w4 & d2 & _ & _ & ->)
                           |destruct H as (d & _ & ->)
                           |destruct H as (d & _ & ->)]; simpl; eauto.
Qed.

Lemma Next_n_inv {C : Type} (n : nat) (g : baseRecordGenerator C) (w w' : World)
    (rs : list Record_) (g' : baseRecordGenerator C) :
  Next_n (S n) g w = Done ((rs, g'), w') ->
  exists r g1 w1 rs',
    Next g w = Done ((r, g1), w1)
    /\ Next_n n g1 w1 = Done ((rs', g'), w') /\ rs = r :: rs'.
Proof.
  cbn [Next_n]. run_M. intros H.
  destruct (Next g w) as [[[r g1] w1]|]; [|done].
  destruct (Next_n n g1 w1) as [[[rs' g2] w2]|] eqn:E; [|done].
  simplify_eq. by exists r, g1, w1, rs'.
Qed.

Lemma Next_n_positions_from {C : Type} (n : nat) (g : baseRecordGenerator C)
    (w w' : World) (rs : list Record_) (g' : baseRecordGenerator C) :
  Next_n n g w = Done ((rs, g'), w') ->
  0 <= count g -> count g + Z.of_nat n <= max_int ->
  length rs = n
  /\ forall (i : nat) (r : Record_),
       rs !! i = Some r -> Position r = Itoa (count g + Z.of_nat (S i)).
Proof.
  revert g w rs. induction n as [|n IH]; intros g w rs H H0 Hmax.
  - cbn in H. run_M. simplify_eq. split; [done|]. intros i r Hi. done.
  - apply Next_n_inv in H as (r & g1 & w1 & rs' & HN & Hrest & ->).
    apply Next_inv in HN as (? & ? & ? & ? & ? & ? & HN).
    destruct HN as (_ & _ & _ & _ & Hpos & _ & _ & _ & _ & Hcount & _).
    rewrite IntFacts.wrap_int_id in Hpos, Hcount by (unfold min_int; lia).
    apply IH in Hrest as [Hlen Hrs]; [|lia..].
    split; [simpl; lia|].
    intros [|i] r' Hi; simplify_eq/=.
    + rewrite Hpos. f_equal; lia.
    + rewrite (Hrs i r' Hi), Hcount. f_equal; lia.
Qed.

(** C8: on a fresh generator, the position of the [n]-th record that
    [Next] returns is the decimal string of [n], counted from 1; no two
    records of the run carry the same position.  ([n] is counted in
    Go's [int].) *)
Theorem Next_n_positions {C : Type} (n : nat) (g : baseRecordGenerator C)
    (w w' : World) (rs : list Record_) (g' : baseRecordGenerator C) :
  count g = 0 -> Z.of_nat n <= max_int ->
  Next_n n g w = Done ((rs, g'), w') ->
  length rs = n
  /\ (forall (i : nat) (r : Record_),
        rs !! i = Some r -> Position r = Itoa (Z.of_nat (S i)))
  /\ (forall (i j : nat) (r r' : Record_),
        rs !! i = Some r -> rs !! j = Some r' ->
        Position r = Position r' -> i = j).
Proof.
  intros Hc Hn H.
  apply Next_n_positions_from in H as [Hlen Hpos]; [|lia..].
  rewrite Hc in Hpos.
  split; [done|]. split; [intros i r Hi; by rewrite (Hpos i r Hi)|].
  intros i j r r' Hi Hj E.
  rewrite (Hpos i r Hi), (Hpos j r' Hj) in E.
  apply IntFacts.Itoa_inj in E. lia.
Qed.

End RecordGenerator.

(** ** The file-backed generator *)

Section FileGenerator.

Context `{ext : Externals}.

(** Reading the clock and the random sources leaves the files alone. *)
Lemma time_Now_files (w w' : World) (t : Z) :
  time_Now w = Done (t, w') -> file_reads w' = file_reads w.
Proof. unfold time_Now. by intros [= _ <-]. Qed.

Lemma rand_Intn_files (n : Z) (w w' : World) (x : Z) :
  rand_Intn n w = Done (x, w') -> file_reads w' = file_reads w.
Proof.
  unfold rand_Intn, Rand_Intn. destruct (n <=? 0); [done|].
  by intros [= _ <-].
Qed.

Lemma randomWord_files (w w' : World) (s : string) :
  randomWord w = Done (s, w') -> file_reads w' = file_reads w.
Proof. unfold randomWord, rand_Int. run_M. by intros [= _ <-]. Qed.

Lemma rand_Intn_returns (n : Z) (w : World) :
  0 < n -> exists x w', rand_Intn n w = Done (x, w') /\ 0 <= x < n.
Proof.
  intros Hn. unfold rand_Intn, Rand_Intn.
  destruct (n <=? 0) eqn:E; [apply Z.leb_le in E; lia|].
  eexists _, _. split; [done|]. by apply Z.mod_pos_bound.
Qed.

(** [Next] returns whenever there is an operation to choose and the
    payload function returns. *)
Lemma Next_returns {C : Type} (g : baseRecordGenerator C) (w : World) :
  operations g <> [] ->
  (forall c w1, exists d c' w2, generateData g c w1 = Done ((d, c'), w2)) ->
  exists r g' w', Next g w = Done ((r, g'), w').
Proof.
  intros Hops Hgen. unfold Next. run_M. cbn [time_Now].
  set (w1 := mkWorld _ _ _ _ _ _).
  destruct (rand_Intn_returns (Z.of_nat (length (operations g))) w1)
    as (i & w2 & -> & Hi); [destruct (operations g); [done|simpl; lia]|].
  destruct (lookup_lt_is_Some_2 (operations g) (Z.to_nat i)) as [op ->]; [lia|].
  unfold randomWord, rand_Int. run_M. cbn.
  set (w3 := set_global_rand _ _).
  destruct op.
  - destruct (Hgen (captured g) w3) as (d & c & w4 & ->). by eexists _, _, _.
  - destruct (Hgen (captured g) w3) as (d & c & w4 & ->).
    destruct (Hgen c w4) as (d' & c' & w5 & ->). by eexists _, _, _.
  - destruct (Hgen (captured g) w3) as (d & c & w4 & ->). by eexists _, _, _.
  - destruct (Hgen (captured g) w3) as (d & c & w4 & ->). by eexists _, _, _.
Qed.

Lemma Next_n_returns {C : Type} (n : nat) (g : baseRecordGenerator C) (w : World) :
  operations g <> [] ->
  (forall c w1, exists d c' w2, generateData g c w1 = Done ((d, c'), w2)) ->
  exists rs g' w', Next_n n g w = Done ((rs, g'), w').
Proof.
  revert g w. induction n as [|n IH]; intros g w Hops Hgen.
  - by eexists _, _, _.
  - destruct (Next_returns g w Hops Hgen) as (r & g1 & w1 & HN).
    cbn [Next_n]. run_M. rewrite HN.
    apply Next_inv in HN as (? & ? & ? & ? & ? & ? & HN).
    destruct HN as (_ & _ & _ & _ & _ & _ & _ & Hops' & Hgen' & _).
    destruct (IH g1 w1) as (rs & g2 & w2 & ->);
      [by rewrite Hops'|by rewrite Hgen'|].
    by eexists _, _, _.
Qed.

Lemma cached_Next_n (n : nat) (g : baseRecordGenerator string) (w w' : World)
    (rs : list Record_) (g' : baseRecordGenerator string) :
  generateData g = cached ->
  Next_n n g w = Done ((rs, g'), w') ->
  length rs = n
  /\ file_reads w' = file_reads w
  /\ forall r, r ∈ rs -> carries (RawData (captured g)) r.
Proof.
  revert g w rs. induction n as [|n IH]; intros g w rs Hgen H.
  - cbn in H. run_M. simplify_eq. split; [done|]. split; [done|].
    intros r Hr. by apply elem_of_nil in Hr.
  - apply Next_n_inv in H as (r & g1 & w1 & rs' & HN & Hrest & ->).
    apply Next_inv in HN as (t & wa & i & wb & word & wc & HN).
    destruct HN as (Ht & Hi & _ & Hw & _ & _ & _ & _ & Hgen' & _ & Hop).
    apply time_Now_files in Ht. apply rand_Intn_files in Hi.
    apply randomWord_files in Hw.
    assert (captured g1 = captured g /\ w1 = wc /\ carries (RawData (captured g)) r)
      as (Hcap & -> & Hr).
    { rewrite Hgen in Hop. unfold cached, carries, mret, M_ret in Hop |- *.
      destruct (Operation_ r);
        [destruct Hop as (d & Hd & ->)
        |destruct Hop as (d1 & c1 & w4 & d2 & Hd1 & Hd2 & ->)
        |destruct Hop as (d & Hd & ->)
        |destruct Hop as (d & Hd & ->)];
        simplify_eq; repeat split; congruence. }
    apply IH in Hrest as (Hlen & Hreads & Hrs); [|by rewrite Hgen'].
    split; [simpl; lia|]. split; [congruence|].
    intros r' [->|Hr']%elem_of_cons; [done|].
    rewrite <- Hcap. by apply Hrs.
Qed.

(** C9: [NewFileRecordGenerator] reads the file once; when the file
    cannot be read it returns an error and no generator; otherwise every
    later call of [Next] returns a record, reads no file, and the record
    carries, in every payload slot of its operation, the bytes the file
    had when the generator was made, whatever the files hold by then. *)
Theorem NewFileRecordGenerator_cached (collection : string)
    (operations : list Operation) (path : string) (w : World) :
  match files w !! path with
  | None =>
      exists e w1,
        NewFileRecordGenerator collection operations path w = Done (Err e, w1)
        /\ file_reads w1 = (file_reads w ++ [path])%list
  | Some content =>
      exists g w1,
        NewFileRecordGenerator collection operations path w = Done (Ok g, w1)
        /\ file_reads w1 = (file_reads w ++ [path])%list
        /\ forall (n : nat) (w2 : World),
             (operations <> [] ->
              exists rs g' w3, Next_n n g w2 = Done ((rs, g'), w3))
             /\ forall rs g' w3,
                  Next_n n g w2 = Done ((rs, g'), w3) ->
                  length rs = n
                  /\ file_reads w3 = file_reads w2
                  /\ forall r, r ∈ rs -> carries (RawData content) r
  end.
Proof.
  unfold NewFileRecordGenerator, os_ReadFile. run_M.
  destruct (files w !! path) as [content|] eqn:E.
  - eexists _, _. split; [done|]. split; [done|].
    intros n w2. split.
    + intros Hops. apply Next_n_returns; [done|].
      intros c w1. by eexists _, _, _.
    + intros rs g' w3 H. by apply cached_Next_n in H.
  - by eexists _, _.
Qed.

End FileGenerator.

(** ** The shapes of formatted values *)

Module ShapeFacts.
Import Regexp.

Lemma byte_table :
  forallb (fun k =>
             let b := Z.of_nat k in
             in_byte (Z.lor (Z.land b 15) 64)
             && in_byte (Z.lor (Z.land b 191) 128)
             && is_uuid_char (hex_digit (Z.shiftr b 4))
             && is_uuid_char (hex_digit (Z.land b 15)))
          (seq 0 (Z.to_nat 256)) = true.
Proof. vm_compute. reflexivity. Qed.

Lemma table_lookup (f : nat -> bool) (len : nat) (n : Z) :
  forallb f (seq 0 len) = true -> 0 <= n < Z.of_nat len -> f (Z.to_nat n) = true.
Proof.
  intros H Hn. rewrite forallb_forall in H. apply H, in_seq. lia.
Qed.

Lemma byte_facts (b : Z) :
  in_byte b = true ->
  in_byte (Z.lor (Z.land b 15) 64) = true
  /\ in_byte (Z.lor (Z.land b 191) 128) = true
  /\ is_uuid_char (hex_digit (Z.shiftr b 4)) = true
  /\ is_uuid_char (hex_digit (Z.land b 15)) = true.
Proof.
  intros Hb. unfold in_byte in Hb. apply andb_true_iff in Hb as [H0 H1].
  apply Z.leb_le in H0. apply Z.ltb_lt in H1.
  pose proof (table_lookup _ _ b byte_table) as H.
  cbv beta zeta in H. rewrite (Z2Nat.id b) in H by lia.
  specialize (H ltac:(lia)).
  apply andb_true_iff in H as [H Hd]. apply andb_true_iff in H as [H Hc].
  apply andb_true_iff in H as [Ha Hb]. done.
Qed.

Lemma hex_encode_uuid (bs : list Z) :
  Forall (fun b => in_byte b = true) bs ->
  GoString.all is_uuid_char (hex_encode bs) = true
  /\ String.length (hex_encode bs) = (2 * length bs)%nat.
Proof.
  induction 1 as [|b bs Hb _ [IHall IHlen]]; [done|].
  destruct (byte_facts b Hb) as (_ & _ & Hhi & Hlo).
  cbn [hex_encode GoString.all String.length length].
  rewrite Hhi, Hlo, IHall, IHlen. split; [done|lia].
Qed.

Lemma matches_prefix_digits (prefix d : string) :
  four_digits d = true ->
  matches (Cat (lit prefix) (times 4 digit)) (prefix +:+ d) = true.
Proof.
  intros H. apply andb_true_iff in H as [Hlen Hall].
  apply Nat.eqb_eq in Hlen.
  apply RegexpFacts.matches_Lang, L_Cat; [apply RegexpFacts.Lang_lit|].
  rewrite <- Hlen. by apply RegexpFacts.Lang_times.
Qed.

Lemma matches_creditcard (d : string) :
  four_digits d = true ->
  matches re_creditcard ("XXXXXXXXXXXX" +:+ d) = true
  /\ matches (Cat (times 12 (chr "X")) (times 4 digit)) ("XXXXXXXXXXXX" +:+ d) = true.
Proof.
  intros H. apply andb_true_iff in H as [Hlen Hall].
  apply Nat.eqb_eq in Hlen.
  assert (Lang (times 4 digit) d) as Hd
    by (rewrite <- Hlen; by apply RegexpFacts.Lang_times).
  split; apply RegexpFacts.matches_Lang, L_Cat; try done.
  - by apply RegexpFacts.matches_Lang.
  - by apply RegexpFacts.matches_Lang.
Qed.

Lemma matches_ordernumber (u : string) :
  String.length u = 36%nat -> GoString.all is_uuid_char u = true ->
  matches re_ordernumber ("ORD-" +:+ u) = true.
Proof.
  intros Hlen Hall.
  apply RegexpFacts.matches_Lang, L_Cat; [apply RegexpFacts.Lang_lit|].
  rewrite <- Hlen. by apply RegexpFacts.Lang_times.
Qed.

End ShapeFacts.

(** ** Payloads from a field specification *)

Section FieldSpecification.

Context `{ext : Externals}.

(** *** Unknown types *)

Lemma fieldValue_unknown (field typ : string) (w : World) :
  typ ∉ KnownTypes -> exists reason, fieldValue field typ w = Panic reason.
Proof.
  intros H. unfold fieldValue.
  repeat match goal with
         | |- context [String.eqb typ ?s] =>
             destruct (String.eqb_spec typ s) as [->|_];
             [exfalso; apply H; unfold KnownTypes; repeat constructor|]
         end.
  unfold panic. by eexists.
Qed.

Lemma rangeFields_unknown (kvs : list (string * string)) (field typ : string) :
  (field, typ) ∈ kvs -> typ ∉ KnownTypes ->
  forall data w, exists reason, rangeFields kvs data w = Panic reason.
Proof.
  intros Hin Hty. induction kvs as [|[f t] kvs IH]; intros data w.
  - by apply elem_of_nil in Hin.
  - cbn [rangeFields]. run_M.
    apply elem_of_cons in Hin as [[= <- <-]|Hin].
    + destruct (fieldValue_unknown field typ w Hty) as [reason ->]. by eexists.
    + destruct (fieldValue f t w) as [[v w1]|reason]; [by apply IH|by eexists].
Qed.

Lemma randomStructuredData_unknown (fields : gmap string string)
    (field typ : string) (w : World) :
  fields !! field = Some typ -> typ ∉ KnownTypes ->
  exists reason, randomStructuredData fields w = Panic reason.
Proof.
  intros Hf Hty. unfold randomStructuredData. run_M.
  apply elem_of_map_to_list in Hf.
  destruct (rangeFields_unknown _ _ _ Hf Hty ∅ w) as [reason ->]. by eexists.
Qed.

Lemma randomRawData_unknown (fields : gmap string string)
    (field typ : string) (w : World) :
  fields !! field = Some typ -> typ ∉ KnownTypes ->
  exists reason, randomRawData fields w = Panic reason.
Proof.
  intros Hf Hty. unfold randomRawData. run_M.
  destruct (randomStructuredData_unknown fields field typ w Hf Hty) as [reason ->].
  by eexists.
Qed.

(** A generator whose payload function panics never returns a record. *)
Lemma Next_panics {C : Type} (g : baseRecordGenerator C) (w : World) :
  (forall w1, exists reason, generateData g (captured g) w1 = Panic reason) ->
  exists reason, Next g w = Panic reason.
Proof.
  intros Hgen. unfold Next. run_M. cbn [time_Now].
  destruct (rand_Intn _ _) as [[i w2]|]; [|by eexists].
  destruct (operations g !! Z.to_nat i) as [op|]; [|by eexists].
  unfold randomWord, rand_Int. run_M. cbn.
  destruct (Hgen (set_global_rand
    (mkRand (outputs (global_rand w2)) (S (consumed (global_rand w2)))) w2))
    as [reason Hp].
  destruct op; rewrite Hp; by eexists.
Qed.

(** C4, as the code has it: a field specification with an unknown type
    is accepted by [NewStructuredRecordGenerator] and
    [NewRawRecordGenerator], which return a generator and no error; every
    call of [Next] on that generator, whatever its counter, panics, so
    no record is returned. *)
Theorem unknown_type_panics_in_Next (coll : string) (ops : list Operation)
    (fields : gmap string string) (field typ : string) :
  fields !! field = Some typ -> typ ∉ KnownTypes ->
  (exists g,
      NewStructuredRecordGenerator coll ops fields = Ok g
      /\ forall n w, exists reason,
           Next (mkBase (collection g) (operations g) (generateData g)
                   (captured g) n) w = Panic reason)
  /\ (exists g,
        NewRawRecordGenerator coll ops fields = Ok g
        /\ forall n w, exists reason,
             Next (mkBase (collection g) (operations g) (generateData g)
                     (captured g) n) w = Panic reason).
Proof.
  intros Hf Hty. split.
  - eexists. split; [reflexivity|]. intros n w. apply Next_panics.
    intros w1. cbn [generateData captured]. run_M.
    by destruct (randomStructuredData_unknown fields field typ w1) as [reason ->];
      [..|eexists].
  - eexists. split; [reflexivity|]. intros n w. apply Next_panics.
    intros w1. cbn [generateData captured]. run_M.
    by destruct (randomRawData_unknown fields field typ w1) as [reason ->];
      [..|eexists].
Qed.

(** *** Known types *)

Lemma faker_bytes_returns (n : nat) (w : World) :
  exists bs w',
    faker_bytes n w = Done (bs, w')
    /\ length bs = n /\ Forall (fun b => in_byte b = true) bs.
Proof.
  revert w. induction n as [|n IH]; intros w; [by eexists _, _|].
  cbn [faker_bytes]. unfold faker_next at 1. run_M. cbn [Rand_next].
  set (w1 := set_faker_rand _ w).
  destruct (IH w1) as (bs & w' & -> & Hlen & Hbs).
  eexists _, _. split; [done|]. split; [simpl; lia|].
  constructor; [|done]. unfold in_byte.
  pose proof (Z.mod_pos_bound (outputs (faker_rand w) (consumed (faker_rand w))) 256).
  apply andb_true_iff. split; [apply Z.leb_le|apply Z.ltb_lt]; lia.
Qed.

Lemma gofakeit_UUID_shape (w : World) :
  exists u w',
    gofakeit_UUID w = Done (u, w')
    /\ String.length u = 36%nat
    /\ GoString.all Regexp.is_uuid_char u = true.
Proof.
  unfold gofakeit_UUID. run_M.
  destruct (faker_bytes_returns 16 w) as (bs & w' & -> & Hlen & Hbs).
  eexists _, _. split; [done|].
  set (bs1 := alter _ 6%nat bs). set (bs2 := alter _ 8%nat bs1).
  assert (Forall (fun b => in_byte b = true) bs2) as Hbs2.
  { apply Forall_alter; [apply Forall_alter; [done|]|];
      intros b _ Hb; by destruct (ShapeFacts.byte_facts b Hb) as (? & ? & _). }
  assert (length bs2 = 16%nat) as Hlen2 by (subst bs1 bs2; by rewrite !length_alter).
  pose proof (ShapeFacts.hex_encode_uuid (take 4 bs2) (Forall_take _ _ _ Hbs2)) as [A1 L1].
  pose proof (ShapeFacts.hex_encode_uuid (take 2 (drop 4 bs2))
                (Forall_take _ _ _ (Forall_drop _ _ _ Hbs2))) as [A2 L2].
  pose proof (ShapeFacts.hex_encode_uuid (take 2 (drop 6 bs2))
                (Forall_take _ _ _ (Forall_drop _ _ _ Hbs2))) as [A3 L3].
  pose proof (ShapeFacts.hex_encode_uuid (take 2 (drop 8 bs2))
                (Forall_take _ _ _ (Forall_drop _ _ _ Hbs2))) as [A4 L4].
  pose proof (ShapeFacts.hex_encode_uuid (drop 10 bs2) (Forall_drop _ _ _ Hbs2)) as [A5 L5].
  rewrite ?length_take, ?length_drop, Hlen2 in *.
  split.
  - rewrite !GoStringFacts.length_append, L1, L2, L3, L4, L5. reflexivity.
  - rewrite !GoStringFacts.all_append, A1, A2, A3, A4, A5. reflexivity.
Qed.

Ltac field_type :=
  unfold fieldValue, shape_ok, TypeName, TypeEmail, TypeEmployeeID, TypeSSN,
    TypeCreditCard, TypeOrderNum;
  repeat match goal with
         | |- context [String.eqb ?a ?b] =>
             let v := eval vm_compute in (String.eqb a b) in
             change (String.eqb a b) with v
         end;
  cbv iota.

Lemma gofakeit_Number_range (lo hi : Z) (w : World) :
  lo < hi ->
  exists n w', gofakeit_Number lo hi w = Done (n, w') /\ lo <= n <= hi.
Proof.
  intros H. unfold gofakeit_Number, faker_next.
  destruct (lo =? hi) eqn:E; [apply Z.eqb_eq in E; lia|].
  run_M. cbn [Rand_next]. eexists _, _. split; [done|].
  rewrite Z.min_l, Z.max_r by lia.
  pose proof (Z.mod_pos_bound (outputs (faker_rand w) (consumed (faker_rand w)))
                (hi - lo + 1)). lia.
Qed.

Lemma fieldValue_known (field typ : string) (w : World) :
  typ ∈ KnownTypes ->
  exists v w', fieldValue field typ w = Done (v, w') /\ shape_ok typ v = true.
Proof.
  intros H. unfold KnownTypes in H.
  repeat (apply elem_of_cons in H as [->|H]); [..|by apply elem_of_nil in H];
    field_type.
  - unfold rand_Int, Rand_Int, Rand_next. run_M.
    eexists _, _. split; [done|]. cbv iota.
    pose proof (Z.mod_pos_bound (outputs (global_rand w) (consumed (global_rand w)))
                  (2 ^ 63) ltac:(lia)). unfold max_int.
    apply andb_true_iff. split; apply Z.leb_le; lia.
  - unfold randomWord, rand_Int, Rand_Int, Rand_next. run_M. by eexists _, _.
  - unfold time_Now. run_M. by eexists _, _.
  - unfold rand_Int, Rand_Int, Rand_next. run_M. by eexists _, _.
  - unfold rand_Intn, Rand_Intn, Rand_next. run_M. cbn [Z.leb Z.compare].
    eexists _, _. split; [done|]. cbv iota.
    pose proof (Z.mod_pos_bound (outputs (global_rand w) (consumed (global_rand w)))
                  1000 ltac:(lia)). unfold time_Second.
    rewrite Z.mod_mul by lia.
    repeat (apply andb_true_iff; split);
      [apply Z.leb_le|apply Z.ltb_lt|apply Z.eqb_eq]; lia.
  - unfold gofakeit_Name, faker_next, Rand_next. run_M. by eexists _, _.
  - unfold gofakeit_Email, faker_next, Rand_next. run_M. by eexists _, _.
  - run_M. destruct (gofakeit_Number_range 1000 9999 w) as (n & w' & -> & Hn); [lia|].
    eexists _, _. split; [done|]. cbv iota.
    apply (ShapeFacts.matches_prefix_digits "EMP"), ItoaFacts.Itoa_4_digits, Hn.
  - run_M. destruct (gofakeit_Number_range 0 9999 w) as (n & w' & -> & Hn); [lia|].
    eexists _, _. split; [done|]. cbv iota.
    apply (ShapeFacts.matches_prefix_digits "XXX-XX-"), ItoaFacts.pad0_4_digits, Hn.
  - run_M. destruct (gofakeit_Number_range 0 9999 w) as (n & w' & -> & Hn); [lia|].
    eexists _, _. split; [done|]. cbv iota.
    destruct (ShapeFacts.matches_creditcard (pad0 4 n)) as [-> ->];
      [by apply ItoaFacts.pad0_4_digits|done].
  - run_M. destruct (gofakeit_UUID_shape w) as (u & w' & -> & Hlen & Hall).
    eexists _, _. split; [done|]. cbv iota.
    by apply ShapeFacts.matches_ordernumber.
Qed.

Lemma rangeFields_known (kvs : list (string * string)) :
  (forall f t, (f, t) ∈ kvs -> t ∈ KnownTypes) ->
  NoDup kvs.*1 ->
  forall data w,
  exists data' w',
    rangeFields kvs data w = Done (data', w')
    /\ dom data' = dom data ∪ list_to_set kvs.*1
    /\ (forall f t, (f, t) ∈ kvs ->
          exists v, data' !! f = Some v /\ shape_ok t v = true)
    /\ (forall f, f ∉ kvs.*1 -> data' !! f = data !! f).
Proof.
  induction kvs as [|[f t] kvs IH]; intros Hty Hnd data w.
  - exists data, w. split; [done|]. split; [simpl; by rewrite (right_id_L ∅ (∪))|].
    split; [intros ? ? Hin; by apply elem_of_nil in Hin|done].
  - cbn [rangeFields]. run_M.
    destruct (fieldValue_known f t w) as (v & w1 & -> & Hv);
      [apply (Hty f t); left|].
    apply NoDup_cons in Hnd as [Hf Hnd].
    assert (forall f' t', (f', t') ∈ kvs -> t' ∈ KnownTypes) as Hty'
      by (intros f' t' Hin; apply (Hty f' t'); by right).
    destruct (IH Hty' Hnd (<[f:=v]> data) w1)
      as (data' & w' & -> & Hdom & Hin & Hout).
    exists data', w'. split; [done|]. split; [|split].
    + rewrite Hdom, dom_insert_L. simpl.
      by rewrite (comm_L (∪) {[f]} (dom data)), <- (assoc_L (∪)).
    + intros f' t' Hft. apply elem_of_cons in Hft as [[= -> ->]|Hft];
        [|by apply Hin].
      exists v. split; [|done]. rewrite (Hout f Hf). apply lookup_insert_eq.
    + intros f' Hf'. apply not_elem_of_cons in Hf' as [Hne Hf'].
      rewrite (Hout f' Hf'). by apply lookup_insert_ne.
Qed.

(** Go leaves the order of a loop over a map open: whatever the order,
    the loop returns a mapping with the same names and shapes. *)
Lemma rangeFields_any_order (fields : gmap string string)
    (kvs : list (string * string)) (w : World) :
  kvs ≡ₚ map_to_list fields ->
  (forall f t, fields !! f = Some t -> t ∈ KnownTypes) ->
  exists data w',
    rangeFields kvs ∅ w = Done (data, w')
    /\ dom data = dom fields
    /\ forall f t, fields !! f = Some t ->
         exists v, data !! f = Some v /\ shape_ok t v = true.
Proof.
  intros Hperm Hty.
  assert (forall f t, (f, t) ∈ kvs -> t ∈ KnownTypes) as Hty'.
  { intros f t Hin. rewrite Hperm in Hin. by apply (Hty f), elem_of_map_to_list. }
  assert (NoDup kvs.*1) as Hnd
    by (rewrite Hperm; apply NoDup_fst_map_to_list).
  destruct (rangeFields_known kvs Hty' Hnd ∅ w)
    as (data & w' & Hrun & Hdom & Hin & _).
  exists data, w'. split; [done|]. split.
  - rewrite Hdom, dom_empty_L, (left_id_L ∅ (∪)).
    apply leibniz_equiv. rewrite Hperm. symmetry. apply dom_alt.
  - intros f t Hf. apply Hin. rewrite Hperm. by apply elem_of_map_to_list.
Qed.
(** C3: for a field specification with known types only,
    [randomStructuredData] returns; the mapping has exactly the specified
    field names, and each value has the shape of its declared type: the
    employee id matches [^EMP\d{4}$], the SSN [^XXX-XX-\d{4}$], the
    credit card [^X{12,}\d{4}$] with exactly twelve [X], the order
    number [^ORD-[a-f0-9-]{36}$]. *)
Theorem randomStructuredData_known (fields : gmap string string) (w : World) :
  (forall f t, fields !! f = Some t -> t ∈ KnownTypes) ->
  exists data w',
    randomStructuredData fields w = Done (StructuredData data, w')
    /\ dom data = dom fields
    /\ forall f t, fields !! f = Some t ->
         exists v, data !! f = Some v /\ shape_ok t v = true.
Proof.
  intros Hty. unfold randomStructuredData. run_M.
  assert (forall f t, (f, t) ∈ map_to_list fields -> t ∈ KnownTypes) as Hty'
    by (intros f t Hin; by apply (Hty f), elem_of_map_to_list).
  destruct (rangeFields_known (map_to_list fields) Hty'
              (NoDup_fst_map_to_list fields) ∅ w)
    as (data & w' & -> & Hdom & Hin & _).
  exists data, w'. split; [done|]. split.
  - rewrite Hdom, dom_empty_L, (left_id_L ∅ (∪)).
    apply leibniz_equiv. symmetry. apply dom_alt.
  - intros f t Hf. by apply Hin, elem_of_map_to_list.
Qed.

(** C5: for a field specification with known types only, the raw
    payload is the JSON serialization of the structured payload made from
    the same specification in the same surroundings, and reading it back
    gives a mapping whose names are exactly the specified field names.
    The JSON library is taken to read an object back with the member
    names it was written with. *)
Theorem randomRawData_is_marshalled (fields : gmap string string) (w : World) :
  reads_back_names ext ->
  (forall f t, fields !! f = Some t -> t ∈ KnownTypes) ->
  exists data w',
    randomStructuredData fields w = Done (StructuredData data, w')
    /\ (forall bytes,
          json_Marshal (StructuredData data) = Some bytes ->
          randomRawData fields w = Done (RawData bytes, w'))
    /\ (forall d w'',
          randomRawData fields w = Done (d, w'') ->
          exists bytes j,
            d = RawData bytes /\ w'' = w'
            /\ json_Marshal (StructuredData data) = Some bytes
            /\ json_Unmarshal bytes = Some j
            /\ dom j = dom fields).
Proof.
  intros Hcodec Hty. unfold randomRawData, randomStructuredData. run_M.
  assert (forall f t, (f, t) ∈ map_to_list fields -> t ∈ KnownTypes) as Hty'
    by (intros f t Hin; by apply (Hty f), elem_of_map_to_list).
  destruct (rangeFields_known (map_to_list fields) Hty'
              (NoDup_fst_map_to_list fields) ∅ w)
    as (data & w' & -> & Hdom & _ & _).
  assert (dom data = dom fields) as Hfields.
  { rewrite Hdom, dom_empty_L, (left_id_L ∅ (∪)).
    apply leibniz_equiv. symmetry. apply dom_alt. }
  exists data, w'. split; [done|]. split.
  - by intros bytes ->.
  - intros d w'' H.
    destruct (json_Marshal (StructuredData data)) as [bytes|] eqn:E; [|done].
    simplify_eq. destruct (Hcodec data bytes E) as (j & Hj & Hdj).
    exists bytes, j. by rewrite Hdj.
Qed.

End FieldSpecification.

(** ** The patient generators *)

Section Patients.

Context `{ext : Externals}.

(** Every call returns a document of its kind and moves the counter by
    one; the document carries the new value of the counter. *)
Lemma Generate_returns (k : DocKind) (g : Generator) (w : World) :
  exists d g' w',
    Generate k g w = Done ((d, g'), w')
    /\ kind_of d = k
    /\ patientIDCounter g' = wrap_int (patientIDCounter g + 1)
    /\ is_identity (wrap_int (patientIDCounter g + 1)) (identity d).
Proof.
  destruct k.
  - eexists _, _, _. split; [reflexivity|]. by repeat split.
  - eexists _, _, _. split; [reflexivity|]. by repeat split.
  - unfold Generate, GenerateHL7v3Message. run_M.
    destruct (HL7v3Patient_next g w) as [[[p g1] w1]|] eqn:E; [|discriminate E].
    assert (v3_ID p = wrap_int (patientIDCounter g + 1)
            /\ patientIDCounter g1 = wrap_int (patientIDCounter g + 1)) as [Hp Hg]
      by (injection E as <- <- _; by split).
    destruct (xml_MarshalIndent p); by eexists _, _, _.
Qed.

Lemma Generate_all_from (ks : list DocKind) (g : Generator) (w : World) :
  exists ds g' w',
    Generate_all ks g w = Done ((ds, g'), w')
    /\ length ds = length ks
    /\ forall (i : nat) (d : Document),
         ds !! i = Some d ->
         ks !! i = Some (kind_of d)
         /\ (0 <= patientIDCounter g ->
             patientIDCounter g + Z.of_nat (S i) <= max_int ->
             is_identity (patientIDCounter g + Z.of_nat (S i)) (identity d)).
Proof.
  revert g w. induction ks as [|k ks IH]; intros g w.
  - eexists _, _, _. split; [done|]. split; [done|]. intros i d Hi. done.
  - destruct (Generate_returns k g w) as (d & g1 & w1 & Hd & Hk & Hc & Hid).
    destruct (IH g1 w1) as (ds & g' & w' & Hds & Hlen & Hall).
    cbn [Generate_all]. run_M. rewrite Hd, Hds.
    eexists _, _, _. split; [done|]. split; [simpl; lia|].
    intros [|i] d' Hi; simplify_eq/=.
    + split; [done|]. intros H0 Hmax.
      rewrite IntFacts.wrap_int_id in Hid by (unfold min_int; lia).
      exact Hid.
    + destruct (Hall i d' Hi) as [Hkind Hident]. split; [done|].
      intros H0 Hmax.
      rewrite IntFacts.wrap_int_id in Hc by (unfold min_int; lia).
      rewrite Hc in Hident.
      replace (patientIDCounter g + Z.of_nat (S (S i)))
        with (patientIDCounter g + 1 + Z.of_nat (S i)) by lia.
      apply Hident; lia.
Qed.



(** The identity of an XML document is the number of the document among
    those of its generator; it is in [[0,9999]] for the first 9999
    documents of a generator and for no later one. *)
Theorem HL7v3_identity_counts (seed : Z) (ks : list DocKind) (w : World) :
  exists ds g' w',
    Generate_all ks (NewGenerator seed) w = Done ((ds, g'), w')
    /\ (forall i : nat,
          ks !! i = Some KHL7v3 ->
          exists bytes p, ds !! i = Some (DocHL7v3 bytes p))
    /\ (forall (i : nat) (bytes : result string) (p : HL7v3Patient),
          ds !! i = Some (DocHL7v3 bytes p) -> Z.of_nat (S i) <= max_int ->
          v3_ID p = Z.of_nat (S i)
          /\ (0 <= v3_ID p <= 9999 <-> Z.of_nat i < 9999)).
Proof.
  destruct (Generate_all_from ks (NewGenerator seed) w)
    as (ds & g' & w' & Hrun & Hlen & Hall).
  exists ds, g', w'. split; [done|]. split.
  - intros i Hi.
    destruct (lookup_lt_is_Some_2 ds i) as [d Hd];
      [rewrite Hlen; by apply lookup_lt_Some in Hi|].
    destruct (Hall i d Hd) as [Hk _]. rewrite Hi in Hk.
    destruct d as [| |bytes p]; try discriminate Hk. by exists bytes, p.
  - intros i bytes p Hi Hmax. destruct (Hall i _ Hi) as [_ Hident].
    cbn [NewGenerator patientIDCounter identity is_identity] in Hident.
    rewrite Z.add_0_l in Hident. rewrite Hident by (first [done | lia]). lia.
Qed.

End Patients.

Module PatientExamples.


Lemma HL7v3_identity_counts_witness :
  exists ds g' w' bytes p,
    Generate_all (ext := Example.externals) [KFHIR; KHL7v3]
      (NewGenerator (ext := Example.externals) 5) Example.world
    = Done ((ds, g'), w')
    /\ ds !! 1%nat = Some (DocHL7v3 bytes p)
    /\ v3_ID p = 2
    /\ 0 <= v3_ID p <= 9999.
Proof.
  destruct (HL7v3_identity_counts (ext := Example.externals) 5
              [KFHIR; KHL7v3] Example.world)
    as (ds & g' & w' & Hrun & Hkind & Hid).
  destruct (Hkind 1%nat eq_refl) as (bytes & p & Hp).
  exists ds, g', w', bytes, p. split; [exact Hrun|]. split; [exact Hp|].
  destruct (Hid 1%nat bytes p Hp) as [Hv Hrange]; [unfold max_int; lia|].
  split; [exact Hv|]. apply Hrange. lia.
Defined.

(** C7: the identity of an XML document is not always in [[0,9999]]:
    the 10000th XML document of a generator carries 10000, the value of
    the shared counter, which is above the range the tests of the package
    assert for the identity. *)
Lemma HL7v3_identity_beyond_9999 :
  exists ds g' w' bytes p,
    Generate_all (ext := Example.externals) (replicate (Z.to_nat 10000) KHL7v3)
      (NewGenerator (ext := Example.externals) 0) Example.world
    = Done ((ds, g'), w')
    /\ ds !! Z.to_nat 9999 = Some (DocHL7v3 bytes p)
    /\ v3_ID p = 10000
    /\ ((0 <=? v3_ID p) && (v3_ID p <=? 9999)) = false.
Proof.
  destruct (Generate_all_from (ext := Example.externals)
              (replicate (Z.to_nat 10000) KHL7v3)
              (NewGenerator (ext := Example.externals) 0) Example.world)
    as (ds & g' & w' & Hrun & Hlen & Hall).
  rewrite length_replicate in Hlen.
  destruct (lookup_lt_is_Some_2 ds (Z.to_nat 9999)) as [d Hd]; [lia|].
  destruct (Hall _ d Hd) as [Hk Hid].
  rewrite lookup_replicate_2 in Hk by lia.
  destruct d as [|?|bytes p]; try discriminate Hk.
  exists ds, g', w', bytes, p. split; [exact Hrun|]. split; [exact Hd|].
  cbn [NewGenerator patientIDCounter identity is_identity] in Hid.
  assert (v3_ID p = 10000) as E
    by (rewrite Hid; [lia|lia|unfold max_int; lia]).
  split; [exact E|]. rewrite E. reflexivity.
Qed.

End PatientExamples.

(** ** The burst rate limiter *)

Module BurstLimiterFacts.
Import BurstLimiter.

Lemma steady_uncapped (l : Limiter) (now : Z) :
  rate l = 0%Q -> steady l now = (0, emitted (now + 0) l).
Proof.
  intros Hr. unfold steady. rewrite Hr.
  destruct (lastEmission l); [|done].
  destruct (Qlt_le_dec 0 0) as [H|_]; [|done].
  by apply Qlt_irrefl in H.
Qed.

(** No attempt is told to wait a negative time. *)
Lemma Wait_nonneg (l : Limiter) (now : Z) : 0 <= fst (Wait l now).
Proof.
  assert (forall l', 0 <= fst (steady l' now)) as Hsteady.
  { intros l'. unfold steady. cbn [fst].
    destruct (lastEmission l'); [|done].
    destruct (Qlt_le_dec 0 (rate l')); lia. }
  assert (forall l', 0 <= fst (sleeping l' now)) as Hsleeping.
  { intros l'. unfold sleeping.
    destruct (0 <? remaining_sleep l' now) eqn:E; [|apply Hsteady].
    apply Z.ltb_lt in E. cbn [fst]. lia. }
  unfold Wait. destruct (phase l); [|apply Hsleeping].
  destruct (burst_over l now); [apply Hsleeping|apply Hsteady].
Qed.

(** With a sleep duration of zero the limiter never leaves the bursting
    phase. *)
Lemma Wait_without_sleep (l : Limiter) (now : Z) :
  sleepDuration l = 0 -> phase l = Bursting -> phase (snd (Wait l now)) = Bursting.
Proof.
  intros Hs Hp. unfold Wait, burst_over. rewrite Hp, Hs.
  rewrite andb_false_r. unfold steady. cbn [snd emitted phase]. exact Hp.
Qed.

(** The reads of [testSourceRateLimit], with the pauses the test takes
    between them, are delayed by 0, 50, 0, 25, 100, 50 and 50
    milliseconds, as the test expects. *)
Lemma testSourceRateLimit_delays :
  Reads ((fun ms => ms * millisecond) <$> [0; 0; 50; 25; 0; 0; 150]) limiter20 0
  = (fun ms => ms * millisecond) <$> [0; 50; 0; 25; 100; 50; 50].
Proof. vm_compute. reflexivity. Qed.

(** C2: from the bursting phase begun at instant 0, with no steady-rate
    cap, an attempt at 0 waits nothing; an attempt at 160ms, past the
    150ms burst window, moves to the sleeping phase and waits the sleep
    duration of 100ms less the 10ms by which it overran the burst window
    (and so for every attempt that lands in the sleep window, which
    begins at 150ms); while the sleep window lasts a further attempt
    waits what remains of it, and an
    attempt at or after 250ms, and so one at or after 260ms, moves back to
    the bursting phase and waits nothing. *)
Theorem burst_then_sleep_then_burst :
  exists l1 l2,
    Wait limiter0 0 = (0, l1)
    /\ phase l1 = Bursting
    /\ burst_over l1 (160 * millisecond) = true
    /\ Wait l1 (160 * millisecond)
       = (100 * millisecond - (160 * millisecond - 150 * millisecond), l2)
    /\ phase l2 = Sleeping
    /\ phaseStart l2 = 150 * millisecond
    /\ (forall t, 150 * millisecond <= t < 250 * millisecond ->
          Wait l1 t = (100 * millisecond - (t - 150 * millisecond), l2))
    /\ (forall t, 150 * millisecond <= t < 250 * millisecond ->
          Wait l2 t = (250 * millisecond - t, l2))
    /\ (forall t, 250 * millisecond <= t ->
          exists l3,
            Wait l2 t = (0, l3) /\ phase l3 = Bursting /\ phaseStart l3 = t).
Proof.
  exists (mkLimiter (150 * millisecond) (100 * millisecond) 0%Q Bursting 0 (Some 0)),
         (mkLimiter (150 * millisecond) (100 * millisecond) 0%Q Sleeping
                    (150 * millisecond) (Some 0)).
  split; [reflexivity|]. split; [reflexivity|].
  split; [reflexivity|]. split; [reflexivity|].
  split; [reflexivity|]. split; [reflexivity|]. split; [|split].
  - intros t Ht.
    unfold Wait, burst_over, sleeping, remaining_sleep, millisecond in *.
    cbn [phase phaseStart burstDuration sleepDuration enter].
    destruct (_ && _) eqn:Eb.
    + destruct (0 <? _) eqn:E; [f_equal; lia|]. apply Z.ltb_ge in E. lia.
    + apply andb_false_iff in Eb as [Eb|Eb]; [apply Z.leb_gt in Eb; lia|done].
  - intros t Ht. unfold Wait, sleeping, remaining_sleep, millisecond in *.
    cbn [phase phaseStart sleepDuration enter].
    destruct (0 <? _) eqn:E; [f_equal; lia|].
    apply Z.ltb_ge in E. lia.
  - intros t Ht. unfold Wait, sleeping, remaining_sleep, millisecond in *.
    cbn [phase phaseStart sleepDuration enter].
    destruct (0 <? _) eqn:E; [apply Z.ltb_lt in E; lia|].
    rewrite steady_uncapped by reflexivity. by eexists.
Qed.

Lemma burst_then_sleep_then_burst_witness :
  exists l2 l3,
    Wait (snd (Wait limiter0 0)) (160 * millisecond) = (90 * millisecond, l2)
    /\ Wait l2 (200 * millisecond) = (50 * millisecond, l2)
    /\ Wait l2 (260 * millisecond) = (0, l3)
    /\ phase l3 = Bursting.
Proof.
  destruct burst_then_sleep_then_burst
    as (l1 & l2 & H0 & _ & _ & H160 & _ & _ & _ & Hsleep & Hburst).
  destruct (Hburst (260 * millisecond)) as (l3 & H260 & Hphase & _);
    [unfold millisecond; lia|].
  exists l2, l3. split; [rewrite H0; cbn [snd]; by rewrite H160|].
  split; [|by split].
  rewrite (Hsleep (200 * millisecond)) by (unfold millisecond; lia).
  reflexivity.
Defined.

End BurstLimiterFacts.

(** ** The theorems at concrete inputs *)

Module Witnesses.
Import Example.

Abbreviation E := Example.externals.

Lemma generator_returns (c : string) (w : World) :
  exists d c' w', generateData generator c w = Done ((d, c'), w').
Proof. by eexists _, _, _. Qed.

Lemma fields_known :
  forall f t, fields !! f = Some t -> t ∈ KnownTypes.
Proof.
  apply (bool_decide_unpack (map_Forall (fun _ t => t ∈ KnownTypes) fields)).
  vm_compute. exact I.
Qed.

Lemma float_unknown : "float" ∉ KnownTypes.
Proof. apply (bool_decide_unpack _). vm_compute. exact I. Qed.

Lemma Next_slots_match_witness :
  exists r g' w',
    Next (ext := E) generator Example.world = Done ((r, g'), w')
    /\ slots_match r.
Proof.
  destruct (Next_returns (ext := E) generator Example.world)
    as (r & g' & w' & H); [discriminate|apply generator_returns|].
  exists r, g', w'. split; [exact H|].
  exact (Next_slots_match (ext := E) generator Example.world w' r g' H).
Defined.

Lemma Next_n_positions_witness :
  exists rs g' w' r1 r2 r3,
    Next_n (ext := E) 3 generator Example.world = Done ((rs, g'), w')
    /\ rs = [r1; r2; r3]
    /\ Position r1 = "1" /\ Position r2 = "2" /\ Position r3 = "3".
Proof.
  destruct (Next_n_returns (ext := E) 3 generator Example.world)
    as (rs & g' & w' & H); [discriminate|apply generator_returns|].
  destruct (Next_n_positions (ext := E) 3 generator Example.world w' rs g' eq_refl
              ltac:(unfold max_int; lia) H) as (Hlen & Hpos & _).
  destruct rs as [|r1 [|r2 [|r3 [|r4 rs]]]]; try discriminate Hlen.
  exists [r1; r2; r3], g', w', r1, r2, r3.
  split; [exact H|]. split; [reflexivity|].
  split; [exact (Hpos 0%nat r1 eq_refl)|].
  split; [exact (Hpos 1%nat r2 eq_refl)|exact (Hpos 2%nat r3 eq_refl)].
Defined.

Lemma randomStructuredData_known_witness :
  exists data w' v,
    randomStructuredData (ext := E) fields Example.world
    = Done (StructuredData data, w')
    /\ dom data = dom fields
    /\ data !! "ssn" = Some v
    /\ shape_ok "ssn" v = true.
Proof.
  destruct (randomStructuredData_known (ext := E) fields Example.world fields_known)
    as (data & w' & Hrun & Hdom & Hshape).
  destruct (Hshape "ssn" "ssn" eq_refl) as (v & Hv & Hok).
  exists data, w', v. split; [exact Hrun|]. split; [exact Hdom|].
  split; [exact Hv|exact Hok].
Defined.

Lemma randomRawData_is_marshalled_witness :
  exists bytes w' j,
    randomRawData (ext := E) fields Example.world = Done (RawData bytes, w')
    /\ json_Unmarshal (Externals := E) bytes = Some j
    /\ dom j = dom fields.
Proof.
  destruct (randomRawData_is_marshalled (ext := E) fields Example.world
              SimpleJSONFacts.Unmarshal_Marshal fields_known)
    as (data & w' & _ & Hraw & Hback).
  specialize (Hraw _ eq_refl).
  destruct (Hback _ _ Hraw) as (bytes & j & Hd & _ & _ & Hj & Hdom).
  injection Hd as Hd. rewrite Hd in Hraw.
  exists bytes, w', j. split; [exact Hraw|]. split; [exact Hj|exact Hdom].
Defined.

Lemma unknown_type_panics_in_Next_witness :
  exists g reason,
    NewStructuredRecordGenerator (ext := E) "users" [OperationCreate] bad_fields
    = Ok g
    /\ Next (ext := E) g Example.world = Panic reason.
Proof.
  destruct (unknown_type_panics_in_Next (ext := E) "users" [OperationCreate]
              bad_fields "id" "float" eq_refl float_unknown)
    as [(g & Hnew & Hnext) _].
  destruct (Hnext 0 Example.world) as [reason Hpanic].
  exists g, reason. split; [exact Hnew|].
  injection Hnew as <-. exact Hpanic.
Defined.

(** A field specification with the type [float], which is not a known
    type, is accepted by both constructors. *)
Lemma unknown_type_accepted_at_construction :
  ("float" ∉ KnownTypes)
  /\ (exists g,
        NewStructuredRecordGenerator (ext := E) "users" [OperationCreate] bad_fields
        = Ok g)
  /\ (exists g,
        NewRawRecordGenerator (ext := E) "users" [OperationCreate] bad_fields
        = Ok g).
Proof. split; [exact float_unknown|]. split; by eexists. Qed.

Lemma NewFileRecordGenerator_cached_witness :
  exists g w1 rs g' w3 r1 r2,
    NewFileRecordGenerator "users" [OperationUpdate] "payload.txt"
      Example.world = Done (Ok g, w1)
    /\ file_reads w1 = ["payload.txt"]
    /\ Next_n (ext := E) 2 g world_later = Done ((rs, g'), w3)
    /\ rs = [r1; r2]
    /\ file_reads w3 = file_reads world_later
    /\ carries (RawData "hello, world") r1
    /\ carries (RawData "hello, world") r2.
Proof.
  pose proof (NewFileRecordGenerator_cached (ext := E) "users" [OperationUpdate]
                "payload.txt" Example.world) as H.
  change (files Example.world !! "payload.txt") with (Some "hello, world") in H.
  destruct H as (g & w1 & Hnew & Hreads & Hnext).
  destruct (Hnext 2%nat world_later) as [Hret Hsame].
  destruct (Hret ltac:(discriminate)) as (rs & g' & w3 & Hrun).
  destruct (Hsame rs g' w3 Hrun) as (Hlen & Hlog & Hpayload).
  destruct rs as [|r1 [|r2 [|r3 rs]]]; try discriminate Hlen.
  exists g, w1, [r1; r2], g', w3, r1, r2.
  split; [exact Hnew|]. split; [exact Hreads|]. split; [exact Hrun|].
  split; [reflexivity|]. split; [exact Hlog|].
  split; apply Hpayload; [left|right; left].
Defined.

End Witnesses.

(** ** Masks are stable *)

Module SplitFacts.
Import GoString GoStringFacts.

Lemma Split_free (s : string) (sep : ascii) :
  free_of sep s = true -> Split s sep = [s].
Proof.
  induction s as [|c s IH]; [done|]. unfold free_of. cbn [all Split].
  intros [Hc Hs]%andb_true_iff. apply negb_true_iff in Hc. rewrite Hc.
  by rewrite (IH Hs).
Qed.

Lemma Split_app (a b : string) (sep : ascii) :
  free_of sep a = true -> Split (a +:+ String sep b) sep = a :: Split b sep.
Proof.
  induction a as [|c a IH]; intros Ha.
  - change (Split (String sep b) sep = "" :: Split b sep).
    cbn [Split]. by rewrite Ascii.eqb_refl.
  - unfold free_of in Ha. cbn [all] in Ha.
    apply andb_true_iff in Ha as [Hc Ha]. apply negb_true_iff in Hc.
    rewrite append_cons. cbn [Split]. rewrite Hc. by rewrite (IH Ha).
Qed.

Lemma Split_pieces_free (s : string) (sep : ascii) :
  Forall (fun p => free_of sep p = true) (Split s sep).
Proof.
  induction s as [|c s IH]; [by repeat constructor|]. cbn [Split].
  destruct (Ascii.eqb c sep) eqn:E; [by constructor|].
  destruct (Split s sep) as [|p ps]; [by repeat constructor; unfold free_of; cbn; rewrite E|].
  apply Forall_cons in IH as [Hp Hps]. constructor; [|done].
  unfold free_of in *. cbn [all]. by rewrite E, Hp.
Qed.

(** Cutting what was joined gives the pieces back. *)
Lemma Split_concat (l : list string) (sep : ascii) :
  l <> [] -> Forall (fun p => free_of sep p = true) l ->
  Split (String.concat (String sep EmptyString) l) sep = l.
Proof.
  induction l as [|x l IH]; [done|]. intros _ [Hx Hl]%Forall_cons.
  destruct l as [|y l]; [by apply Split_free|].
  rewrite concat_cons.
  change (String sep "" +:+ String.concat (String sep "") (y :: l))
    with (String sep (String.concat (String sep "") (y :: l))).
  rewrite Split_app by done. by rewrite IH.
Qed.

Lemma drop_append (a b : string) : drop (String.length a) (a +:+ b) = b.
Proof. induction a as [|c a IH]; [done|]. by rewrite append_cons. Qed.

End SplitFacts.

Module MaskFacts.
Import GoString GoStringFacts Obfuscator SplitFacts.

Lemma slice_from_append (a b : string) :
  slice_from (a +:+ b) (len (a +:+ b) - Z.of_nat (String.length b)) = Done b.
Proof.
  unfold slice_from, len. rewrite length_append.
  replace (Z.of_nat (String.length a + String.length b) - Z.of_nat (String.length b))
    with (Z.of_nat (String.length a)) by lia.
  rewrite Nat2Z.id, drop_append.
  replace ((0 <=? _) && _) with true; [done|].
  symmetry. apply andb_true_iff. split; apply Z.leb_le; lia.
Qed.

Lemma ObfuscateCreditCard_long (front last4 : string) :
  String.length last4 = 4%nat ->
  ObfuscateCreditCard (front +:+ last4)
  = Done (repeat "X" (String.length front) +:+ last4).
Proof.
  intros H4. unfold ObfuscateCreditCard.
  pose proof (slice_from_append front last4) as Hs. rewrite H4 in Hs.
  change (Z.of_nat 4) with 4 in Hs. rewrite Hs.
  unfold len. rewrite length_append, H4.
  destruct (_ <? 4) eqn:E; [apply Z.ltb_lt in E; lia|].
  do 3 f_equal. lia.
Qed.

Lemma ObfuscateCreditCard_short (number : string) :
  (String.length number < 4)%nat ->
  ObfuscateCreditCard number = Done (repeat "X" (String.length number)).
Proof.
  intros H. unfold ObfuscateCreditCard, len.
  destruct (_ <? 4) eqn:E; [done|]. apply Z.ltb_ge in E. lia.
Qed.

Lemma split_last4 (s : string) :
  (4 <= String.length s)%nat ->
  exists front last4, s = front +:+ last4 /\ String.length last4 = 4%nat.
Proof.
  intros H. exists (take (String.length s - 4) s), (drop (String.length s - 4) s).
  split; [by rewrite take_drop|]. rewrite length_drop. lia.
Qed.

(** X1: [ObfuscateCreditCard] keeps the last four characters of a number
    and writes one X for every character before them; a number of fewer
    than four characters becomes as many X as it has characters. *)
Theorem ObfuscateCreditCard_masks :
  (forall front last4 : string,
      String.length last4 = 4%nat ->
      ObfuscateCreditCard (front +:+ last4)
      = Done (repeat "X" (String.length front) +:+ last4))
  /\ (forall number : string,
        (String.length number < 4)%nat ->
        ObfuscateCreditCard number = Done (repeat "X" (String.length number))).
Proof. split; [apply ObfuscateCreditCard_long|apply ObfuscateCreditCard_short]. Qed.

Lemma ObfuscateCreditCard_masks_witness :
  ObfuscateCreditCard "4111111111111234" = Done "XXXXXXXXXXXX1234"
  /\ ObfuscateCreditCard "123" = Done "XXX"
  /\ ObfuscateCreditCard "" = Done "".
Proof.
  destruct ObfuscateCreditCard_masks as [Hlong Hshort].
  split; [|split].
  - apply (Hlong "411111111111" "1234"). reflexivity.
  - apply (Hshort "123"). simpl. lia.
  - apply (Hshort ""). simpl. lia.
Defined.

(** X2: [ObfuscateCreditCard] returns on every string, keeps its length,
    and masking what it returned changes nothing. *)
Theorem ObfuscateCreditCard_idempotent (number : string) :
  exists masked,
    ObfuscateCreditCard number = Done masked
    /\ String.length masked = String.length number
    /\ ObfuscateCreditCard masked = Done masked.
Proof.
  destruct (le_lt_dec 4 (String.length number)) as [Hlong|Hshort].
  - destruct (split_last4 number Hlong) as (front & last4 & -> & H4).
    rewrite ObfuscateCreditCard_long by done. eexists. split; [done|].
    split; [by rewrite !length_append, ItoaFacts.length_repeat|].
    rewrite ObfuscateCreditCard_long by done. by rewrite ItoaFacts.length_repeat.
  - rewrite ObfuscateCreditCard_short by done. eexists. split; [done|].
    split; [apply ItoaFacts.length_repeat|].
    rewrite ObfuscateCreditCard_short by (by rewrite ItoaFacts.length_repeat).
    by rewrite ItoaFacts.length_repeat.
Qed.

Lemma ObfuscateSSN_three (ssn p0 p1 p2 : string) :
  Split ssn "-" = [p0; p1; p2] -> ObfuscateSSN ssn = Done ("XXX-XX-" +:+ p2).
Proof. intros E. unfold ObfuscateSSN. by rewrite E. Qed.

Lemma Split_masked (t : string) :
  Split ("XXX-XX-" +:+ t) "-" = "XXX" :: "XX" :: Split t "-".
Proof.
  change ("XXX-XX-" +:+ t) with ("XXX" +:+ String "-" ("XX" +:+ String "-" t)).
  rewrite Split_app by done. by rewrite Split_app.
Qed.

Lemma ObfuscateSSN_masked (t : string) :
  free_of "-" t = true \/ String.length t = 4%nat ->
  ObfuscateSSN ("XXX-XX-" +:+ t) = Done ("XXX-XX-" +:+ t).
Proof.
  intros H.
  destruct (decide (length (Split t "-") = 1%nat)) as [H1|H1].
  - destruct (Split t "-") as [|p [|? ?]] eqn:E; try discriminate H1.
    pose proof (Split_join t "-") as Hj. rewrite E in Hj. cbn in Hj. subst p.
    apply (ObfuscateSSN_three _ "XXX" "XX" t). by rewrite Split_masked, E.
  - destruct H as [Hfree|H4]; [by rewrite Split_free in H1|].
    unfold ObfuscateSSN. rewrite Split_masked. cbn [length].
    replace (S (S (length (Split t "-"))) =? 3)%nat with false
      by (symmetry; apply Nat.eqb_neq; lia).
    cbn [negb].
    pose proof (slice_from_append "XXX-XX-" t) as Hs. rewrite H4 in Hs.
    change (Z.of_nat 4) with 4 in Hs. by rewrite Hs.
Qed.

(** X3: whatever [ObfuscateSSN] returns starts with XXX-XX-, and masking
    it again returns it unchanged, without panic. *)
Theorem ObfuscateSSN_idempotent (ssn masked : string) :
  ObfuscateSSN ssn = Done masked ->
  (exists kept, masked = "XXX-XX-" +:+ kept)
  /\ ObfuscateSSN masked = Done masked.
Proof.
  unfold ObfuscateSSN at 1.
  destruct (length (Split ssn "-") =? 3)%nat eqn:E3; cbn [negb].
  - apply Nat.eqb_eq in E3.
    destruct (Split ssn "-") as [|p0 [|p1 [|p2 [|? ?]]]] eqn:E; try discriminate E3.
    cbn. intros [= <-]. split; [by eexists|].
    apply ObfuscateSSN_masked. left.
    pose proof (Split_pieces_free ssn "-") as Hf. rewrite E in Hf.
    by apply Forall_cons in Hf as [_ [_ [Hf _]%Forall_cons]%Forall_cons].
  - destruct (le_lt_dec 4 (String.length ssn)) as [Hlong|Hshort].
    + rewrite ObfuscatorFacts.slice_from_tail by done. intros [= <-].
      split; [by eexists|]. apply ObfuscateSSN_masked. right.
      rewrite length_drop. lia.
    + by rewrite ObfuscatorFacts.slice_from_short.
Qed.

Lemma ObfuscateSSN_idempotent_witness :
  ObfuscateSSN "XXX-XX-6789" = Done "XXX-XX-6789".
Proof.
  apply (ObfuscateSSN_idempotent "123-45-6789" "XXX-XX-6789"). reflexivity.
Defined.

End MaskFacts.

Module LangFacts.
Import Regexp GoString GoStringFacts.

Lemma Lang_Cat_inv (r1 r2 : regexp) (s : string) :
  Lang (Cat r1 r2) s -> exists s1 s2, s = s1 +:+ s2 /\ Lang r1 s1 /\ Lang r2 s2.
Proof. intros H. inversion H; subst. by eexists _, _. Qed.

Lemma Lang_Class_inv (p : ascii -> bool) (s : string) :
  Lang (Class p) s -> exists c, s = String c EmptyString /\ p c = true.
Proof. intros H. inversion H; subst. by eexists. Qed.

Lemma Lang_lit_inv (p s : string) : Lang (lit p) s -> s = p.
Proof.
  revert s. induction p as [|c p IH]; intros s H; cbn [lit] in H.
  - by inversion H.
  - apply Lang_Cat_inv in H as (s1 & s2 & -> & H1 & H2).
    apply Lang_Class_inv in H1 as (c' & -> & Hc).
    apply Ascii.eqb_eq in Hc as <-. by rewrite (IH _ H2).
Qed.

Lemma Lang_times_inv (p : ascii -> bool) (n : nat) (s : string) :
  Lang (times n (Class p)) s -> String.length s = n /\ all p s = true.
Proof.
  revert s. induction n as [|n IH]; intros s H; cbn [times] in H.
  - by inversion H.
  - apply Lang_Cat_inv in H as (s1 & s2 & -> & H1 & H2).
    apply Lang_Class_inv in H1 as (c & -> & Hc).
    destruct (IH _ H2) as [Hlen Hall].
    rewrite append_cons. cbn [String.length all]. change ("" +:+ s2) with s2.
    by rewrite Hlen, Hc, Hall.
Qed.

Lemma Lang_Star_inv (p : ascii -> bool) (s : string) :
  Lang (Star (Class p)) s -> all p s = true.
Proof.
  intros H. remember (Star (Class p)) as r eqn:E.
  induction H; try discriminate E; [done|].
  injection E as ->.
  apply Lang_Class_inv in H as (c & -> & Hc).
  rewrite append_cons. cbn [all]. change ("" +:+ s2) with s2.
  by rewrite Hc, IHLang2.
Qed.

Lemma all_eqb_repeat (c : ascii) (s : string) :
  all (Ascii.eqb c) s = true -> s = repeat c (String.length s).
Proof.
  induction s as [|x s IH]; [done|]. cbn [all String.length repeat].
  intros [Hx Hs]%andb_true_iff. apply Ascii.eqb_eq in Hx as <-. by rewrite <- IH.
Qed.

(** A string of the shape [^XXX-XX-\d{4}$]. *)
Lemma matches_ssn_inv (s : string) :
  matches re_ssn s = true ->
  exists d, s = "XXX-XX-" +:+ d /\ four_digits d = true.
Proof.
  intros H. apply RegexpFacts.matches_Lang, Lang_Cat_inv in H
    as (s1 & d & -> & H1 & H2).
  apply Lang_lit_inv in H1 as ->. apply Lang_times_inv in H2 as [Hlen Hall].
  exists d. split; [done|]. unfold four_digits. by rewrite Hlen, Hall.
Qed.

(** A string of the shape [^X{12,}\d{4}$]. *)
Lemma matches_creditcard_inv (s : string) :
  matches re_creditcard s = true ->
  exists n d, s = repeat "X" n +:+ d /\ (12 <= n)%nat /\ four_digits d = true.
Proof.
  intros H. apply RegexpFacts.matches_Lang, Lang_Cat_inv in H
    as (xs & d & -> & H1 & H2).
  apply Lang_times_inv in H2 as [Hlen Hall].
  apply Lang_Cat_inv in H1 as (x1 & x2 & -> & H1 & H1').
  apply Lang_times_inv in H1 as [Hl1 Ha1]. apply Lang_Star_inv in H1'.
  exists (String.length (x1 +:+ x2)), d. split; [|split].
  - f_equal. apply all_eqb_repeat. by rewrite all_append, Ha1, H1'.
  - rewrite length_append. lia.
  - unfold four_digits. by rewrite Hlen, Hall.
Qed.

End LangFacts.

Section Obfuscated.

Context `{ext : Externals}.

Import Obfuscator.

Lemma KnownTypes_dec (t : string) : {t ∈ KnownTypes} + {t ∉ KnownTypes}.
Proof. apply (decide (t ∈ KnownTypes)). Qed.

(** What [randomStructuredData] returned was made by the loop from known
    types. *)
Lemma randomStructuredData_inv (fields : gmap string string) (w w' : World)
    (d : Data) :
  randomStructuredData fields w = Done (d, w') ->
  exists data,
    d = StructuredData data
    /\ dom data = dom fields
    /\ forall f t, fields !! f = Some t ->
         t ∈ KnownTypes /\ exists v, data !! f = Some v /\ shape_ok t v = true.
Proof.
  intros H.
  assert (forall f t, fields !! f = Some t -> t ∈ KnownTypes) as Hty.
  { intros f t Hf. destruct (KnownTypes_dec t) as [|Hno]; [done|].
    destruct (randomStructuredData_unknown fields f t w Hf Hno) as [reason Hp].
    congruence. }
  assert (forall f t, (f, t) ∈ map_to_list fields -> t ∈ KnownTypes) as Hty'
    by (intros f t Hin; by apply (Hty f), elem_of_map_to_list).
  destruct (rangeFields_known (map_to_list fields) Hty'
              (NoDup_fst_map_to_list fields) ∅ w)
    as (data & w1 & Hrun & Hdom & Hin & _).
  unfold randomStructuredData in H. unfold mbind, M_bind, mret, M_ret in H.
  rewrite Hrun in H. injection H as <- <-.
  exists data. split; [done|]. split.
  - rewrite Hdom, dom_empty_L, (left_id_L ∅ (∪)).
    apply leibniz_equiv. symmetry. apply dom_alt.
  - intros f t Hf. split; [by apply (Hty f)|]. by apply Hin, elem_of_map_to_list.
Qed.

(** X4: the values [randomStructuredData] makes for fields of type "ssn"
    and "creditcard" are already masked: the obfuscator returns each of
    them unchanged, and a credit card value has sixteen characters. *)
Theorem generated_values_are_masked (fields : gmap string string) (w w' : World)
    (data : gmap string Value) (field : string) :
  randomStructuredData fields w = Done (StructuredData data, w') ->
  (fields !! field = Some TypeSSN ->
   exists s, data !! field = Some (VString s) /\ ObfuscateSSN s = Done s)
  /\ (fields !! field = Some TypeCreditCard ->
      exists s, data !! field = Some (VString s)
                /\ String.length s = 16%nat
                /\ ObfuscateCreditCard s = Done s).
Proof.
  intros H. apply randomStructuredData_inv in H as (data' & [= <-] & _ & Hall).
  split; intros Hf; destruct (Hall _ _ Hf) as (_ & v & Hv & Hok).
  - destruct v as [|s| | |]; try discriminate Hok. exists s. split; [done|].
    change (Regexp.matches Regexp.re_ssn s = true) in Hok.
    apply LangFacts.matches_ssn_inv in Hok as (d & -> & Hd).
    apply MaskFacts.ObfuscateSSN_masked. right.
    apply andb_true_iff in Hd as [Hd _]. by apply Nat.eqb_eq in Hd.
  - destruct v as [|s| | |]; try discriminate Hok. exists s. split; [done|].
    change (Regexp.matches Regexp.re_creditcard s
            && Regexp.matches
                 (Regexp.Cat (Regexp.times 12 (Regexp.chr "X"))
                    (Regexp.times 4 Regexp.digit)) s = true) in Hok.
    apply andb_true_iff in Hok as [Hok Hexact].
    apply LangFacts.matches_creditcard_inv in Hok as (n & d & -> & Hn & Hd).
    apply andb_true_iff in Hd as [Hd _]. apply Nat.eqb_eq in Hd.
    split.
    + apply RegexpFacts.matches_Lang, LangFacts.Lang_Cat_inv in Hexact
        as (a & b & E & Ha & Hb).
      apply LangFacts.Lang_times_inv in Ha as [Ha _].
      apply LangFacts.Lang_times_inv in Hb as [Hb _].
      rewrite E, GoStringFacts.length_append. lia.
    + rewrite MaskFacts.ObfuscateCreditCard_long by done.
      by rewrite ItoaFacts.length_repeat.
Qed.

End Obfuscated.

(** ** What a record holds *)

Section NextFacts.

Context `{ext : Externals}.

Lemma Next_metadata_inv {C : Type} (g : baseRecordGenerator C) (w w' : World)
    (r : Record_) (g' : baseRecordGenerator C) :
  Next g w = Done ((r, g'), w') ->
  Metadata r
  = if String.eqb (collection g) ""
    then SetCreatedAt (clock w (clock_reads w)) ∅
    else <["collection" := collection g]> (SetCreatedAt (clock w (clock_reads w)) ∅).
Proof.
  intros H. unfold Next in H. run_M. cbn [time_Now] in H.
  destruct (rand_Intn _ _) as [[i w2]|] eqn:Ei; [|done].
  destruct (operations g !! Z.to_nat i) as [op|] eqn:Eop; [|done].
  destruct (randomWord w2) as [[word w3]|] eqn:Eword; [|done].
  destruct op; repeat (case_match; simplify_eq/=); done.
Qed.

(** X5: the metadata of a record is what [SetCreatedAt] writes for the
    first clock reading of the call, with the collection name added under
    "collection" exactly when that name is not empty; the call writes no
    other key. *)
Theorem Next_metadata {C : Type} (g : baseRecordGenerator C) (w w' : World)
    (r : Record_) (g' : baseRecordGenerator C) :
  Next g w = Done ((r, g'), w') ->
  (collection g = "" ->
   Metadata r = SetCreatedAt (clock w (clock_reads w)) ∅)
  /\ (collection g <> "" ->
      Metadata r !! "collection" = Some (collection g))
  /\ forall key, key <> "collection" ->
       Metadata r !! key = SetCreatedAt (clock w (clock_reads w)) ∅ !! key.
Proof.
  intros H. rewrite (Next_metadata_inv g w w' r g' H).
  destruct (String.eqb_spec (collection g) "") as [E|E].
  - split; [done|]. split; [done|]. done.
  - split; [done|]. split; [intros _; by rewrite lookup_insert_eq|].
    intros key Hkey. by rewrite lookup_insert_ne.
Qed.

(** X6: the operation of a record is one of the operations the generator
    was given, the only one when there is only one; the call leaves the
    collection and the operations as they were and counts one record. *)
Theorem Next_operation {C : Type} (g : baseRecordGenerator C) (w w' : World)
    (r : Record_) (g' : baseRecordGenerator C) :
  Next g w = Done ((r, g'), w') ->
  Operation_ r ∈ operations g
  /\ (forall op, operations g = [op] -> Operation_ r = op)
  /\ collection g' = collection g
  /\ operations g' = operations g
  /\ count g' = wrap_int (count g + 1).
Proof.
  intros H. apply Next_inv in H as (now & w1 & i & w2 & word & w3 & H).
  destruct H as (_ & _ & Hop & _ & _ & _ & Hc & Ho & _ & Hn & _).
  assert (Operation_ r ∈ operations g) as Hin
    by (by apply list_elem_of_lookup_2 in Hop).
  split; [done|]. split; [|done].
  intros op E. rewrite E in Hin. by apply list_elem_of_singleton in Hin.
Qed.

(** X7: a generator with no operation to choose from panics on every
    call of [Next]. *)
Theorem Next_without_operations {C : Type} (g : baseRecordGenerator C) (w : World) :
  operations g = [] -> exists reason, Next g w = Panic reason.
Proof. intros E. unfold Next. run_M. cbn [time_Now]. rewrite E. by eexists. Qed.

(** X8: the record counter is an [int]: after as many records as an
    [int] counts, the next position is the least [int], a negative
    number. *)
Theorem Next_position_wraps {C : Type} (g : baseRecordGenerator C) (w w' : World)
    (r : Record_) (g' : baseRecordGenerator C) :
  count g = max_int ->
  Next g w = Done ((r, g'), w') ->
  Position r = "-9223372036854775808" /\ count g' = min_int.
Proof.
  intros Hc H. apply Next_inv in H as (now & w1 & i & w2 & word & w3 & H).
  destruct H as (_ & _ & _ & _ & Hp & _ & _ & _ & _ & Hn & _).
  rewrite Hc in *. by rewrite Hp, Hn.
Qed.

(** [Next] returns whenever there is an operation to choose and the
    payload function returns on what it captured. *)
Lemma Next_returns_with {C : Type} (I : C -> Prop) (P : Data -> Prop)
    (g : baseRecordGenerator C) (w : World) :
  operations g <> [] -> I (captured g) ->
  (forall c w1, I c ->
     exists d c' w2, generateData g c w1 = Done ((d, c'), w2) /\ I c' /\ P d) ->
  exists r g' w',
    Next g w = Done ((r, g'), w')
    /\ I (captured g') /\ slots_hold P r.
Proof.
  intros Hops HI Hgen. unfold Next. run_M. cbn [time_Now].
  set (w1 := mkWorld _ _ _ _ _ _).
  destruct (rand_Intn_returns (Z.of_nat (length (operations g))) w1)
    as (i & w2 & -> & Hi); [destruct (operations g); [done|simpl; lia]|].
  destruct (lookup_lt_is_Some_2 (operations g) (Z.to_nat i)) as [op ->]; [lia|].
  unfold randomWord, rand_Int. run_M. cbn.
  set (w3 := set_global_rand _ _).
  destruct (Hgen (captured g) w3 HI) as (d & c & w4 & Hrun & Hc & Hd).
  destruct op; rewrite Hrun.
  - eexists _, _, _. split; [done|]. split; [done|]. by exists d.
  - destruct (Hgen c w4 Hc) as (d' & c' & w5 & -> & Hc' & Hd').
    eexists _, _, _. split; [done|]. split; [done|]. by exists d, d'.
  - eexists _, _, _. split; [done|]. split; [done|]. by exists d.
  - eexists _, _, _. split; [done|]. split; [done|]. by exists d.
Qed.

Lemma Next_n_returns_with {C : Type} (I : C -> Prop) (P : Data -> Prop) (n : nat)
    (g : baseRecordGenerator C) (w : World) :
  operations g <> [] -> I (captured g) ->
  (forall c w1, I c ->
     exists d c' w2, generateData g c w1 = Done ((d, c'), w2) /\ I c' /\ P d) ->
  exists rs g' w',
    Next_n n g w = Done ((rs, g'), w')
    /\ length rs = n
    /\ I (captured g')
    /\ forall r, r ∈ rs -> Operation_ r ∈ operations g /\ slots_hold P r.
Proof.
  revert g w. induction n as [|n IH]; intros g w Hops HI Hgen.
  - eexists _, _, _. split; [done|]. split; [done|]. split; [done|].
    intros r Hr. by apply elem_of_nil in Hr.
  - destruct (Next_returns_with I P g w Hops HI Hgen)
      as (r & g1 & w1 & HN & HI1 & HP).
    cbn [Next_n]. run_M. rewrite HN.
    apply Next_inv in HN as (? & ? & ? & ? & ? & ? & HN).
    destruct HN as (_ & _ & Hop & _ & _ & _ & _ & Hops' & Hgen' & _).
    apply list_elem_of_lookup_2 in Hop.
    destruct (IH g1 w1) as (rs & g2 & w2 & -> & Hlen & HI2 & Hrs);
      [by rewrite Hops'|done|by rewrite Hgen'|].
    eexists _, _, _. split; [done|]. split; [simpl; lia|]. split; [done|].
    intros r' [->|Hr']%elem_of_cons; [done|].
    rewrite <- Hops'. by apply Hrs.
Qed.

(** What [Next] puts in the slots comes from the payload function, as
    long as the captured value keeps its invariant. *)
Lemma Next_slots_with {C : Type} (I : C -> Prop) (P : Data -> Prop)
    (g : baseRecordGenerator C) (w w' : World) (r : Record_)
    (g' : baseRecordGenerator C) :
  I (captured g) ->
  (forall c w1 d c' w2, I c -> generateData g c w1 = Done ((d, c'), w2) ->
     I c' /\ P d) ->
  Next g w = Done ((r, g'), w') ->
  I (captured g') /\ slots_hold P r.
Proof.
  intros HI Hgen H. apply Next_inv in H as (now & w1 & i & w2 & word & w3 & H).
  destruct H as (_ & _ & _ & _ & _ & _ & _ & _ & _ & _ & H).
  unfold slots_hold.
  destruct (Operation_ r);
    [destruct H as (d & Hd & ->)
    |destruct H as (d1 & c1 & w4 & d2 & Hd1 & Hd2 & ->)
    |destruct H as (d & Hd & ->)
    |destruct H as (d & Hd & ->)]; cbn [Payload captured].
  - destruct (Hgen _ _ _ _ _ HI Hd) as [Hc Hp]. split; [done|]. by exists d.
  - destruct (Hgen _ _ _ _ _ HI Hd1) as [Hc1 Hp1].
    destruct (Hgen _ _ _ _ _ Hc1 Hd2) as [Hc2 Hp2]. split; [done|]. by exists d1, d2.
  - destruct (Hgen _ _ _ _ _ HI Hd) as [Hc Hp]. split; [done|]. by exists d.
  - destruct (Hgen _ _ _ _ _ HI Hd) as [Hc Hp]. split; [done|]. by exists d.
Qed.

Lemma Next_n_slots_with {C : Type} (I : C -> Prop) (P : Data -> Prop) (n : nat)
    (g : baseRecordGenerator C) (w w' : World) (rs : list Record_)
    (g' : baseRecordGenerator C) :
  I (captured g) ->
  (forall c w1 d c' w2, I c -> generateData g c w1 = Done ((d, c'), w2) ->
     I c' /\ P d) ->
  Next_n n g w = Done ((rs, g'), w') ->
  length rs = n /\ forall r, r ∈ rs -> slots_hold P r.
Proof.
  revert g w rs. induction n as [|n IH]; intros g w rs HI Hgen H.
  - cbn in H. run_M. injection H as <- <- <-. split; [done|].
    intros r Hr. by apply elem_of_nil in Hr.
  - apply Next_n_inv in H as (r1 & g1 & w1 & rs' & HN & Hrest & ->).
    destruct (Next_slots_with I P g w w1 r1 g1 HI Hgen HN) as [HI1 Hr1].
    apply Next_inv in HN as (? & ? & ? & ? & ? & ? & HN).
    destruct HN as (_ & _ & _ & _ & _ & _ & _ & _ & Hgen' & _).
    destruct (IH g1 w1 rs' HI1 ltac:(by rewrite Hgen') Hrest) as [Hlen Hrs].
    split; [simpl; lia|].
    intros r [->|Hr]%elem_of_cons; [done|by apply Hrs].
Qed.

(** X9: a generator of structured records can always be built from a
    non-empty list of operations and field types the code knows; it then
    returns any number of records, each with an operation of the list
    and, in every slot that operation asks for, structured data with
    exactly the specified fields, each value of the form of its type. *)
Theorem structured_records (coll : string) (ops : list Operation)
    (fields : gmap string string) :
  ops <> [] ->
  (forall f t, fields !! f = Some t -> t ∈ KnownTypes) ->
  exists g,
    NewStructuredRecordGenerator coll ops fields = Ok g
    /\ forall (n : nat) (w : World),
       exists rs g' w',
         Next_n n g w = Done ((rs, g'), w')
         /\ length rs = n
         /\ forall r, r ∈ rs ->
              Operation_ r ∈ ops
              /\ slots_hold
                   (fun d =>
                      exists data,
                        d = StructuredData data
                        /\ dom data = dom fields
                        /\ forall f t, fields !! f = Some t ->
                             exists v, data !! f = Some v /\ shape_ok t v = true)
                   r.
Proof.
  intros Hops Hty. eexists. split; [reflexivity|]. intros n w.
  set (g := mkBase _ _ _ _ _).
  destruct (Next_n_returns_with (fun c => c = fields)
              (fun d => exists data,
                   d = StructuredData data
                   /\ dom data = dom fields
                   /\ forall f t, fields !! f = Some t ->
                        exists v, data !! f = Some v /\ shape_ok t v = true)
              n g w) as (rs & g' & w' & Hrun & Hlen & _ & Hrs); [done|done| |].
  { intros c w1 ->. cbn [generateData g]. run_M.
    destruct (randomStructuredData fields w1) as [[d w2]|] eqn:E.
    - apply randomStructuredData_inv in E as (data & -> & Hdom & Hall).
      eexists _, _, _. split; [done|]. split; [done|].
      exists data. split; [done|]. split; [done|].
      intros f t Hf. by destruct (Hall f t Hf).
    - exfalso.
      assert (forall f t, (f, t) ∈ map_to_list fields -> t ∈ KnownTypes) as Hty'
        by (intros f t Hin; by apply (Hty f), elem_of_map_to_list).
      destruct (rangeFields_known (map_to_list fields) Hty'
                  (NoDup_fst_map_to_list fields) ∅ w1) as (data & w2 & Hr & _).
      unfold randomStructuredData in E. run_M. by rewrite Hr in E. }
  by exists rs, g', w'.
Qed.

(** X10: with a JSON library that reads back the names it wrote, every
    run of a generator of raw records gives as many records as asked
    for, and every slot an operation asks for holds raw bytes that parse
    as a JSON object with exactly the specified field names. *)
Theorem raw_records (coll : string) (ops : list Operation)
    (fields : gmap string string) (g : baseRecordGenerator (gmap string string)) :
  reads_back_names ext ->
  NewRawRecordGenerator coll ops fields = Ok g ->
  forall (n : nat) (w w' : World) (rs : list Record_)
         (g' : baseRecordGenerator (gmap string string)),
    Next_n n g w = Done ((rs, g'), w') ->
    length rs = n
    /\ forall r, r ∈ rs ->
         slots_hold
           (fun d =>
              exists bytes j,
                d = RawData bytes
                /\ json_Unmarshal bytes = Some j
                /\ dom j = dom fields)
           r.
Proof.
  intros Hcodec [= <-] n w w' rs g' H.
  refine (Next_n_slots_with (fun c => c = fields) _ n _ w w' rs g' _ _ H); [done|].
  intros c wa da ca wb -> Hrun. cbn [generateData] in Hrun. run_M.
  destruct (randomRawData fields wa) as [[d0 w0]|] eqn:E; [|done].
  injection Hrun as <- <- <-. split; [done|].
  unfold randomRawData in E. run_M.
  destruct (randomStructuredData fields wa) as [[sd ws]|] eqn:Es; [|done].
  apply randomStructuredData_inv in Es as (data & -> & Hdom & _).
  destruct (json_Marshal (StructuredData data)) as [bytes|] eqn:Em; [|done].
  injection E as <- <-. destruct (Hcodec data bytes Em) as (j & Hj & Hdj).
  exists bytes, j. by rewrite Hdj.
Qed.

End NextFacts.

(** ** Messages and patients *)

Module FormatFacts.
Import GoString GoStringFacts.

Lemma all_impl (p q : ascii -> bool) (s : string) :
  (forall c, p c = true -> q c = true) -> all p s = true -> all q s = true.
Proof.
  intros Hpq. induction s as [|c s IH]; [done|]. cbn [all].
  intros [Hc Hs]%andb_true_iff. by rewrite (Hpq c Hc), IH.
Qed.

Lemma num_char_clean (c : ascii) :
  SimpleJSON.is_num_char c = true ->
  negb (Ascii.eqb c "|") = true /\ negb (Ascii.eqb c nl) = true.
Proof.
  destruct c as [[] [] [] [] [] [] [] []]; vm_compute; intros H;
    first [discriminate H | done].
Qed.

Lemma num_clean (s : string) :
  all SimpleJSON.is_num_char s = true -> clean s = true.
Proof.
  intros H. unfold clean, free_of. apply andb_true_iff.
  split; (eapply all_impl; [|exact H]); intros c Hc; by apply num_char_clean.
Qed.

Lemma pad0_num (k : nat) (n : Z) : all SimpleJSON.is_num_char (pad0 k n) = true.
Proof.
  unfold pad0. destruct (n <? 0).
  - change ("-" +:+ ?x) with (String "-" x). cbn [all].
    rewrite all_append, ItoaFacts.all_repeat, SimpleJSONFacts.Itoa_num; done.
  - rewrite all_append, ItoaFacts.all_repeat, SimpleJSONFacts.Itoa_num; done.
Qed.

(** [%0kd] of a number of [[0, 10^k)] is [k] digits. *)
Lemma pad0_digits (k : nat) (n : Z) :
  (0 < k)%nat -> 0 <= n < Z.of_N (pow10 k) ->
  String.length (pad0 k n) = k /\ all Regexp.is_digit (pad0 k n) = true.
Proof.
  intros Hk Hn. destruct (ItoaFacts.Itoa_digits k n Hk Hn) as [Hall Hlen].
  unfold pad0. destruct (n <? 0) eqn:E; [apply Z.ltb_lt in E; lia|].
  rewrite length_append, all_append, ItoaFacts.length_repeat,
    ItoaFacts.all_repeat, Hall by done.
  split; [lia|done].
Qed.

Lemma clean_append (a b : string) :
  clean a = true -> clean b = true -> clean (a +:+ b) = true.
Proof.
  unfold clean, free_of. rewrite !all_append.
  intros [-> ->]%andb_true_iff [-> ->]%andb_true_iff. done.
Qed.

Lemma Lang_digits (n : nat) (s : string) :
  String.length s = n -> all Regexp.is_digit s = true ->
  Regexp.Lang (Regexp.times n Regexp.digit) s.
Proof. intros <- H. by apply RegexpFacts.Lang_times. Qed.

Lemma format_date_shape (y m d : Z) :
  0 <= y <= 9999 -> 0 <= m <= 99 -> 0 <= d <= 99 ->
  Regexp.matches re_birthdate (format_date y m d) = true.
Proof.
  intros Hy Hm Hd.
  destruct (pad0_digits 4 y) as [Ly Ay]; [lia|simpl; lia|].
  destruct (pad0_digits 2 m) as [Lm Am]; [lia|simpl; lia|].
  destruct (pad0_digits 2 d) as [Ld Ad]; [lia|simpl; lia|].
  apply RegexpFacts.matches_Lang. unfold re_birthdate, format_date.
  apply Regexp.L_Cat; [by apply Lang_digits|].
  apply (Regexp.L_Cat _ _ "-"); [constructor; reflexivity|].
  apply Regexp.L_Cat; [by apply Lang_digits|].
  apply (Regexp.L_Cat _ _ "-"); [constructor; reflexivity|].
  by apply Lang_digits.
Qed.

Lemma format_stamp_midnight_shape (y m d : Z) :
  0 <= y <= 9999 -> 0 <= m <= 99 -> 0 <= d <= 99 ->
  Regexp.matches re_birthtime (format_stamp_midnight y m d) = true
  /\ exists date, format_stamp_midnight y m d = date +:+ "000000"
                  /\ String.length date = 8%nat.
Proof.
  intros Hy Hm Hd.
  destruct (pad0_digits 4 y) as [Ly Ay]; [lia|simpl; lia|].
  destruct (pad0_digits 2 m) as [Lm Am]; [lia|simpl; lia|].
  destruct (pad0_digits 2 d) as [Ld Ad]; [lia|simpl; lia|].
  unfold format_stamp_midnight. split.
  - apply RegexpFacts.matches_Lang. unfold re_birthtime.
    apply Lang_digits; [by rewrite !length_append, Ly, Lm, Ld|].
    by rewrite !all_append, Ay, Am, Ad.
  - exists (pad0 4 y +:+ pad0 2 m +:+ pad0 2 d).
    split; [by rewrite !append_assoc|]. rewrite !length_append, Ly, Lm, Ld. done.
Qed.

Lemma free_of_concat (c sep : ascii) (l : list string) :
  negb (Ascii.eqb sep c) = true -> Forall (fun p => free_of c p = true) l ->
  free_of c (String.concat (String sep EmptyString) l) = true.
Proof.
  intros Hsep. induction 1 as [|x l Hx Hl IH]; [done|].
  destruct l as [|y l]; [done|]. rewrite concat_cons.
  unfold free_of in *. rewrite !all_append, Hx, IH. cbn [all]. by rewrite Hsep.
Qed.

End FormatFacts.

Ltac run_patient :=
  unfold GenerateHL7Message, GenerateFHIRPatient, HL7v3Patient_next,
    lastName, firstName, streetAddress, city, state, zipCode,
    gender, g_Intn, Rand_Intn, gofakeit_LastName, gofakeit_FirstName,
    gofakeit_Street, gofakeit_City, gofakeit_State, gofakeit_Zip, faker_next,
    time_Now in *;
  run_M;
  cbn -[wrap_int Itoa format_date format_stamp_midnight pad0 time_Format_stamp
        Z.modulo String.append] in *.

Section HL7.

Context `{ext : Externals}.

Import GoString GoStringFacts SplitFacts FormatFacts.

(** What a call of [GenerateHL7Message] returns. *)
Lemma GenerateHL7Message_run (g : Generator) (w : World) :
  exists message pid g' w' x1 x2 x3 x4 x5 x6 y m d,
    GenerateHL7Message g w = Done ((message, pid, g'), w')
    /\ message
       = String.concat "|" (msh_fields (time_Format_stamp (clock w (clock_reads w))))
         +:+ newline +:+ String.concat "|" (pid_fields pid)
    /\ SetID pid = "1"
    /\ PatientID pid = Itoa (wrap_int (patientIDCounter g + 1))
    /\ PatientName pid = gofakeit_LastName_of x1 +:+ "^" +:+ gofakeit_FirstName_of x2
    /\ DateOfBirth pid = format_date y m d
    /\ 1920 <= y <= 2019 /\ 1 <= m <= 12 /\ 1 <= d <= 28
    /\ (pid_Gender pid = "male" \/ pid_Gender pid = "female")
    /\ pid_Address pid
       = gofakeit_Street_of x3 +:+ "^" +:+ gofakeit_City_of x4 +:+ "^"
         +:+ gofakeit_State_of x5 +:+ "^" +:+ gofakeit_Zip_of x6 +:+ "^USA"
    /\ patientIDCounter g' = wrap_int (patientIDCounter g + 1).
Proof.
  run_patient.
  set (r := outputs (rand g)). set (k := consumed (rand g)).
  eexists _, _, _, _, _, _, _, _, _, _, (1920 + r k mod 100),
    (1 + r (S k) mod 12), (1 + r (S (S k)) mod 28).
  split; [reflexivity|].
  pose proof (Z.mod_pos_bound (r k) 100 ltac:(lia)).
  pose proof (Z.mod_pos_bound (r (S k)) 12 ltac:(lia)).
  pose proof (Z.mod_pos_bound (r (S (S k))) 28 ltac:(lia)).
  cbn [SetID PatientID PatientName DateOfBirth pid_Gender pid_Address patientIDCounter].
  split; [|split; [done|]; split; [done|]; split; [reflexivity|];
           split; [reflexivity|]; split; [lia|]; split; [lia|]; split; [lia|];
           split; [destruct (_ =? 0); auto|]; split; reflexivity].
  unfold msh_fields, pid_fields.
  cbn [String.concat SetID PatientID PatientName DateOfBirth pid_Gender pid_Address].
  rewrite !append_assoc. reflexivity.
Qed.

Lemma msh_fields_clean (stamp : string) :
  clean stamp = true -> Forall (fun f => clean f = true) (msh_fields stamp).
Proof. intros H. unfold msh_fields. repeat (constructor; [first [exact H|reflexivity]|]). constructor. Qed.

Lemma Itoa_clean (n : Z) : clean (Itoa n) = true.
Proof. apply num_clean, SimpleJSONFacts.Itoa_num. Qed.

Lemma format_date_clean (y m d : Z) : clean (format_date y m d) = true.
Proof.
  unfold format_date.
  repeat (apply clean_append; [first [apply num_clean, pad0_num|reflexivity]|]).
  apply num_clean, pad0_num.
Qed.

Lemma Forall_clean (c : ascii) (l : list string) :
  c = "|"%char \/ c = nl ->
  Forall (fun f => clean f = true) l -> Forall (fun f => free_of c f = true) l.
Proof.
  intros Hc H. eapply Forall_impl; [exact H|]. intros f [H1 H2]%andb_true_iff.
  by destruct Hc as [->| ->].
Qed.

(** A clean list of fields, written as the first segment, is read back,
    whatever follows the line break. *)
Lemma first_segment_read_back (l1 : list string) (rest : string) :
  l1 <> [] -> Forall (fun f => clean f = true) l1 ->
  segment_fields (String.concat "|" l1 +:+ newline +:+ rest) 0 = Done l1.
Proof.
  intros Hn1 H1. unfold segment_fields.
  change (newline +:+ rest) with (String nl rest).
  rewrite Split_app by (apply free_of_concat; [done|by apply Forall_clean; [right|]]).
  cbn [lookup list_lookup].
  by rewrite Split_concat by (first [done | by apply Forall_clean; [left|]]).
Qed.

(** Two clean lists of fields, written as two segments, are read back. *)
Lemma segments_read_back (l1 l2 : list string) :
  l1 <> [] -> l2 <> [] ->
  Forall (fun f => clean f = true) l1 -> Forall (fun f => clean f = true) l2 ->
  let message := String.concat "|" l1 +:+ newline +:+ String.concat "|" l2 in
  segment_fields message 0 = Done l1
  /\ segment_fields message 1 = Done l2
  /\ segment_fields message 2 = Panic "index out of range".
Proof.
  intros Hn1 Hn2 H1 H2 message.
  assert (Split message nl = [String.concat "|" l1; String.concat "|" l2]) as E.
  { subst message.
    change (newline +:+ String.concat "|" l2) with (String nl (String.concat "|" l2)).
    rewrite Split_app by (apply free_of_concat; [done|by apply Forall_clean; [right|]]).
    by rewrite Split_free
      by (apply free_of_concat; [done|by apply Forall_clean; [right|]]). }
  unfold segment_fields. rewrite E. cbn [lookup list_lookup].
  split; [|split; [|done]];
    by rewrite Split_concat by (first [done | by apply Forall_clean; [left|]]).
Qed.

(** X16: with a time stamp free of separators, the first line of a
    message of [GenerateHL7Message], split at the bars as the tests do,
    gives back the thirteen header fields: application and facility
    names, the stamp of the clock reading twice, the message type, the
    processing identity and the version. *)
Theorem HL7_MSH_segment (g : Generator) (w w' : World) (message : string)
    (pid : PIDSegment) (g' : Generator) :
  stamp_clean ext ->
  GenerateHL7Message g w = Done ((message, pid, g'), w') ->
  segment_fields message 0
  = Done (msh_fields (time_Format_stamp (clock w (clock_reads w)))).
Proof.
  intros Hstamp Hrun.
  destruct (GenerateHL7Message_run g w)
    as (message' & pid' & g1 & w1 & x1 & x2 & x3 & x4 & x5 & x6 & y & m & d & H).
  destruct H as (Hrun' & Hm & _). rewrite Hrun' in Hrun.
  injection Hrun as <- <- <- <-. rewrite Hm.
  apply first_segment_read_back; [done|]. apply msh_fields_clean, Hstamp.
Qed.

Lemma pid_fields_clean (pid : PIDSegment) (x1 x2 x3 x4 x5 x6 y m d n : Z) :
  words_clean ext ->
  SetID pid = "1" -> PatientID pid = Itoa n ->
  PatientName pid = gofakeit_LastName_of x1 +:+ "^" +:+ gofakeit_FirstName_of x2 ->
  DateOfBirth pid = format_date y m d ->
  (pid_Gender pid = "male" \/ pid_Gender pid = "female") ->
  pid_Address pid
  = gofakeit_Street_of x3 +:+ "^" +:+ gofakeit_City_of x4 +:+ "^"
    +:+ gofakeit_State_of x5 +:+ "^" +:+ gofakeit_Zip_of x6 +:+ "^USA" ->
  Forall (fun f => clean f = true) (pid_fields pid).
Proof.
  intros Hw E1 E2 E3 E4 Hg E5. unfold pid_fields. rewrite E1, E2, E3, E4, E5.
  destruct (Hw x1) as (_ & L1 & _). destruct (Hw x2) as (F2 & _).
  destruct (Hw x3) as (_ & _ & S3 & _). destruct (Hw x4) as (_ & _ & _ & C4 & _).
  destruct (Hw x5) as (_ & _ & _ & _ & T5 & _).
  destruct (Hw x6) as (_ & _ & _ & _ & _ & Z6).
  assert (clean (pid_Gender pid) = true) as G by (by destruct Hg as [->| ->]).
  repeat (constructor;
          [first [reflexivity | apply Itoa_clean | apply format_date_clean | exact G
                 | repeat (apply clean_append; [first [done|reflexivity]|]);
                   first [done|reflexivity]]|]).
  constructor.
Qed.

(** X17: with stamps and words free of separators, the second line of a
    message of [GenerateHL7Message] splits into the fields of the patient
    segment and there is no third line; field 3 is the counter after the
    call, the set identity is 1, the gender is male or female, and the
    birth date has the layout yyyy-mm-dd. *)
Theorem HL7_PID_segment (g : Generator) (w w' : World) (message : string)
    (pid : PIDSegment) (g' : Generator) :
  stamp_clean ext -> words_clean ext ->
  GenerateHL7Message g w = Done ((message, pid, g'), w') ->
  segment_fields message 1 = Done (pid_fields pid)
  /\ segment_fields message 2 = Panic "index out of range"
  /\ hl7_PatientID message = Done (Itoa (wrap_int (patientIDCounter g + 1)))
  /\ SetID pid = "1"
  /\ PatientID pid = Itoa (wrap_int (patientIDCounter g + 1))
  /\ (pid_Gender pid = "male" \/ pid_Gender pid = "female")
  /\ Regexp.matches re_birthdate (DateOfBirth pid) = true.
Proof.
  intros Hstamp Hwords Hrun.
  destruct (GenerateHL7Message_run g w)
    as (message' & pid' & g1 & w1 & x1 & x2 & x3 & x4 & x5 & x6 & y & m & d & H).
  destruct H as (Hrun' & Hm & Hset & Hid & Hname & Hdob & Hy & Hmo & Hd & Hgen & Haddr & _).
  rewrite Hrun' in Hrun. injection Hrun as <- <- <- <-.
  destruct (segments_read_back
              (msh_fields (time_Format_stamp (clock w (clock_reads w))))
              (pid_fields pid')) as (_ & H1 & H2);
    [done|done|apply msh_fields_clean, Hstamp
    |by apply (pid_fields_clean pid' x1 x2 x3 x4 x5 x6 y m d
                 (wrap_int (patientIDCounter g + 1)) Hwords)|].
  cbv zeta in H1, H2. rewrite <- Hm in H1, H2.
  split; [done|]. split; [done|].
  split; [unfold hl7_PatientID; rewrite H1; cbn; by rewrite Hid|].
  split; [done|]. split; [done|]. split; [done|].
  rewrite Hdob. apply format_date_shape; lia.
Qed.

End HL7.

Section PatientShapes.

Context `{ext : Externals}.

Import FormatFacts.

(** X14: [GenerateFHIRPatient] always returns, with one name of one
    family and one given name, one address of one line in the USA, a
    gender male or female, and a birth date yyyy-mm-dd of a year from
    1920 to 2019 and a day up to 28. *)
Theorem GenerateFHIRPatient_shape (g : Generator) (w : World) :
  exists p g' w' family given line town region zip y m d,
    GenerateFHIRPatient g w = Done ((p, g'), w')
    /\ fhir_Name p = [mkFHIRName [family] [given]]
    /\ fhir_Address p = [mkFHIRAddress [line] town region zip "USA"]
    /\ (fhir_Gender p = "male" \/ fhir_Gender p = "female")
    /\ fhir_BirthDate p = format_date y m d
    /\ 1920 <= y <= 2019 /\ 1 <= m <= 12 /\ 1 <= d <= 28
    /\ Regexp.matches re_birthdate (fhir_BirthDate p) = true.
Proof.
  run_patient.
  set (r := outputs (rand g)). set (k := consumed (rand g)).
  eexists _, _, _, _, _, _, _, _, _, (r (S k) mod 100 + 1920),
    (r (S (S k)) mod 12 + 1), (r (S (S (S k))) mod 28 + 1).
  split; [reflexivity|].
  pose proof (Z.mod_pos_bound (r (S k)) 100 ltac:(lia)).
  pose proof (Z.mod_pos_bound (r (S (S k))) 12 ltac:(lia)).
  pose proof (Z.mod_pos_bound (r (S (S (S k)))) 28 ltac:(lia)).
  cbn [fhir_Name fhir_Address fhir_Gender fhir_BirthDate].
  split; [reflexivity|]. split; [reflexivity|].
  split; [destruct (_ =? 0); auto|]. split; [reflexivity|].
  split; [lia|]. split; [lia|]. split; [lia|].
  apply format_date_shape; lia.
Qed.

(** X15: [GenerateHL7v3Message] always returns: the patient has one
    name, one address, gender M or F and a birth time of fourteen digits
    at midnight of a day from 1950 to 1999; the bytes are the prolog
    followed by the marshalled patient, or an error when marshalling
    fails. *)
Theorem GenerateHL7v3Message_shape (g : Generator) (w : World) :
  exists bytes p g' w' given family street town region zip y m d,
    GenerateHL7v3Message g w = Done ((bytes, p, g'), w')
    /\ v3_Name p = [mkHL7v3Name [given] family]
    /\ v3_Address p = [mkHL7v3Address [street] town region zip]
    /\ (v3_Gender p = "M" \/ v3_Gender p = "F")
    /\ v3_BirthTime p = format_stamp_midnight y m d
    /\ 1950 <= y <= 1999 /\ 1 <= m <= 12 /\ 1 <= d <= 28
    /\ Regexp.matches re_birthtime (v3_BirthTime p) = true
    /\ match xml_MarshalIndent p with
       | Some xmlData => bytes = Ok (xml_prolog +:+ xmlData)
       | None => exists e, bytes = Err e
       end.
Proof.
  unfold GenerateHL7v3Message. run_patient.
  set (r := outputs (rand g)). set (k := consumed (rand g)).
  set (p := mkHL7v3Patient _ _ _ _ _).
  pose proof (Z.mod_pos_bound (r (S k)) 50 ltac:(lia)).
  pose proof (Z.mod_pos_bound (r (S (S k))) 12 ltac:(lia)).
  pose proof (Z.mod_pos_bound (r (S (S (S k)))) 28 ltac:(lia)).
  assert (v3_Name p = [mkHL7v3Name
                         [gofakeit_FirstName_of
                            (outputs (faker_rand w) (consumed (faker_rand w)))]
                         (gofakeit_LastName_of
                            (outputs (faker_rand w) (S (consumed (faker_rand w)))))]
          /\ (exists street town region zip,
                v3_Address p = [mkHL7v3Address [street] town region zip])
          /\ (v3_Gender p = "M" \/ v3_Gender p = "F")
          /\ v3_BirthTime p
             = format_stamp_midnight (1950 + r (S k) mod 50)
                 (1 + r (S (S k)) mod 12) (1 + r (S (S (S k))) mod 28)
          /\ Regexp.matches re_birthtime (v3_BirthTime p) = true)
    as (Hname & (street & town & region & zip & Haddr) & Hgen & Hbirth & Hshape).
  { subst p. cbn [v3_Name v3_Address v3_Gender v3_BirthTime].
    split; [reflexivity|]. split; [by eexists _, _, _, _|].
    split; [destruct (_ =? 0); auto|]. split; [reflexivity|].
    apply format_stamp_midnight_shape; lia. }
  clearbody p.
  destruct (xml_MarshalIndent p) as [xmlData|] eqn:E.
  - exists (Ok (xml_prolog +:+ xmlData)), p.
    eexists _, _, _, _, street, town, region, zip, _, _, _.
    split; [reflexivity|]. rewrite E. repeat (split; [first [done|lia]|]). done.
  - exists (Err "failed to marshal HL7 v3 XML"), p.
    eexists _, _, _, _, street, town, region, zip, _, _, _.
    split; [reflexivity|]. rewrite E. repeat (split; [first [done|lia]|]). by eexists.
Qed.

End PatientShapes.

Section HL7Records.

Context `{ext : Externals}.

Lemma hl7_payload_run (gen gen' : Generator) (w w' : World) (d : Data) :
  stamp_clean ext -> words_clean ext ->
  hl7_payload gen w = Done ((d, gen'), w') ->
  exists message,
    d = RawData message
    /\ hl7_PatientID message = Done (Itoa (wrap_int (patientIDCounter gen + 1)))
    /\ patientIDCounter gen' = wrap_int (patientIDCounter gen + 1).
Proof.
  intros Hstamp Hwords Hrun. unfold hl7_payload in Hrun. run_M.
  destruct (GenerateHL7Message_run gen w)
    as (message & pid & g1 & w1 & x1 & x2 & x3 & x4 & x5 & x6 & y & m & dd & H).
  destruct H as (Hrun' & Hm & Hset & Hid & Hname & Hdob & _ & _ & _ & Hgen & Haddr & Hc).
  rewrite Hrun' in Hrun. injection Hrun as <- <- <-.
  exists message. split; [done|]. split; [|done].
  destruct (segments_read_back
              (msh_fields (time_Format_stamp (clock w (clock_reads w))))
              (pid_fields pid)) as (_ & H1 & _);
    [done|done|apply msh_fields_clean, Hstamp
    |by apply (pid_fields_clean pid x1 x2 x3 x4 x5 x6 y m dd
                 (wrap_int (patientIDCounter gen + 1)) Hwords)|].
  cbv zeta in H1. rewrite <- Hm in H1.
  unfold hl7_PatientID. rewrite H1. cbn. by rewrite Hid.
Qed.

(** X18: a record of the HL7 record generator uses up one patient
    identity per payload: an update carries two messages with
    consecutive identities, before first, and any other operation one
    message; the counter of the generator advances by as much. *)
Theorem HL7_update_takes_two_identities (g : baseRecordGenerator Generator)
    (w w' : World) (r : Record_) (g' : baseRecordGenerator Generator) :
  stamp_clean ext -> words_clean ext ->
  generateData g = hl7_payload ->
  0 <= patientIDCounter (captured g) ->
  patientIDCounter (captured g) + 2 <= max_int ->
  Next g w = Done ((r, g'), w') ->
  patientIDCounter (captured g')
  = patientIDCounter (captured g) + payload_slots (Operation_ r)
  /\ match Operation_ r with
     | OperationUpdate =>
         exists before after,
           Payload r = mkChange (Some (RawData before)) (Some (RawData after))
           /\ hl7_PatientID before = Done (Itoa (patientIDCounter (captured g) + 1))
           /\ hl7_PatientID after = Done (Itoa (patientIDCounter (captured g) + 2))
     | _ =>
         exists message,
           payloads r = [RawData message]
           /\ hl7_PatientID message = Done (Itoa (patientIDCounter (captured g) + 1))
     end.
Proof.
  intros Hstamp Hwords Hgen H0 Hmax H.
  apply Next_inv in H as (now & w1 & i & w2 & word & w3 & H).
  destruct H as (_ & _ & _ & _ & _ & _ & _ & _ & _ & _ & H).
  rewrite Hgen in H. unfold payloads.
  set (c := patientIDCounter (captured g)) in *.
  assert (wrap_int (c + 1) = c + 1) as W1
    by (apply IntFacts.wrap_int_id; unfold min_int; lia).
  assert (wrap_int (c + 1 + 1) = c + 2) as W2
    by (rewrite IntFacts.wrap_int_id; unfold min_int; lia).
  destruct (Operation_ r);
    [destruct H as (d & Hd & ->)
    |destruct H as (d1 & c1 & w4 & d2 & Hd1 & Hd2 & ->)
    |destruct H as (d & Hd & ->)
    |destruct H as (d & Hd & ->)]; cbn [payload_slots Before After].
  - apply hl7_payload_run in Hd as (m & -> & Hid & Hc); [|done..].
    fold c in Hid, Hc. rewrite W1 in Hid, Hc. split; [done|]. by exists m.
  - apply hl7_payload_run in Hd1 as (m1 & -> & Hid1 & Hc1); [|done..].
    apply hl7_payload_run in Hd2 as (m2 & -> & Hid2 & Hc2); [|done..].
    fold c in Hid1, Hc1. rewrite W1 in Hid1, Hc1.
    rewrite Hc1, W2 in Hid2, Hc2. split; [done|]. by exists m1, m2.
  - apply hl7_payload_run in Hd as (m & -> & Hid & Hc); [|done..].
    fold c in Hid, Hc. rewrite W1 in Hid, Hc. split; [done|]. by exists m.
  - apply hl7_payload_run in Hd as (m & -> & Hid & Hc); [|done..].
    fold c in Hid, Hc. rewrite W1 in Hid, Hc. split; [done|]. by exists m.
Qed.

End HL7Records.

Section Seeds.

Context `{ext : Externals}.

(** X19: a document's identity, gender and birth date depend on the
    generator alone, not on the shared surroundings, while the names and
    the address come from the shared source of gofakeit alone, whatever
    the seed of the generator. *)
Theorem seed_fixes_identity_gender_birth (k : DocKind) :
  (forall (g : Generator) (w1 w2 : World),
      exists d1 d2 g' w1' w2',
        Generate k g w1 = Done ((d1, g'), w1')
        /\ Generate k g w2 = Done ((d2, g'), w2')
        /\ identity d1 = identity d2
        /\ gender_of d1 = gender_of d2
        /\ birth_of d1 = birth_of d2)
  /\ (forall (g1 g2 : Generator) (w : World),
        exists d1 d2 g1' g2' w',
          Generate k g1 w = Done ((d1, g1'), w')
          /\ Generate k g2 w = Done ((d2, g2'), w')
          /\ words_of d1 = words_of d2).
Proof.
  split.
  - intros g w1 w2. destruct k; unfold Generate, GenerateHL7v3Message; run_patient.
    + by eexists _, _, _, _, _.
    + by eexists _, _, _, _, _.
    + do 2 destruct (xml_MarshalIndent _); by eexists _, _, _, _, _.
  - intros g1 g2 w. destruct k; unfold Generate, GenerateHL7v3Message; run_patient.
    + by eexists _, _, _, _, _.
    + by eexists _, _, _, _, _.
    + do 2 destruct (xml_MarshalIndent _); by eexists _, _, _, _, _.
Qed.

End Seeds.

(** ** The order of the fields, the clock *)

Section LoopOrder.

Context `{ext : Externals}.

(** X12: the loop over the field specification may visit the fields in
    any order: with known types it returns data with exactly the
    specified fields, each value of the form of its type, and with an
    unknown type anywhere it panics. *)
Theorem loop_order_irrelevant (fields : gmap string string)
    (kvs : list (string * string)) (w : World) :
  kvs ≡ₚ map_to_list fields ->
  ((forall f t, fields !! f = Some t -> t ∈ KnownTypes) ->
   exists data w',
     rangeFields kvs ∅ w = Done (data, w')
     /\ dom data = dom fields
     /\ forall f t, fields !! f = Some t ->
          exists v, data !! f = Some v /\ shape_ok t v = true)
  /\ (forall f t, fields !! f = Some t -> t ∉ KnownTypes ->
        exists reason, rangeFields kvs ∅ w = Panic reason).
Proof.
  intros Hperm. split.
  - intros Hty. by apply rangeFields_any_order.
  - intros f t Hf Hty. apply (rangeFields_unknown kvs f t); [|done].
    rewrite Hperm. by apply elem_of_map_to_list.
Qed.

(** X13: a field of type "duration" is zero whenever the shared random
    source gives a multiple of 1000. *)
Theorem duration_may_be_zero (field : string) (w : World) :
  outputs (global_rand w) (consumed (global_rand w)) mod 1000 = 0 ->
  exists w',
    randomStructuredData {[ field := "duration" ]} w
    = Done (StructuredData {[ field := VDuration 0 ]}, w').
Proof.
  intros H. unfold randomStructuredData. rewrite map_to_list_singleton.
  cbn [rangeFields]. unfold fieldValue.
  change (String.eqb "duration" "int") with false.
  change (String.eqb "duration" "string") with false.
  change (String.eqb "duration" "time") with false.
  change (String.eqb "duration" "duration") with true.
  cbv iota. unfold rand_Intn, Rand_Intn, Rand_next. run_M.
  change (1000 <=? 0) with false. cbv iota. rewrite H.
  eexists. reflexivity.
Qed.

End LoopOrder.

Section Clock.

Context `{ext : Externals}.

Lemma clock_after_refl (w : World) : clock_after w w.
Proof. by split. Qed.

Lemma faker_bytes_clock (n : nat) (w w' : World) (bs : list Z) :
  faker_bytes n w = Done (bs, w') -> clock_after w w'.
Proof.
  revert w bs. induction n as [|n IH]; intros w bs H.
  - cbn [faker_bytes] in H. run_M. injection H as <- <-. apply clock_after_refl.
  - cbn [faker_bytes] in H. run_M.
    destruct (faker_next w) as [[x w1]|] eqn:Ex; [|done].
    destruct (faker_bytes n w1) as [[bs' w2]|] eqn:E; [|done].
    injection H as <- <-. apply IH in E.
    unfold faker_next, Rand_next in Ex. injection Ex as _ <-.
    destruct E as [E1 E2]. by split.
Qed.

Lemma rand_Int_clock (w w' : World) (x : Z) :
  rand_Int w = Done (x, w') -> clock_after w w'.
Proof. unfold rand_Int, Rand_Int, Rand_next. intros [= _ <-]. by split. Qed.

Lemma rand_Intn_clock (n : Z) (w w' : World) (x : Z) :
  rand_Intn n w = Done (x, w') -> clock_after w w'.
Proof.
  unfold rand_Intn, Rand_Intn, Rand_next. destruct (n <=? 0); [done|].
  intros [= _ <-]. by split.
Qed.

Lemma faker_next_clock (w w' : World) (x : Z) :
  faker_next w = Done (x, w') -> clock_after w w'.
Proof. unfold faker_next, Rand_next. intros [= _ <-]. by split. Qed.

Lemma gofakeit_Number_clock (lo hi : Z) (w w' : World) (x : Z) :
  gofakeit_Number lo hi w = Done (x, w') -> clock_after w w'.
Proof.
  unfold gofakeit_Number. destruct (lo =? hi).
  - run_M. intros [= _ <-]. apply clock_after_refl.
  - run_M. destruct (faker_next w) as [[y w1]|] eqn:E; [|done].
    intros [= _ <-]. by apply faker_next_clock in E.
Qed.

Lemma gofakeit_UUID_clock (w w' : World) (u : string) :
  gofakeit_UUID w = Done (u, w') -> clock_after w w'.
Proof.
  unfold gofakeit_UUID. run_M.
  destruct (faker_bytes 16 w) as [[bs w1]|] eqn:E; [|done].
  intros [= _ <-]. by apply faker_bytes_clock in E.
Qed.

Ltac bind_clock m lem :=
  run_M; let E := fresh "E" in
  destruct m as [[? ?]|] eqn:E; [|done];
  intros [= <- <-]; split; [by apply lem in E|discriminate].

Lemma fieldValue_clock (field typ : string) (w w' : World) (v : Value) :
  fieldValue field typ w = Done (v, w') ->
  clock_after w w'
  /\ (typ = "time" -> v = VTime (clock w (clock_reads w))).
Proof.
  unfold fieldValue.
  repeat match goal with
         | |- context [String.eqb typ ?s] =>
             destruct (String.eqb_spec typ s) as [->|?]
         end.
  - bind_clock (rand_Int w) rand_Int_clock.
  - unfold randomWord. run_M. destruct (rand_Int w) as [[x w1]|] eqn:E; [|done].
    intros [= <- <-]. split; [by apply rand_Int_clock in E|discriminate].
  - unfold time_Now. run_M. intros [= <- <-]. split; [|done].
    split; [done|cbn; lia].
  - bind_clock (rand_Intn 1000 w) rand_Intn_clock.
  - bind_clock (rand_Int w) rand_Int_clock.
  - unfold gofakeit_Name. run_M. destruct (faker_next w) as [[x w1]|] eqn:E; [|done].
    intros [= <- <-]. split; [by apply faker_next_clock in E|discriminate].
  - unfold gofakeit_Email. run_M. destruct (faker_next w) as [[x w1]|] eqn:E; [|done].
    intros [= <- <-]. split; [by apply faker_next_clock in E|discriminate].
  - bind_clock (gofakeit_Number 1000 9999 w) gofakeit_Number_clock.
  - bind_clock (gofakeit_Number 0 9999 w) gofakeit_Number_clock.
  - bind_clock (gofakeit_Number 0 9999 w) gofakeit_Number_clock.
  - bind_clock (gofakeit_UUID w) gofakeit_UUID_clock.
  - unfold panic. discriminate.
Qed.

Lemma rangeFields_outside (kvs : list (string * string)) (data data' : gmap string Value)
    (w w' : World) :
  rangeFields kvs data w = Done (data', w') ->
  forall f, f ∉ kvs.*1 -> data' !! f = data !! f.
Proof.
  revert data w. induction kvs as [|[f0 t0] kvs IH]; intros data w H f Hf.
  - cbn in H. run_M. by injection H as <- <-.
  - cbn [rangeFields] in H. run_M.
    destruct (fieldValue f0 t0 w) as [[v w1]|]; [|done].
    apply not_elem_of_cons in Hf as [Hne Hf].
    rewrite (IH _ _ H f Hf). by apply lookup_insert_ne.
Qed.

Lemma rangeFields_clock (kvs : list (string * string)) (data data' : gmap string Value)
    (w w' : World) :
  NoDup kvs.*1 ->
  rangeFields kvs data w = Done (data', w') ->
  clock_after w w'
  /\ forall f, (f, "time") ∈ kvs ->
       exists k, (clock_reads w <= k)%nat /\ data' !! f = Some (VTime (clock w k)).
Proof.
  revert data w. induction kvs as [|[f0 t0] kvs IH]; intros data w Hnd H.
  - cbn in H. run_M. injection H as <- <-. split; [apply clock_after_refl|].
    intros f Hf. by apply elem_of_nil in Hf.
  - cbn [rangeFields] in H. run_M.
    destruct (fieldValue f0 t0 w) as [[v w1]|] eqn:Ev; [|done].
    apply fieldValue_clock in Ev as [[Ec Er] Hv].
    apply NoDup_cons in Hnd as [Hf0 Hnd].
    destruct (IH _ _ Hnd H) as [[Ec' Er'] Hrest].
    split; [split; [congruence|lia]|].
    intros f [[= -> <-]|Hf]%elem_of_cons.
    + exists (clock_reads w). split; [lia|].
      rewrite (rangeFields_outside _ _ _ _ _ H f0 Hf0), lookup_insert_eq.
      by rewrite Hv.
    + destruct (Hrest f Hf) as (k & Hk & Hd). exists k. split; [lia|].
      by rewrite Hd, Ec.
Qed.

Lemma randomStructuredData_clock (fields : gmap string string) (w w' : World)
    (d : Data) (f : string) :
  fields !! f = Some "time" ->
  randomStructuredData fields w = Done (d, w') ->
  clock_after w w'
  /\ exists data k,
       d = StructuredData data
       /\ (clock_reads w <= k)%nat /\ data !! f = Some (VTime (clock w k)).
Proof.
  intros Hf H. unfold randomStructuredData in H. run_M.
  destruct (rangeFields _ _ w) as [[data w1]|] eqn:E; [|done].
  injection H as <- <-.
  apply rangeFields_clock in E as [Hc Ht]; [|apply NoDup_fst_map_to_list].
  split; [done|]. destruct (Ht f) as (k & Hk & Hd); [by apply elem_of_map_to_list|].
  by exists data, k.
Qed.

(** One call of [Next] on a generator of structured records with a
    time field. *)
Lemma Next_time_fields (fields : gmap string string) (field : string)
    (g : baseRecordGenerator (gmap string string)) (w w' : World) (r : Record_)
    (g' : baseRecordGenerator (gmap string string)) :
  fields !! field = Some "time" ->
  generateData g = (fun fields => d ← randomStructuredData fields; mret (d, fields)) ->
  captured g = fields ->
  clock_monotone w ->
  Next g w = Done ((r, g'), w') ->
  clock w' = clock w
  /\ captured g' = fields
  /\ exists created,
       (forall key, key <> "collection" ->
          Metadata r !! key = SetCreatedAt created ∅ !! key)
       /\ slots_hold
            (fun d =>
               exists data t,
                 d = StructuredData data
                 /\ data !! field = Some (VTime t)
                 /\ created <= t)
            r.
Proof.
  intros Hf Hgen Hcap Hmono H.
  pose proof (Next_metadata_inv _ _ _ _ _ H) as Hmeta.
  apply Next_inv in H as (now & w1 & i & w2 & word & w3 & H).
  destruct H as (Hnow & Hi & _ & Hword & _ & _ & _ & _ & _ & _ & Hop).
  assert (clock w3 = clock w /\ (clock_reads w < clock_reads w3)%nat) as [Ec Er].
  { unfold time_Now in Hnow. injection Hnow as _ <-.
    unfold rand_Intn, Rand_Intn in Hi. destruct (_ <=? 0); [done|].
    cbn in Hi. injection Hi as _ <-.
    unfold randomWord, rand_Int in Hword. run_M. cbn in Hword.
    injection Hword as _ <-. split; [done|cbn; lia]. }
  assert (forall wa d ca wb,
             clock wa = clock w -> (clock_reads w < clock_reads wa)%nat ->
             generateData g fields wa = Done ((d, ca), wb) ->
             ca = fields /\ clock wb = clock w
             /\ (clock_reads w < clock_reads wb)%nat
             /\ exists data t,
                  d = StructuredData data /\ data !! field = Some (VTime t)
                  /\ clock w (clock_reads w) <= t) as Hone.
  { intros wa d ca wb Eca Era Hrun. rewrite Hgen in Hrun. run_M.
    destruct (randomStructuredData fields wa) as [[d0 w0]|] eqn:E; [|done].
    injection Hrun as <- <- <-.
    apply (randomStructuredData_clock fields wa w0 d0 field Hf) in E
      as [[Ec0 Er0] (data & k & -> & Hk & Hd)].
    split; [done|]. split; [congruence|]. split; [lia|].
    exists data, (clock wa k). split; [done|]. split; [done|].
    rewrite Eca. apply Hmono. lia. }
  assert (forall key, key <> "collection" ->
            Metadata r !! key = SetCreatedAt (clock w (clock_reads w)) ∅ !! key)
    as Hkeys.
  { intros key Hkey. rewrite Hmeta.
    destruct (String.eqb (collection g) ""); [done|]. by rewrite lookup_insert_ne. }
  rewrite Hcap in Hop. unfold slots_hold.
  destruct (Operation_ r);
    [destruct Hop as (d & Hd & ->)
    |destruct Hop as (d1 & c1 & w4 & d2 & Hd1 & Hd2 & ->)
    |destruct Hop as (d & Hd & ->)
    |destruct Hop as (d & Hd & ->)].
  - destruct (Hone _ _ _ _ Ec Er Hd) as (Hc & Ec' & _ & Hp).
    split; [done|]. split; [done|]. eexists. split; [exact Hkeys|]. by exists d.
  - destruct (Hone _ _ _ _ Ec Er Hd1) as (-> & Ec1 & Er1 & Hp1).
    destruct (Hone _ _ _ _ Ec1 Er1 Hd2) as (Hc & Ec' & _ & Hp2).
    split; [done|]. split; [done|]. eexists. split; [exact Hkeys|]. by exists d1, d2.
  - destruct (Hone _ _ _ _ Ec Er Hd) as (Hc & Ec' & _ & Hp).
    split; [done|]. split; [done|]. eexists. split; [exact Hkeys|]. by exists d.
  - destruct (Hone _ _ _ _ Ec Er Hd) as (Hc & Ec' & _ & Hp).
    split; [done|]. split; [done|]. eexists. split; [exact Hkeys|]. by exists d.
Qed.

(** X11: under a clock that never runs backwards, every record of a
    generator of structured records whose specification has a field of
    type "time" carries, in every slot its operation asks for, a value of
    that field that is not before the creation time [Next] wrote into the
    metadata of the same record. *)
Theorem time_fields_follow_createdAt (coll : string) (ops : list Operation)
    (fields : gmap string string) (g : baseRecordGenerator (gmap string string))
    (field : string) :
  NewStructuredRecordGenerator coll ops fields = Ok g ->
  fields !! field = Some "time" ->
  forall (n : nat) (w w' : World) (rs : list Record_)
         (g' : baseRecordGenerator (gmap string string)),
    clock_monotone w ->
    Next_n n g w = Done ((rs, g'), w') ->
    length rs = n
    /\ forall r, r ∈ rs ->
         exists created,
           (forall key, key <> "collection" ->
              Metadata r !! key = SetCreatedAt created ∅ !! key)
           /\ slots_hold
                (fun d =>
                   exists data t,
                     d = StructuredData data
                     /\ data !! field = Some (VTime t)
                     /\ created <= t)
                r.
Proof.
  intros [= <-] Hf n. set (g := mkBase _ _ _ _ _).
  assert (generateData g
          = (fun fields => d ← randomStructuredData fields; mret (d, fields)))
    as Hgen by done.
  assert (captured g = fields) as Hcap by done.
  clearbody g. revert g Hgen Hcap.
  induction n as [|n IH]; intros g Hgen Hcap w w' rs g' Hmono H.
  - cbn in H. run_M. injection H as <- <- <-. split; [done|].
    intros r Hr. by apply elem_of_nil in Hr.
  - apply Next_n_inv in H as (r1 & g1 & w1 & rs' & HN & Hrest & ->).
    destruct (Next_time_fields fields field g w w1 r1 g1 Hf Hgen Hcap Hmono HN)
      as (Ec & Hcap1 & Hr1).
    apply Next_inv in HN as (? & ? & ? & ? & ? & ? & HN).
    destruct HN as (_ & _ & _ & _ & _ & _ & _ & _ & Hgen' & _).
    destruct (IH g1 ltac:(by rewrite Hgen') Hcap1 w1 w' rs' g') as [Hlen Hrs];
      [by unfold clock_monotone; rewrite Ec|done|].
    split; [simpl; lia|].
    intros r [->|Hr]%elem_of_cons; [done|by apply Hrs].
Qed.

End Clock.

(** ** Runs on the example surroundings *)

Section Returns.

Context `{ext : Externals}.

Lemma randomStructuredData_returns (fields : gmap string string) (w : World) :
  (forall f t, fields !! f = Some t -> t ∈ KnownTypes) ->
  exists data w', randomStructuredData fields w = Done (StructuredData data, w').
Proof.
  intros Hty.
  assert (forall f t, (f, t) ∈ map_to_list fields -> t ∈ KnownTypes) as Hty'
    by (intros f t Hin; by apply (Hty f), elem_of_map_to_list).
  destruct (rangeFields_known (map_to_list fields) Hty'
              (NoDup_fst_map_to_list fields) ∅ w) as (data & w' & Hr & _).
  exists data, w'. unfold randomStructuredData. run_M. by rewrite Hr.
Qed.

Lemma Next_operation_in {C : Type} (g : baseRecordGenerator C) (w w' : World)
    (r : Record_) (g' : baseRecordGenerator C) :
  Next g w = Done ((r, g'), w') -> Operation_ r ∈ operations g.
Proof.
  intros H. apply Next_inv in H as (now & w1 & i & w2 & word & w3 & H).
  destruct H as (_ & _ & Hop & _). by apply list_elem_of_lookup_2 in Hop.
Qed.

Lemma hl7_payload_returns (gen : Generator) (w : World) :
  exists d gen' w', hl7_payload gen w = Done ((d, gen'), w').
Proof.
  unfold hl7_payload. run_M.
  destruct (GenerateHL7Message_run gen w) as (message & pid & g1 & w1 & H).
  destruct H as (? & ? & ? & ? & ? & ? & ? & ? & ? & -> & _). by eexists _, _, _.
Qed.

End Returns.

Module Runs.
Import Example Edge.

Abbreviation E := Example.externals.

Lemma pick_clean (table : list string) (x : Z) :
  Forall (fun s => clean s = true) table -> clean (pick table x) = true.
Proof.
  intros H. unfold pick.
  destruct (nth_in_or_default (Z.to_nat (x mod Z.of_nat (length table))) table "")
    as [Hin| ->]; [|done].
  rewrite Forall_forall in H. by apply H, list_elem_of_In.
Qed.

Lemma example_stamp_clean : stamp_clean E.
Proof. intros t. apply FormatFacts.num_clean, FormatFacts.pad0_num. Qed.

Lemma example_words_clean : words_clean E.
Proof.
  intros x. repeat split; apply pick_clean;
    repeat (constructor; [reflexivity|]); constructor.
Qed.

Lemma generated_values_are_masked_witness :
  exists data w' s c,
    randomStructuredData (ext := E) fields Example.world
    = Done (StructuredData data, w')
    /\ data !! "ssn" = Some (VString s)
    /\ Obfuscator.ObfuscateSSN s = Done s
    /\ data !! "card" = Some (VString c)
    /\ Obfuscator.ObfuscateCreditCard c = Done c.
Proof.
  destruct (randomStructuredData_returns (ext := E) fields Example.world
              Witnesses.fields_known) as (data & w' & Hrun).
  destruct (generated_values_are_masked (ext := E) fields Example.world w' data
              "ssn" Hrun) as [Hssn _].
  destruct (generated_values_are_masked (ext := E) fields Example.world w' data
              "card" Hrun) as [_ Hcard].
  destruct (Hssn eq_refl) as (s & Hs & Hfix).
  destruct (Hcard eq_refl) as (c & Hc & _ & Hfixc).
  exists data, w', s, c. split; [exact Hrun|]. split; [exact Hs|].
  split; [exact Hfix|]. split; [exact Hc|exact Hfixc].
Defined.

Lemma Next_metadata_witness :
  exists r g' w',
    Next (ext := E) generator Example.world = Done ((r, g'), w')
    /\ Metadata r !! "collection" = Some "users"
    /\ forall key, key <> "collection" ->
         Metadata r !! key = SetCreatedAt 1700000000000000000 ∅ !! key.
Proof.
  destruct (Next_returns (ext := E) generator Example.world)
    as (r & g' & w' & H); [discriminate|apply Witnesses.generator_returns|].
  exists r, g', w'. split; [exact H|].
  destruct (Next_metadata (ext := E) generator Example.world w' r g' H)
    as (_ & Hcoll & Hkeys).
  split; [apply Hcoll; discriminate|exact Hkeys].
Defined.

Lemma Next_operation_witness :
  exists r g' w',
    Next (ext := E) generator Example.world = Done ((r, g'), w')
    /\ Operation_ r ∈ [OperationUpdate; OperationDelete]
    /\ count g' = 1.
Proof.
  destruct (Next_returns (ext := E) generator Example.world)
    as (r & g' & w' & H); [discriminate|apply Witnesses.generator_returns|].
  exists r, g', w'. split; [exact H|].
  destruct (Next_operation (ext := E) generator Example.world w' r g' H)
    as (Hin & _ & _ & _ & Hc).
  split; [exact Hin|exact Hc].
Defined.

Lemma Next_without_operations_witness :
  exists reason, Next (ext := E) generator_idle Example.world = Panic reason.
Proof.
  apply (Next_without_operations (ext := E) generator_idle Example.world).
  reflexivity.
Defined.

Lemma Next_position_wraps_witness :
  exists r g' w',
    Next (ext := E) generator_at_max Example.world = Done ((r, g'), w')
    /\ Position r = "-9223372036854775808".
Proof.
  destruct (Next_returns (ext := E) generator_at_max Example.world)
    as (r & g' & w' & H); [discriminate|intros c w1; by eexists _, _, _|].
  exists r, g', w'. split; [exact H|].
  destruct (Next_position_wraps (ext := E) generator_at_max Example.world w' r g'
              eq_refl H) as [Hp _].
  exact Hp.
Defined.

Lemma structured_records_witness :
  exists g rs g' w',
    NewStructuredRecordGenerator (ext := E) "users" [OperationUpdate] fields = Ok g
    /\ Next_n (ext := E) 2 g Example.world = Done ((rs, g'), w')
    /\ length rs = 2%nat
    /\ forall r, r ∈ rs ->
         Operation_ r = OperationUpdate
         /\ exists before after,
              Payload r
              = mkChange (Some (StructuredData before)) (Some (StructuredData after))
              /\ dom before = dom fields /\ dom after = dom fields.
Proof.
  destruct (structured_records (ext := E) "users" [OperationUpdate] fields
              ltac:(discriminate) Witnesses.fields_known) as (g & Hnew & Hrun).
  destruct (Hrun 2%nat Example.world) as (rs & g' & w' & Hn & Hlen & Hall).
  exists g, rs, g', w'. split; [exact Hnew|]. split; [exact Hn|].
  split; [exact Hlen|].
  intros r Hr. destruct (Hall r Hr) as [Hop Hslots].
  apply list_elem_of_singleton in Hop. split; [exact Hop|].
  unfold slots_hold in Hslots. rewrite Hop in Hslots.
  destruct Hslots as (d1 & d2 & Hp & (b & -> & Hb & _) & (a & -> & Ha & _)).
  exists b, a. split; [exact Hp|]. split; [exact Hb|exact Ha].
Defined.

Lemma raw_generator_returns (n : nat) (w : World) :
  exists rs g' w',
    Next_n (ext := E) n
      (mkBase "users" [OperationUpdate]
         (fun fields => d ← randomRawData (ext := E) fields; mret (d, fields))
         fields 0) w
    = Done ((rs, g'), w')
    /\ forall r, r ∈ rs -> Operation_ r = OperationUpdate.
Proof.
  destruct (Next_n_returns_with (ext := E) (fun c => c = fields) (fun _ => True) n
              (mkBase "users" [OperationUpdate]
                 (fun fields => d ← randomRawData (ext := E) fields; mret (d, fields))
                 fields 0) w) as (rs & g' & w' & H & _ & _ & Hops); [done|done| |].
  - intros c w1 ->. cbn [generateData]. unfold randomRawData. run_M.
    destruct (randomStructuredData_returns (ext := E) fields w1 Witnesses.fields_known)
      as (data & w2 & ->).
    by eexists _, _, _.
  - exists rs, g', w'. split; [done|]. intros r Hr.
    destruct (Hops r Hr) as [Hop _]. by apply list_elem_of_singleton in Hop.
Qed.

Lemma raw_records_witness :
  exists g rs g' w',
    NewRawRecordGenerator (ext := E) "users" [OperationUpdate] fields = Ok g
    /\ Next_n (ext := E) 2 g Example.world = Done ((rs, g'), w')
    /\ length rs = 2%nat
    /\ forall r, r ∈ rs ->
         exists before after j1 j2,
           Payload r = mkChange (Some (RawData before)) (Some (RawData after))
           /\ json_Unmarshal (Externals := E) before = Some j1
           /\ json_Unmarshal (Externals := E) after = Some j2
           /\ dom j1 = dom fields /\ dom j2 = dom fields.
Proof.
  destruct (raw_generator_returns 2 Example.world) as (rs & g' & w' & Hrun & Hops).
  destruct (raw_records (ext := E) "users" [OperationUpdate] fields _
              SimpleJSONFacts.Unmarshal_Marshal eq_refl 2 Example.world w' rs g' Hrun)
    as [Hlen Hall].
  eexists _, rs, g', w'. split; [reflexivity|]. split; [exact Hrun|].
  split; [exact Hlen|].
  intros r Hr. pose proof (Hall r Hr) as Hslots.
  unfold slots_hold in Hslots. rewrite (Hops r Hr) in Hslots.
  destruct Hslots as (d1 & d2 & Hp & (b & j1 & -> & Hb & Hd1) & (a & j2 & -> & Ha & Hd2)).
  exists b, a, j1, j2. split; [exact Hp|]. split; [exact Hb|]. split; [exact Ha|].
  split; [exact Hd1|exact Hd2].
Defined.

Lemma timed_fields_known :
  forall f t, timed_fields !! f = Some t -> t ∈ KnownTypes.
Proof.
  apply (bool_decide_unpack (map_Forall (fun _ t => t ∈ KnownTypes) timed_fields)).
  vm_compute. exact I.
Qed.

Lemma timed_generator_returns (n : nat) (w : World) :
  exists rs g' w',
    Next_n (ext := E) n
      (mkBase "events" [OperationCreate]
         (fun fields => d ← randomStructuredData (ext := E) fields; mret (d, fields))
         timed_fields 0) w
    = Done ((rs, g'), w')
    /\ forall r, r ∈ rs -> Operation_ r = OperationCreate.
Proof.
  destruct (Next_n_returns_with (ext := E) (fun c => c = timed_fields) (fun _ => True) n
              (mkBase "events" [OperationCreate]
                 (fun fields => d ← randomStructuredData (ext := E) fields;
                                mret (d, fields))
                 timed_fields 0) w) as (rs & g' & w' & H & _ & _ & Hops); [done|done| |].
  - intros c w1 ->. cbn [generateData]. run_M.
    destruct (randomStructuredData_returns (ext := E) timed_fields w1 timed_fields_known)
      as (data & w2 & ->).
    by eexists _, _, _.
  - exists rs, g', w'. split; [done|]. intros r Hr.
    destruct (Hops r Hr) as [Hop _]. by apply list_elem_of_singleton in Hop.
Qed.

Lemma example_clock_monotone : clock_monotone Example.world.
Proof. intros i j Hij. cbn. lia. Qed.

Lemma time_fields_follow_createdAt_witness :
  exists g rs g' w',
    NewStructuredRecordGenerator (ext := E) "events" [OperationCreate] timed_fields = Ok g
    /\ Next_n (ext := E) 2 g Example.world = Done ((rs, g'), w')
    /\ length rs = 2%nat
    /\ forall r, r ∈ rs ->
         exists created data t,
           (forall key, key <> "collection" ->
              Metadata r !! key = SetCreatedAt created ∅ !! key)
           /\ Payload r = mkChange None (Some (StructuredData data))
           /\ data !! "at" = Some (VTime t)
           /\ created <= t.
Proof.
  destruct (timed_generator_returns 2 Example.world) as (rs & g' & w' & Hrun & Hops).
  destruct (time_fields_follow_createdAt (ext := E) "events" [OperationCreate]
              timed_fields _ "at" eq_refl eq_refl 2 Example.world w' rs g'
              example_clock_monotone Hrun) as [Hlen Hall].
  eexists _, rs, g', w'. split; [reflexivity|]. split; [exact Hrun|].
  split; [exact Hlen|].
  intros r Hr. destruct (Hall r Hr) as (created & Hkeys & Hslots).
  unfold slots_hold in Hslots. rewrite (Hops r Hr) in Hslots.
  destruct Hslots as (d & Hp & data & t & -> & Hd & Ht).
  exists created, data, t. split; [exact Hkeys|]. split; [exact Hp|].
  split; [exact Hd|exact Ht].
Defined.

Lemma HL7_MSH_segment_witness :
  exists message pid g' w' mshFields,
    GenerateHL7Message (ext := E) (NewGenerator (ext := E) 5) Example.world
    = Done ((message, pid, g'), w')
    /\ segment_fields message 0 = Done mshFields
    /\ mshFields !! 3%nat = Some "FACILITY"
    /\ mshFields !! 5%nat = Some "FACILITY"
    /\ mshFields !! 8%nat = Some "ADT^A01"
    /\ mshFields !! 10%nat = Some "P"
    /\ mshFields !! 11%nat = Some "2.5".
Proof.
  destruct (GenerateHL7Message_run (ext := E) (NewGenerator (ext := E) 5) Example.world)
    as (message & pid & g' & w' & _ & _ & _ & _ & _ & _ & _ & _ & _ & Hrun & _).
  exists message, pid, g', w'. eexists. split; [exact Hrun|].
  split; [exact (HL7_MSH_segment (ext := E) _ _ _ _ _ _ example_stamp_clean Hrun)|].
  repeat split.
Defined.

Lemma HL7_PID_segment_witness :
  exists message pid g' w' pidFields,
    GenerateHL7Message (ext := E) (NewGenerator (ext := E) 5) Example.world
    = Done ((message, pid, g'), w')
    /\ segment_fields message 1 = Done pidFields
    /\ pidFields !! 1%nat = Some "1"
    /\ pidFields !! 3%nat = Some "1"
    /\ hl7_PatientID message = Done "1".
Proof.
  destruct (GenerateHL7Message_run (ext := E) (NewGenerator (ext := E) 5) Example.world)
    as (message & pid & g' & w' & _ & _ & _ & _ & _ & _ & _ & _ & _ & Hrun & _).
  destruct (HL7_PID_segment (ext := E) _ _ _ _ _ _ example_stamp_clean
              example_words_clean Hrun) as (H1 & _ & Hid & Hset & Hpid & _).
  exists message, pid, g', w', (pid_fields pid). split; [exact Hrun|].
  split; [exact H1|]. split; [cbn; by rewrite Hset|].
  split; [cbn; by rewrite Hpid|exact Hid].
Defined.

Lemma HL7_update_takes_two_identities_witness :
  exists g w1 r g' w' before after,
    NewHL7RecordGenerator (ext := E) "patients" [OperationUpdate] Example.world
    = Done (Ok g, w1)
    /\ Next (ext := E) g w1 = Done ((r, g'), w')
    /\ Payload r = mkChange (Some (RawData before)) (Some (RawData after))
    /\ hl7_PatientID before = Done "1"
    /\ hl7_PatientID after = Done "2".
Proof.
  pose (g := mkBase "patients" [OperationUpdate] (hl7_payload (ext := E))
               (NewGenerator (ext := E) (clock Example.world 0)) 0).
  pose (w1 := mkWorld (global_rand Example.world) (faker_rand Example.world)
                (clock Example.world) 1 (files Example.world)
                (file_reads Example.world)).
  destruct (Next_returns (ext := E) g w1) as (r & g' & w' & H);
    [discriminate|intros c w0; apply hl7_payload_returns|].
  pose proof (Next_operation_in (ext := E) g w1 w' r g' H) as Hop.
  apply list_elem_of_singleton in Hop.
  destruct (HL7_update_takes_two_identities (ext := E) g w1 w' r g'
              example_stamp_clean example_words_clean eq_refl
              ltac:(reflexivity) ltac:(unfold max_int; cbn; lia) H) as [_ Hids].
  rewrite Hop in Hids. destruct Hids as (before & after & Hp & Hb & Ha).
  exists g, w1, r, g', w', before, after.
  split; [reflexivity|]. split; [exact H|]. split; [exact Hp|].
  split; [exact Hb|exact Ha].
Defined.

Lemma loop_order_irrelevant_witness :
  exists data w',
    rangeFields (ext := E) (reverse (map_to_list fields)) ∅ Example.world
    = Done (data, w')
    /\ dom data = dom fields.
Proof.
  destruct (loop_order_irrelevant (ext := E) fields (reverse (map_to_list fields))
              Example.world (reverse_Permutation _)) as [Hknown _].
  destruct (Hknown Witnesses.fields_known) as (data & w' & Hrun & Hdom & _).
  exists data, w'. split; [exact Hrun|exact Hdom].
Defined.

Lemma duration_may_be_zero_witness :
  exists w',
    randomStructuredData (ext := E) {[ "timeout" := "duration" ]} world_round
    = Done (StructuredData {[ "timeout" := VDuration 0 ]}, w').
Proof. apply (duration_may_be_zero (ext := E) "timeout" world_round). reflexivity. Defined.

End Runs.
